(** * The collectd `openafs` plugin (src/openafs.c): shared-memory counter registry

    A shallow embedding of the plugin's three callbacks and their helpers,
    written as explicit state passing over a small model of the process
    (heap blocks, file descriptors, memory mappings) and of its environment
    (POSIX shared-memory objects, allocator, collectd's dispatch sink). *)

From Stdlib Require Import ZArith String Ascii.
From stdpp Require Import gmap strings list.

Local Open Scope string_scope.
Local Open Scope Z_scope.

(** ** Configuration trees (liboconfig's [oconfig_item_t]) *)

Inductive oconfig_value_t :=
| OCONFIG_TYPE_STRING (s : string)
| OCONFIG_TYPE_NUMBER (n : Z)
| OCONFIG_TYPE_BOOLEAN (b : bool).

#[local] Set Warnings "-register-all".

(** [children_num] of the C structure is the length of [children];
    it is a non-negative [int]. *)
Inductive oconfig_item_t :=
| OItem (key : string) (values : list oconfig_value_t)
        (children : list oconfig_item_t).

Definition key (ci : oconfig_item_t) : string :=
  match ci with OItem k _ _ => k end.
Definition values (ci : oconfig_item_t) : list oconfig_value_t :=
  match ci with OItem _ v _ => v end.
Definition children (ci : oconfig_item_t) : list oconfig_item_t :=
  match ci with OItem _ _ c => c end.
Definition children_num (ci : oconfig_item_t) : nat := length (children ci).

(** ** C strings *)

Definition OPENAFS_STR_MAX_LEN : nat := 256.

Definition strlen (s : string) : nat := String.length s.

Definition tolower (c : ascii) : ascii :=
  let n := nat_of_ascii c in
  if ((65 <=? n) && (n <=? 90))%nat then ascii_of_nat (n + 32) else c.

Fixpoint lower (s : string) : string :=
  match s with
  | EmptyString => EmptyString
  | String c r => String (tolower c) (lower r)
  end.

Definition uchar (c : ascii) : Z := Z.of_nat (nat_of_ascii c).

(** [strcasecmp]: difference of the first pair of bytes that differ after
    [tolower]; the end of a string reads as the terminating 0 byte. *)
Fixpoint strcasecmp (s1 s2 : string) : Z :=
  match s1, s2 with
  | EmptyString, EmptyString => 0
  | EmptyString, String c2 _ => 0 - uchar (tolower c2)
  | String c1 _, EmptyString => uchar (tolower c1)
  | String c1 r1, String c2 r2 =>
      let d := uchar (tolower c1) - uchar (tolower c2) in
      if d =? 0 then strcasecmp r1 r2 else d
  end.

(** [snprintf(buf, size, fmt, ...)]: the formatted text, cut to the
    [size - 1] bytes that fit before the terminator. *)
Definition snprintf (size : nat) (formatted : string) : string :=
  substring 0 (size - 1) formatted.

(** Modelled from the spec: [sstrncpy] of utils/common/common.c, which is not
    part of src/; collectd's bounded copy ([strncpy] followed by
    [dest[n - 1] = 0]), so the destination holds the first [n - 1] bytes. *)
Definition sstrncpy (n : nat) (src : string) : string :=
  substring 0 (n - 1) src.

(** ** Process state *)

Abbreviation ptr := Z (only parsing).
Definition NULL : ptr := 0.
(** [(void * ) -1] *)
Definition MAP_FAILED : ptr := -1.

(** [n_counters] is an [unsigned int] that only ever receives a
    [children_num], a non-negative [int]: neither the conversion nor the
    [size_t] product [n_counters * sizeof(unsigned int)] wraps around. *)
Record openafs_class_t := mk_class {
  fd : Z;             (* file descriptor *)
  class : ptr;        (* identifier *)
  labels : ptr;       (* name of each stat *)
  counters : ptr;     (* stats *)
  n_counters : nat    (* number of stats *)
}.

(** What [calloc] hands out: all bits zero. *)
Definition zero_class : openafs_class_t :=
  {| fd := 0; class := NULL; labels := NULL; counters := NULL; n_counters := 0 |}.

(** Heap blocks, by the type the program stores in them. *)
Inductive block :=
| BString (s : string)                    (* char[] *)
| BPtrs (l : list ptr)                    (* char*[] *)
| BClasses (l : list openafs_class_t).    (* openafs_class_t[] *)

Inductive file :=
| StdStream
| ShmObject (name : string).

(** [plugin.h]'s [value_list_t], the fields this plugin sets. [values]
    holds [gauge_t] values; a gauge is a double, and every 32-bit counter
    converts to it exactly, so it is kept as the integer it came from. *)
Record value_list_t := mk_vl {
  vl_plugin : string;
  vl_type : string;
  vl_values : list Z
}.

Record state := mk_state {
  heap : gmap Z block;                 (* live heap blocks *)
  brk : Z;                             (* next unused address *)
  allocs : nat;                        (* allocation requests so far *)
  fds : gmap Z file;                   (* open file descriptors *)
  maps : gmap Z (string * nat);        (* live mappings: object, bytes *)
  shm_log : list string;               (* names passed to shm_open *)
  dispatched : list value_list_t;      (* samples handed to the sink *)
  openafs_class_lst : ptr;
  openafs_class_lst_len : nat
}.

(** The world outside the plugin. *)
Record env := mk_env {
  (* existing, readable shared-memory objects and their 32-bit words *)
  shm_objects : string -> option (list Z);
  (* mmap refused for a reason of the system's own (ENOMEM, EACCES, ...) *)
  mmap_refused : string -> nat -> bool;
  (* whether the k-th allocation request fails *)
  alloc_fails : nat -> bool;
  (* calloc(0, _) is implementation-defined: NULL or a unique pointer *)
  calloc0_null : bool;
  (* plugin.h (not part of src/): size of the name fields of value_list_t *)
  DATA_MAX_NAME_LEN : nat;
  (* return value of plugin_dispatch_values *)
  dispatch_status : value_list_t -> Z;
  (* sysconf(_SC_PAGESIZE): the bytes of a page of the system *)
  PAGE_SIZE : nat
}.

(** ** A state-and-fault monad

    [Fault] stands for behaviour the C standard leaves undefined (invalid
    free, use after free, out-of-bounds or invalid dereference, a null
    pointer given to [%s]); nothing is claimed about what follows it. *)

Inductive outcome (A : Type) :=
| Ok (a : A) (s : state)
| Fault.
Arguments Ok {A} a s.
Arguments Fault {A}.

Definition M (A : Type) := state -> outcome A.

#[global] Instance M_ret : MRet M := fun A a s => Ok a s.
#[global] Instance M_bind : MBind M := fun A B f m s =>
  match m s with Ok a s' => f a s' | Fault => Fault end.
Definition fault {A} : M A := fun _ => Fault.

(** Reading the globals, and assigning to one. *)
Definition globals : M state := fun s => Ok s s.
Definition assign (f : state -> state) : M unit := fun s => Ok tt (f s).

(** [for (int i = from; i < from + k && !status; i++) status = body i;] *)
Fixpoint for_status (body : nat -> M Z) (from k : nat) (status : Z) : M Z :=
  match k with
  | O => mret status
  | S k' =>
      if status =? 0
      then st ← body from; for_status body (S from) k' st
      else mret status
  end.

(** [for (int i = from; i < from + k; i++) body i;] *)
Fixpoint for_each (body : nat -> M unit) (from k : nat) : M unit :=
  match k with
  | O => mret tt
  | S k' => body from;; for_each body (S from) k'
  end.

(** ** System and library calls *)

Definition set_heap (h : gmap Z block) (s : state) : state :=
  mk_state h (brk s) (allocs s) (fds s) (maps s) (shm_log s) (dispatched s)
           (openafs_class_lst s) (openafs_class_lst_len s).
Definition set_fds (f : gmap Z file) (s : state) : state :=
  mk_state (heap s) (brk s) (allocs s) f (maps s) (shm_log s) (dispatched s)
           (openafs_class_lst s) (openafs_class_lst_len s).
Definition set_maps (m : gmap Z (string * nat)) (s : state) : state :=
  mk_state (heap s) (brk s) (allocs s) (fds s) m (shm_log s) (dispatched s)
           (openafs_class_lst s) (openafs_class_lst_len s).
Definition set_brk (b : Z) (s : state) : state :=
  mk_state (heap s) b (allocs s) (fds s) (maps s) (shm_log s) (dispatched s)
           (openafs_class_lst s) (openafs_class_lst_len s).
Definition set_allocs (n : nat) (s : state) : state :=
  mk_state (heap s) (brk s) n (fds s) (maps s) (shm_log s) (dispatched s)
           (openafs_class_lst s) (openafs_class_lst_len s).
Definition set_shm_log (l : list string) (s : state) : state :=
  mk_state (heap s) (brk s) (allocs s) (fds s) (maps s) l (dispatched s)
           (openafs_class_lst s) (openafs_class_lst_len s).
Definition set_dispatched (l : list value_list_t) (s : state) : state :=
  mk_state (heap s) (brk s) (allocs s) (fds s) (maps s) (shm_log s) l
           (openafs_class_lst s) (openafs_class_lst_len s).
Definition set_class_lst (p : ptr) (s : state) : state :=
  mk_state (heap s) (brk s) (allocs s) (fds s) (maps s) (shm_log s)
           (dispatched s) p (openafs_class_lst_len s).
Definition set_class_lst_len (n : nat) (s : state) : state :=
  mk_state (heap s) (brk s) (allocs s) (fds s) (maps s) (shm_log s)
           (dispatched s) (openafs_class_lst s) n.

(** The allocator: one request, for a block with the given initial
    contents. [zero_size] marks a request for 0 bytes. *)
Definition alloc (e : env) (zero_size : bool) (b : block) : M ptr := fun s =>
  let s1 := set_allocs (S (allocs s)) s in
  if (zero_size && calloc0_null e) || alloc_fails e (allocs s)
  then Ok NULL s1
  else Ok (brk s) (set_brk (brk s + 1) (set_heap (<[brk s := b]> (heap s)) s1)).

Definition calloc_classes (e : env) (n : nat) : M ptr :=
  alloc e (Nat.eqb n 0) (BClasses (replicate n zero_class)).
Definition calloc_ptrs (e : env) (n : nat) : M ptr :=
  alloc e (Nat.eqb n 0) (BPtrs (replicate n NULL)).
Definition strdup (e : env) (s : string) : M ptr :=
  alloc e false (BString s).

Definition free (p : ptr) : M unit := fun s =>
  if p =? NULL then Ok tt s
  else match heap s !! p with
       | Some _ => Ok tt (set_heap (delete p (heap s)) s)
       | None => Fault
       end.

(** The lowest descriptor that is not open. *)
Fixpoint lowest_free (f : gmap Z file) (n : Z) (fuel : nat) : Z :=
  match fuel with
  | O => n
  | S fuel' =>
      match f !! n with
      | Some _ => lowest_free f (n + 1) fuel'
      | None => n
      end
  end.

(** [shm_open(name, O_RDONLY, 0666)] *)
Definition shm_open (e : env) (name : string) : M Z := fun s =>
  let s1 := set_shm_log (shm_log s ++ [name]) s in
  match shm_objects e name with
  | Some _ =>
      let d := lowest_free (fds s) 0 (size (fds s)) in
      Ok d (set_fds (<[d := ShmObject name]> (fds s)) s1)
  | None => Ok (-1) s1
  end.

Definition close (d : Z) : M Z := fun s =>
  match fds s !! d with
  | Some _ => Ok 0 (set_fds (delete d (fds s)) s)
  | None => Ok (-1) s
  end.

(** [mmap(0, len, PROT_READ, MAP_SHARED, fd, 0)]; a length of 0 is EINVAL. *)
Definition mmap (e : env) (len : nat) (d : Z) : M ptr := fun s =>
  match fds s !! d with
  | Some (ShmObject name) =>
      if Nat.eqb len 0 || mmap_refused e name len
      then Ok MAP_FAILED s
      else Ok (brk s)
              (set_brk (brk s + 1) (set_maps (<[brk s := (name, len)]> (maps s)) s))
  | _ => Ok MAP_FAILED s
  end.

(** [munmap(addr, len)]: where no mapping starts at [addr] nothing changes. *)
Definition munmap (addr : ptr) (len : nat) : M Z := fun s =>
  match maps s !! addr with
  | Some (_, len') =>
      if Nat.eqb len len'
      then Ok 0 (set_maps (delete addr (maps s)) s)
      else Ok (-1) s
  | None => Ok (-1) s
  end.

Definition sizeof_unsigned_int : nat := 4.

(** ** Access to the class list and its members

    The C code passes [&openafs_class_lst[i]] around; here such a pointer
    is the index [i], and every access goes through the global. *)

Definition load_class (i : nat) : M openafs_class_t := fun s =>
  match heap s !! openafs_class_lst s with
  | Some (BClasses l) =>
      match l !! i with Some c => Ok c s | None => Fault end
  | _ => Fault
  end.

Definition store_class (i : nat) (f : openafs_class_t -> openafs_class_t)
  : M unit := fun s =>
  match heap s !! openafs_class_lst s with
  | Some (BClasses l) =>
      match l !! i with
      | Some c =>
          Ok tt (set_heap (<[openafs_class_lst s := BClasses (<[i := f c]> l)]>
                             (heap s)) s)
      | None => Fault
      end
  | _ => Fault
  end.

Definition set_fd (v : Z) (c : openafs_class_t) : openafs_class_t :=
  mk_class v (class c) (labels c) (counters c) (n_counters c).
Definition set_class (v : ptr) (c : openafs_class_t) : openafs_class_t :=
  mk_class (fd c) v (labels c) (counters c) (n_counters c).
Definition set_labels (v : ptr) (c : openafs_class_t) : openafs_class_t :=
  mk_class (fd c) (class c) v (counters c) (n_counters c).
Definition set_counters (v : ptr) (c : openafs_class_t) : openafs_class_t :=
  mk_class (fd c) (class c) (labels c) v (n_counters c).
Definition set_n_counters (v : nat) (c : openafs_class_t) : openafs_class_t :=
  mk_class (fd c) (class c) (labels c) (counters c) v.

(** The string a [char *] points to. *)
Definition load_string (p : ptr) : M string := fun s =>
  match heap s !! p with
  | Some (BString str) => Ok str s
  | _ => Fault
  end.

(** [a[j]] for a [char **a]. *)
Definition load_ptr (a : ptr) (j : nat) : M ptr := fun s =>
  match heap s !! a with
  | Some (BPtrs l) =>
      match l !! j with Some p => Ok p s | None => Fault end
  | _ => Fault
  end.

Definition store_ptr (a : ptr) (j : nat) (v : ptr) : M unit := fun s =>
  match heap s !! a with
  | Some (BPtrs l) =>
      match l !! j with
      | Some _ => Ok tt (set_heap (<[a := BPtrs (<[j := v]> l)]> (heap s)) s)
      | None => Fault
      end
  | _ => Fault
  end.

(** The two places a [char **ret_string] of this plugin points to. *)
Inductive string_slot :=
| ClassName (a_class : nat)             (* &a_class->class *)
| Label (a_class : nat) (i : nat).      (* &a_class->labels[i] *)

#[global] Instance string_slot_eq_dec : EqDecision string_slot.
Proof. solve_decision. Defined.

Definition load_slot (l : string_slot) : M ptr :=
  match l with
  | ClassName a => c ← load_class a; mret (class c)
  | Label a i => c ← load_class a; load_ptr (labels c) i
  end.

Definition store_slot (l : string_slot) (v : ptr) : M unit :=
  match l with
  | ClassName a => store_class a (set_class v)
  | Label a i => c ← load_class a; store_ptr (labels c) i v
  end.

(** Modelled from the spec: [cf_util_get_string] of utils/common/common.c,
    which is not part of src/ ("resolve the class name; fail if absent or
    malformed", "extract its label string"): the item must carry exactly one
    value, a string; a copy of it replaces what the slot held. *)
Definition cf_util_get_string (e : env) (ci : oconfig_item_t)
    (ret_string : string_slot) : M Z :=
  match values ci with
  | [OCONFIG_TYPE_STRING str] =>
      p ← strdup e str;
      if p =? NULL then mret (-1)
      else
        old ← load_slot ret_string;
        free old;;
        store_slot ret_string p;;
        mret 0
  | _ => mret (-1)
  end.

(** Modelled from the spec: [plugin_dispatch_values] of plugin.c, which is
    not part of src/ ("emit one sample to the sink"): the sink receives the
    value list; its status is the sink's business. *)
Definition plugin_dispatch_values (e : env) (vl : value_list_t) : M Z :=
  fun s => Ok (dispatch_status e vl) (set_dispatched (dispatched s ++ [vl]) s).

(** Whether word [i] of a mapping lies in a page that holds bytes of an
    object of [n] words: the pages of the object are the first
    [ceil (4 * n / PAGE_SIZE)] pages of a mapping that starts at offset 0. *)
Definition in_pages (e : env) (n i : nat) : bool :=
  (sizeof_unsigned_int * i / PAGE_SIZE e
   <? (sizeof_unsigned_int * n + PAGE_SIZE e - 1) / PAGE_SIZE e)%nat.

(** What a load of word [i] of a mapping finds when the object holds
    [words]: the word of the object where it has one; zero in the rest of
    the object's last page, which the system fills with zero bytes; and
    nothing in the pages after it, where the access raises SIGBUS. *)
Definition word_at (e : env) (words : list Z) (i : nat) : option Z :=
  match words !! i with
  | Some w => Some w
  | None => if in_pages e (length words) i then Some 0 else None
  end.

(** [atomic_load_explicit(&counters[i], memory_order_relaxed)]: word [i] of
    the mapping at [counters], which must lie inside the mapping and in a
    page of the object. The environment gives the words of the object as
    they are at the time of the load; for an object it does not describe,
    the model gives no result. *)
Definition atomic_load (e : env) (counters : ptr) (i : nat) : M Z := fun s =>
  match maps s !! counters with
  | Some (name, len) =>
      if (sizeof_unsigned_int * S i <=? len)%nat
      then match shm_objects e name with
           | Some words =>
               match word_at e words i with Some w => Ok w s | None => Fault end
           | None => Fault
           end
      else Fault
  | None => Fault
  end.

(** ** The plugin *)

Definition _openafs_release_labels (a_class : nat) : M unit :=
  c ← load_class a_class;
  if labels c =? NULL then mret tt
  else
    for_each (fun i => p ← load_ptr (labels c) i; free p) 0 (n_counters c).

(** Release the resources allocated by the plugin. *)
Definition openafs_destroy : M Z :=
  s ← globals;
  for_each (fun i =>
              classp ← load_class i;
              munmap (counters classp)
                     (n_counters classp * sizeof_unsigned_int);;
              close (fd classp);;
              free (class classp);;
              _openafs_release_labels i)
           0 (openafs_class_lst_len s);;
  free (openafs_class_lst s);;
  mret 0.

(** Create shared-memory region for stats and register labels. *)
Definition _openafs_add_stats (e : env) (a_ci : oconfig_item_t)
    (a_class : nat) : M Z :=
  c ← load_class a_class;
  name ← load_string (class c);
  if (OPENAFS_STR_MAX_LEN <? strlen name + 2)%nat then mret (-1)
  else
    let buffer := snprintf OPENAFS_STR_MAX_LEN ("/" +:+ name) in
    d ← shm_open e buffer;
    store_class a_class (set_fd d);;
    if d <? 0 then mret (-1)
    else
      store_class a_class (set_n_counters (children_num a_ci));;
      m ← mmap e (children_num a_ci * sizeof_unsigned_int) d;
      store_class a_class (set_counters m);;
      l ← calloc_ptrs e (children_num a_ci);
      store_class a_class (set_labels l);;
      if (m =? NULL) || (l =? NULL) then mret (-1)
      else
        for_status (fun i =>
                      match children a_ci !! i with
                      | Some child =>
                          if strcasecmp "Counter" (key child) =? 0
                          then cf_util_get_string e child (Label a_class i)
                          else mret 0
                      | None => fault
                      end)
                   0 (children_num a_ci) 0.

(** Record and process each class. *)
Definition _openafs_process_class (e : env) (a_ci : oconfig_item_t)
    (a_class : nat) : M Z :=
  if strcasecmp "Class" (key a_ci) =? 0
  then
    status ← cf_util_get_string e a_ci (ClassName a_class);
    if status =? 0 then _openafs_add_stats e a_ci a_class else mret status
  else mret 0.

(** Configuration callback used by collectd. *)
Definition openafs_config (e : env) (a_ci : oconfig_item_t) : M Z :=
  lst ← calloc_classes e (children_num a_ci);
  assign (set_class_lst lst);;
  if lst =? NULL then mret (-1)
  else
    assign (set_class_lst_len (children_num a_ci));;
    status ← for_status (fun i =>
                           match children a_ci !! i with
                           | Some child => _openafs_process_class e child i
                           | None => fault
                           end)
                        0 (children_num a_ci) 0;
    (if status =? 0 then mret 0 else openafs_destroy);;
    mret status.

(** Export stats from class received as an argument. *)
Definition _openafs_export_class (e : env) (a_class : nat) : M unit :=
  let plugin := sstrncpy (DATA_MAX_NAME_LEN e) "openafs" in
  c ← load_class a_class;
  for_each (fun i =>
              name ← load_string (class c);
              lp ← load_ptr (labels c) i;
              label ← load_string lp;
              let buffer :=
                snprintf OPENAFS_STR_MAX_LEN (name +:+ "_" +:+ label) in
              let type := sstrncpy (DATA_MAX_NAME_LEN e) buffer in
              counter ← atomic_load e (counters c) i;
              plugin_dispatch_values e (mk_vl plugin type [counter]);;
              mret tt)
           0 (n_counters c).

(** Read callback used by collectd. *)
Definition openafs_read (e : env) : M Z :=
  s ← globals;
  for_each (_openafs_export_class e) 0 (openafs_class_lst_len s);;
  mret 0.

(** ** Concrete configurations and environments *)

(** A process in which nothing is allocated yet and only the three standard
    streams are open; the plugin's globals are as initialised in the source. *)
Definition initial_state : state :=
  mk_state ∅ 1 0
           (<[0 := StdStream]> (<[1 := StdStream]> (<[2 := StdStream]> ∅)))
           ∅ [] [] NULL 0.

Definition Class_block (name : string) (cs : list oconfig_item_t)
  : oconfig_item_t := OItem "Class" [OCONFIG_TYPE_STRING name] cs.
Definition Counter_line (label : string) : oconfig_item_t :=
  OItem "Counter" [OCONFIG_TYPE_STRING label] [].
Definition Plugin_block (cs : list oconfig_item_t) : oconfig_item_t :=
  OItem "Plugin" [OCONFIG_TYPE_STRING "openafs"] cs.

(** One object, "/afs", holding the words 42 and 7; every mapping and every
    allocation succeeds; glibc's calloc; collectd's name length of 128;
    pages of 4096 bytes. *)
Definition afs_env : env :=
  mk_env (fun n => if String.eqb n "/afs" then Some [42; 7] else None)
         (fun _ _ => false) (fun _ => false) false 128 (fun _ => 0) 4096.

(** The same world, except that the kernel refuses to map "/afs". *)
Definition afs_env_nomap : env :=
  mk_env (shm_objects afs_env) (fun _ _ => true) (fun _ => false) false 128
         (fun _ => 0) 4096.

Definition afs_config : oconfig_item_t :=
  Plugin_block [Class_block "afs" [Counter_line "hits"; Counter_line "misses"]].

(** A second class whose object does not exist. *)
Definition afs_gone_config : oconfig_item_t :=
  Plugin_block [Class_block "afs" [Counter_line "hits"; Counter_line "misses"];
                Class_block "gone" [Counter_line "x"]].

(** A child of the class block that is not a counter. *)
Definition afs_foreign_config : oconfig_item_t :=
  Plugin_block [Class_block "afs" [OItem "Interval" [OCONFIG_TYPE_NUMBER 10] [];
                                   Counter_line "hits"]].

Definition afs_one_config : oconfig_item_t :=
  Plugin_block [Class_block "afs" [Counter_line "hits"]].

Fixpoint repeat_char (c : ascii) (n : nat) : string :=
  match n with
  | O => EmptyString
  | S n' => String c (repeat_char c n')
  end.

(** A label of 130 bytes. *)
Definition long_label : string := repeat_char "x"%char 130.

Definition afs_long_config : oconfig_item_t :=
  Plugin_block [Class_block "afs" [Counter_line long_label]].

Definition afs_lowercase_config : oconfig_item_t :=
  Plugin_block [OItem "class" [OCONFIG_TYPE_STRING "afs"]
                  [OItem "COUNTER" [OCONFIG_TYPE_STRING "hits"] [];
                   OItem "counter" [OCONFIG_TYPE_STRING "misses"] []]].

(** The entry [&openafs_class_lst[i]] of a state, if it can be read. *)
Definition class_entry (s : state) (i : nat) : option openafs_class_t :=
  match heap s !! openafs_class_lst s with
  | Some (BClasses l) => l !! i
  | _ => None
  end.

(** The scenario of the specification: afs_hits = 42, afs_misses = 7. *)
Example afs_scenario :
  exists s s',
    openafs_config afs_env afs_config initial_state = Ok 0 s /\
    openafs_read afs_env s = Ok 0 s' /\
    dispatched s' = [mk_vl "openafs" "afs_hits" [42];
                     mk_vl "openafs" "afs_misses" [7]].
Proof.
  eexists; eexists; split; [vm_compute; reflexivity|].
  split; vm_compute; reflexivity.
Qed.

(** ** Configurations that differ in the capitalisation of their keys *)

Inductive caseeq : oconfig_item_t -> oconfig_item_t -> Prop :=
| caseeq_item k k' v ch ch' :
    lower k = lower k' ->
    Forall2 caseeq ch ch' ->
    caseeq (OItem k v ch) (OItem k' v ch').

Lemma tolower_idem c : tolower (tolower c) = tolower c.
Proof. destruct c as [[] [] [] [] [] [] [] []]; reflexivity. Qed.

Lemma strcasecmp_lower_r a b : strcasecmp a (lower b) = strcasecmp a b.
Proof.
  revert b; induction a as [|c a IH]; intros [|d b]; simpl; trivial.
  - now rewrite tolower_idem.
  - rewrite tolower_idem, IH. reflexivity.
Qed.

Lemma strcasecmp_caseeq a k k' :
  lower k = lower k' -> strcasecmp a k = strcasecmp a k'.
Proof.
  intros H. rewrite <- (strcasecmp_lower_r a k), H. apply strcasecmp_lower_r.
Qed.

Lemma caseeq_key a a' : caseeq a a' -> lower (key a) = lower (key a').
Proof. now destruct 1. Qed.

Lemma caseeq_values a a' : caseeq a a' -> values a = values a'.
Proof. now destruct 1. Qed.

Lemma caseeq_children a a' :
  caseeq a a' -> Forall2 caseeq (children a) (children a').
Proof. now destruct 1. Qed.

Lemma caseeq_children_num a a' :
  caseeq a a' -> children_num a = children_num a'.
Proof.
  intros H. unfold children_num.
  exact (Forall2_length _ _ _ (caseeq_children _ _ H)).
Qed.

Lemma caseeq_lookup a a' j :
  caseeq a a' ->
  match children a !! j, children a' !! j with
  | Some c, Some c' => caseeq c c'
  | None, None => True
  | _, _ => False
  end.
Proof.
  intros H. pose proof (caseeq_children _ _ H) as Hch.
  destruct (children a !! j) as [c|] eqn:Hc.
  - destruct (Forall2_lookup_l _ _ _ _ _ Hch Hc) as (c' & -> & Hcc). exact Hcc.
  - assert (children a' !! j = None) as ->; [|exact I].
    apply lookup_ge_None. rewrite <- (Forall2_length _ _ _ Hch).
    now apply lookup_ge_None.
Qed.

Arguments strcasecmp : simpl never.

Lemma bind_ext {A B} (m : M A) (f g : A -> M B) s :
  (forall a s', f a s' = g a s') -> (m ≫= f) s = (m ≫= g) s.
Proof.
  intros H. unfold mbind, M_bind. destruct (m s); auto.
Qed.

Lemma for_status_ext (f g : nat -> M Z) :
  (forall i s, f i s = g i s) ->
  forall k from st s, for_status f from k st s = for_status g from k st s.
Proof.
  intros H k; induction k as [|k IH]; intros from st s; simpl; trivial.
  destruct (st =? 0); trivial.
  unfold mbind, M_bind. rewrite H. destruct (g from s); auto.
Qed.

Lemma get_string_caseeq e a a' l s :
  caseeq a a' -> cf_util_get_string e a l s = cf_util_get_string e a' l s.
Proof.
  intros H. unfold cf_util_get_string. now rewrite (caseeq_values _ _ H).
Qed.

Lemma add_stats_caseeq e a a' i s :
  caseeq a a' -> _openafs_add_stats e a i s = _openafs_add_stats e a' i s.
Proof.
  intros H. unfold _openafs_add_stats.
  rewrite <- (caseeq_children_num _ _ H).
  repeat (apply bind_ext; intros; try (case_match; [reflexivity|])).
  apply for_status_ext. intros j s1.
  pose proof (caseeq_lookup _ _ j H) as Hj.
  destruct (children a !! j) as [c|], (children a' !! j) as [c'|];
    try contradiction; [|reflexivity].
  rewrite (strcasecmp_caseeq "Counter" _ _ (caseeq_key _ _ Hj)).
  destruct (_ =? 0); [|reflexivity].
  now apply get_string_caseeq.
Qed.

Lemma process_class_caseeq e a a' i s :
  caseeq a a' ->
  _openafs_process_class e a i s = _openafs_process_class e a' i s.
Proof.
  intros H. unfold _openafs_process_class.
  rewrite (strcasecmp_caseeq "Class" _ _ (caseeq_key _ _ H)).
  destruct (_ =? 0); [|reflexivity].
  unfold mbind, M_bind. rewrite (get_string_caseeq _ _ _ _ _ H).
  destruct (cf_util_get_string e a' (ClassName i) s) as [st s1|]; [|reflexivity].
  destruct (st =? 0); [|reflexivity].
  now apply add_stats_caseeq.
Qed.

Lemma config_caseeq e a a' s :
  caseeq a a' -> openafs_config e a s = openafs_config e a' s.
Proof.
  intros H. unfold openafs_config.
  rewrite <- (caseeq_children_num _ _ H).
  repeat (apply bind_ext; intros; try (case_match; [reflexivity|])).
  unfold mbind at 1 3, M_bind.
  erewrite for_status_ext; [reflexivity|].
  intros j s1. pose proof (caseeq_lookup _ _ j H) as Hj.
  destruct (children a !! j) as [c|], (children a' !! j) as [c'|];
    try contradiction; [|reflexivity].
  now apply process_class_caseeq.
Qed.

(** ** Reading the state *)

Definition ptrs_at (s : state) (a : ptr) : list ptr :=
  match heap s !! a with
  | Some (BPtrs l) => l
  | _ => []
  end.

Definition is_string (s : state) (p : ptr) : Prop :=
  exists str, heap s !! p = Some (BString str).

(** The pointer a string slot holds, if the slot can be read. *)
Definition slot_val (s : state) (l : string_slot) : option ptr :=
  match l with
  | ClassName i =>
      match class_entry s i with Some c => Some (class c) | None => None end
  | Label i j =>
      match class_entry s i with
      | Some c => ptrs_at s (labels c) !! j
      | None => None
      end
  end.

Lemma load_class_eq i s :
  load_class i s =
  match class_entry s i with Some c => Ok c s | None => Fault end.
Proof.
  unfold load_class, class_entry.
  destruct (heap s !! openafs_class_lst s) as [[| |l]|]; reflexivity.
Qed.

Lemma bind_Ok {A B} (m : M A) (f : A -> M B) s a s' :
  m s = Ok a s' -> (m ≫= f) s = f a s'.
Proof. intros H. unfold mbind, M_bind. now rewrite H. Qed.

Lemma bind_inv {A B} (m : M A) (f : A -> M B) s b s2 :
  (m ≫= f) s = Ok b s2 -> exists a s1, m s = Ok a s1 /\ f a s1 = Ok b s2.
Proof.
  unfold mbind, M_bind. destruct (m s) as [a s1|]; [eauto | discriminate].
Qed.

(** ** Well-formed states

    What holds of the plugin's memory from the moment the class list is
    allocated: the list and every label array are live blocks of the right
    type and size, every string slot is null or holds a live string, and no
    two slots (no two classes) share a string (a label array). *)

Record safe (s : state) : Prop := mk_safe {
  safe_brk : 0 < brk s;
  safe_heap : forall a b, heap s !! a = Some b -> 0 < a < brk s;
  safe_maps : forall a m, maps s !! a = Some m -> 0 < a < brk s;
  safe_lst : exists l, heap s !! openafs_class_lst s = Some (BClasses l) /\
                       length l = openafs_class_lst_len s;
  safe_labels : forall i c, class_entry s i = Some c -> labels c <> NULL ->
      exists lp, heap s !! labels c = Some (BPtrs lp) /\
                 length lp = n_counters c;
  safe_labels_inj : forall i i' c c',
      class_entry s i = Some c -> class_entry s i' = Some c' ->
      labels c = labels c' -> labels c <> NULL -> i = i';
  safe_slots : forall l p, slot_val s l = Some p -> p <> NULL -> is_string s p;
  safe_inj : forall l l' p,
      slot_val s l = Some p -> slot_val s l' = Some p -> p <> NULL -> l = l'
}.

(** [s'] differs from [s] only above [brk s] and in the class list. *)
Record extends (s s' : state) : Prop := mk_extends {
  ext_brk : brk s <= brk s';
  ext_heap : forall a, a < brk s -> a <> openafs_class_lst s ->
                       heap s' !! a = heap s !! a;
  ext_maps : forall a, a < brk s -> maps s' !! a = maps s !! a;
  ext_lst : openafs_class_lst s' = openafs_class_lst s;
  ext_len : openafs_class_lst_len s' = openafs_class_lst_len s;
  ext_disp : dispatched s' = dispatched s
}.

Lemma extends_refl s : extends s s.
Proof. split; auto; lia. Qed.

Lemma extends_trans s1 s2 s3 : extends s1 s2 -> extends s2 s3 -> extends s1 s3.
Proof.
  intros [] []; split; try congruence; try lia.
  - intros a Ha Hne. rewrite ext_heap1; [auto| lia | congruence].
  - intros a Ha. rewrite ext_maps1; [auto | lia].
Qed.

(** States that agree on everything [safe] and [extends] look at. *)
Definition same_memory (s s' : state) : Prop :=
  heap s' = heap s /\ brk s' = brk s /\ maps s' = maps s /\
  openafs_class_lst s' = openafs_class_lst s /\
  openafs_class_lst_len s' = openafs_class_lst_len s.

Lemma same_memory_entry s s' i :
  same_memory s s' -> class_entry s' i = class_entry s i.
Proof. intros (Hh & _ & _ & Hl & _). unfold class_entry. now rewrite Hh, Hl. Qed.

Lemma same_memory_slot s s' l :
  same_memory s s' -> slot_val s' l = slot_val s l.
Proof.
  intros H. pose proof (fun i => same_memory_entry s s' i H) as He.
  destruct H as (Hh & _). destruct l as [i|i j]; simpl; rewrite He.
  - reflexivity.
  - unfold ptrs_at. now rewrite Hh.
Qed.

Lemma safe_same_memory s s' : same_memory s s' -> safe s -> safe s'.
Proof.
  intros H [].
  pose proof (fun i => same_memory_entry s s' i H) as He.
  pose proof (fun l => same_memory_slot s s' l H) as Hs.
  destruct H as (Hh & Hb & Hm & Hl & Hn).
  split; unfold is_string; try setoid_rewrite He; try setoid_rewrite Hs;
    rewrite ?Hh, ?Hb, ?Hm, ?Hl, ?Hn; auto.
Qed.

Lemma extends_same_memory s s' :
  same_memory s s' -> dispatched s' = dispatched s -> extends s s'.
Proof.
  intros (Hh & Hb & Hm & Hl & Hn) Hd.
  split; rewrite ?Hh, ?Hb, ?Hm; auto; lia.
Qed.

(** Slot [l] holds the non-null pointer [p]. *)
Definition holds (s : state) (l : string_slot) (p : ptr) : Prop :=
  slot_val s l = Some p /\ p <> NULL.

(** No slot holds [p] and no class has it as its label array. *)
Definition unreferenced (s : state) (p : ptr) : Prop :=
  (forall l, slot_val s l <> Some p) /\
  (forall i c, class_entry s i = Some c -> labels c <> p).

Lemma safe_null s : safe s -> heap s !! NULL = None.
Proof.
  intros Hs. destruct (heap s !! NULL) as [b|] eqn:H; [|reflexivity].
  apply (safe_heap s Hs) in H. unfold NULL in H. lia.
Qed.

Lemma safe_brk_free s : safe s -> heap s !! brk s = None.
Proof.
  intros Hs. destruct (heap s !! brk s) as [b|] eqn:H; [|reflexivity].
  apply (safe_heap s Hs) in H. lia.
Qed.

Lemma ptrs_at_null s : safe s -> ptrs_at s NULL = [].
Proof. intros Hs. unfold ptrs_at. now rewrite safe_null. Qed.

(** Assembling [safe] for a state reached from a safe one by a step that
    adds at most one string to the slots. *)
Lemma safe_build s s' (fresh : option (string_slot * ptr)) :
  safe s ->
  brk s <= brk s' ->
  (forall a b, heap s' !! a = Some b -> 0 < a < brk s') ->
  (forall a m, maps s' !! a = Some m -> 0 < a < brk s') ->
  (exists l, heap s' !! openafs_class_lst s' = Some (BClasses l) /\
             length l = openafs_class_lst_len s') ->
  (forall i c, class_entry s' i = Some c -> labels c <> NULL ->
     exists lp, heap s' !! labels c = Some (BPtrs lp) /\
                length lp = n_counters c) ->
  (forall i i' c c', class_entry s' i = Some c -> class_entry s' i' = Some c' ->
     labels c = labels c' -> labels c <> NULL -> i = i') ->
  (forall p, is_string s p -> is_string s' p) ->
  (forall l p, holds s' l p ->
     holds s l p \/
     match fresh with
     | Some (l0, p0) => l = l0 /\ p = p0
     | None => False
     end) ->
  match fresh with
  | Some (l0, p0) => is_string s' p0 /\ forall l, slot_val s l <> Some p0
  | None => True
  end ->
  safe s'.
Proof.
  intros Hs Hbrk Hheap Hmaps Hlst Hlab Hlabinj Hmono Hholds Hfresh.
  split; auto.
  - pose proof (safe_brk s Hs). lia.
  - intros l p Hl Hp. destruct (Hholds l p (conj Hl Hp)) as [[Ho _]|Hn].
    + apply Hmono. exact (safe_slots s Hs l p Ho Hp).
    + destruct fresh as [[l0 p0]|]; [|contradiction].
      destruct Hn as [-> ->]. apply Hfresh.
  - intros l l' p Hl Hl' Hp.
    destruct (Hholds l p (conj Hl Hp)) as [[Ho _]|Hn],
             (Hholds l' p (conj Hl' Hp)) as [[Ho' _]|Hn'].
    + exact (safe_inj s Hs l l' p Ho Ho' Hp).
    + destruct fresh as [[l0 p0]|]; [|contradiction].
      destruct Hn' as [-> ->]. destruct Hfresh as [_ Hf]. now destruct (Hf l).
    + destruct fresh as [[l0 p0]|]; [|contradiction].
      destruct Hn as [-> ->]. destruct Hfresh as [_ Hf]. now destruct (Hf l').
    + destruct fresh as [[l0 p0]|]; [|contradiction].
      destruct Hn as [-> _], Hn' as [-> _]. reflexivity.
Qed.

(** ** The steps of construction, one lemma each *)

Lemma alloc_spec e z b s :
  safe s ->
  exists p s',
    alloc e z b s = Ok p s' /\ safe s' /\ extends s s' /\
    (forall i, class_entry s' i = class_entry s i) /\
    shm_log s' = shm_log s /\ maps s' = maps s /\ fds s' = fds s /\
    (p <> NULL -> heap s' !! p = Some b /\ unreferenced s' p /\ p = brk s) /\
    ((z && calloc0_null e) || alloc_fails e (allocs s) = false -> p <> NULL).
Proof.
  intros Hs. unfold alloc.
  destruct ((z && calloc0_null e) || alloc_fails e (allocs s)) eqn:Hf.
  - eexists; eexists; split; [reflexivity|].
    assert (same_memory s (set_allocs (S (allocs s)) s)) as Hm
        by (repeat split).
    split; [now apply (safe_same_memory s)|].
    split; [now apply extends_same_memory|].
    split; [intros; now apply same_memory_entry|].
    repeat split; try (intros; congruence); try discriminate.
  - set (s' := set_brk _ _).
    pose proof (safe_brk s Hs) as Hb. pose proof (safe_brk_free s Hs) as Hfree.
    destruct (safe_lst s Hs) as (l & Hl & Hlen).
    assert (openafs_class_lst s <> brk s) as Hne by congruence.
    assert (forall i, class_entry s' i = class_entry s i) as He.
    { intros i. unfold class_entry; simpl. now rewrite lookup_insert_ne. }
    assert (forall a, a <> brk s -> heap s' !! a = heap s !! a) as Hh.
    { intros a Ha; simpl. now rewrite lookup_insert_ne. }
    assert (forall i c, class_entry s i = Some c -> labels c <> brk s) as Hlab.
    { intros i c Hc Heq.
      assert (labels c <> NULL) as Hnn by (rewrite Heq; unfold NULL; lia).
      destruct (safe_labels s Hs i c Hc Hnn) as (lp & Hlp & _). congruence. }
    assert (forall sl, slot_val s' sl = slot_val s sl) as Hsv.
    { intros [i|i j]; simpl; rewrite He; [reflexivity|].
      destruct (class_entry s i) as [c|] eqn:Hc; [|reflexivity].
      unfold ptrs_at. rewrite Hh; [reflexivity | now apply (Hlab i)]. }
    assert (safe s') as Hs'.
    { apply (safe_build s s' None); simpl; auto; try lia.
      - intros a b0 Ha. destruct (decide (a = brk s)) as [->|Hn]; [lia|].
        rewrite lookup_insert_ne in Ha by congruence.
        apply (safe_heap s Hs) in Ha. lia.
      - intros a m Ha. apply (safe_maps s Hs) in Ha. lia.
      - exists l. now rewrite lookup_insert_ne.
      - intros i c Hc Hn. rewrite He in Hc.
        destruct (safe_labels s Hs i c Hc Hn) as (lp & Hlp & Hlen').
        exists lp. rewrite Hh; [auto | now apply (Hlab i)].
      - intros i i' c c'. rewrite !He. apply (safe_labels_inj s Hs).
      - intros p [str Hp]. exists str. rewrite Hh; [auto | congruence].
      - intros sl p [H1 H2]. left. split; [now rewrite <- Hsv | auto]. }
    exists (brk s), s'. split; [reflexivity|]. split; [exact Hs'|].
    split.
    { split; simpl; auto; try lia.
      intros a Ha _. rewrite lookup_insert_ne; [auto | lia]. }
    split; [exact He|]. repeat split; auto.
    + simpl. apply lookup_insert_eq.
    + intros sl Hsl. rewrite Hsv in Hsl.
      assert (brk s <> NULL) as Hnn by (unfold NULL; lia).
      destruct (safe_slots s Hs sl _ Hsl Hnn) as [str Hstr]. congruence.
    + intros i c Hc. rewrite He in Hc. now apply (Hlab i).
    + intros _. unfold NULL. lia.
Qed.

(** The class list of a state, and the state in which entry [i] is [c']. *)
Definition classes_of (s : state) : list openafs_class_t :=
  match heap s !! openafs_class_lst s with
  | Some (BClasses l) => l
  | _ => []
  end.

Definition put_class (i : nat) (c' : openafs_class_t) (s : state) : state :=
  set_heap (<[openafs_class_lst s := BClasses (<[i := c']> (classes_of s))]>
              (heap s)) s.

Lemma class_entry_classes s i : class_entry s i = classes_of s !! i.
Proof.
  unfold class_entry, classes_of.
  destruct (heap s !! openafs_class_lst s) as [[| |l]|]; reflexivity.
Qed.

Lemma store_class_eq i f s c :
  class_entry s i = Some c -> store_class i f s = Ok tt (put_class i (f c) s).
Proof.
  unfold class_entry, store_class, put_class, classes_of.
  destruct (heap s !! openafs_class_lst s) as [[| |l]|]; try discriminate.
  now intros ->.
Qed.

Section put_class.
Variables (s : state) (i : nat) (c c' : openafs_class_t).
Hypothesis Hs : safe s.
Hypothesis Hc : class_entry s i = Some c.

Lemma put_class_heap a :
  a <> openafs_class_lst s -> heap (put_class i c' s) !! a = heap s !! a.
Proof. intros Ha. simpl. now rewrite lookup_insert_ne. Qed.

Lemma put_class_entry j :
  class_entry (put_class i c' s) j =
  if decide (j = i) then Some c' else class_entry s j.
Proof.
  rewrite (class_entry_classes s j). rewrite class_entry_classes in Hc.
  unfold class_entry; simpl. rewrite lookup_insert_eq.
  destruct (decide (j = i)) as [->|Hn].
  - apply list_lookup_insert_eq. now apply lookup_lt_Some in Hc.
  - now apply list_lookup_insert_ne.
Qed.

Lemma put_class_ptrs a : ptrs_at (put_class i c' s) a = ptrs_at s a.
Proof.
  unfold ptrs_at. destruct (decide (a = openafs_class_lst s)) as [->|Hn].
  - simpl. rewrite lookup_insert_eq.
    destruct (safe_lst s Hs) as (l & -> & _). reflexivity.
  - now rewrite put_class_heap.
Qed.

Lemma put_class_string p : is_string s p -> is_string (put_class i c' s) p.
Proof.
  intros [str Hp]. exists str. rewrite put_class_heap; [auto|].
  destruct (safe_lst s Hs) as (l & Hl & _). congruence.
Qed.

Lemma put_class_block a b :
  heap s !! a = Some b -> (forall l, b <> BClasses l) ->
  heap (put_class i c' s) !! a = Some b.
Proof.
  intros Ha Hb. rewrite put_class_heap; [auto|].
  destruct (safe_lst s Hs) as (l & Hl & _). intros ->.
  rewrite Hl in Ha. injection Ha as <-. now apply (Hb l).
Qed.

Lemma put_class_extends : extends s (put_class i c' s).
Proof.
  split; simpl; auto; try lia. intros a _ Ha. now rewrite lookup_insert_ne.
Qed.

Lemma put_class_slot l :
  slot_val (put_class i c' s) l =
  match l with
  | ClassName j => if decide (j = i) then Some (class c') else slot_val s l
  | Label j k =>
      if decide (j = i) then ptrs_at s (labels c') !! k else slot_val s l
  end.
Proof.
  destruct l as [j|j k]; simpl; rewrite put_class_entry;
    destruct (decide (j = i)); try reflexivity.
  - now rewrite put_class_ptrs.
  - destruct (class_entry s j); [|reflexivity]. now rewrite put_class_ptrs.
Qed.
End put_class.

Section put_class_safe.
Variables (s : state) (i : nat) (c c' : openafs_class_t).
Hypothesis Hs : safe s.
Hypothesis Hc : class_entry s i = Some c.

Let s' := put_class i c' s.

Lemma put_class_safe (fresh : option (string_slot * ptr)) :
  (labels c' <> NULL ->
   exists lp, heap s !! labels c' = Some (BPtrs lp) /\
              length lp = n_counters c') ->
  (labels c' <> NULL ->
   forall j cj, j <> i -> class_entry s j = Some cj -> labels cj <> labels c') ->
  (forall l p, holds s' l p ->
     holds s l p \/
     match fresh with
     | Some (l0, p0) => l = l0 /\ p = p0
     | None => False
     end) ->
  match fresh with
  | Some (l0, p0) => is_string s p0 /\ forall l, slot_val s l <> Some p0
  | None => True
  end ->
  safe s'.
Proof.
  intros Hlab Hinj Hholds Hfresh.
  destruct (safe_lst s Hs) as (l & Hl & Hlen).
  assert (classes_of s = l) as Hcl by (unfold classes_of; now rewrite Hl).
  apply (safe_build s s' fresh); auto.
  - simpl; lia.
  - intros a b Ha. simpl in *.
    destruct (decide (a = openafs_class_lst s)) as [->|Hn].
    + exact (safe_heap s Hs _ _ Hl).
    + rewrite lookup_insert_ne in Ha by congruence.
      exact (safe_heap s Hs _ _ Ha).
  - intros a m Ha. exact (safe_maps s Hs _ _ Ha).
  - simpl. rewrite lookup_insert_eq. eexists; split; [reflexivity|].
    now rewrite length_insert, Hcl.
  - intros j cj Hj Hn. unfold s' in *. rewrite (put_class_entry s i c) in Hj by auto.
    destruct (decide (j = i)) as [->|Hne].
    + injection Hj as <-. destruct (Hlab Hn) as (lp & Hlp & Hlen').
      exists lp. split; [|auto]. now apply put_class_block.
    + destruct (safe_labels s Hs j cj Hj Hn) as (lp & Hlp & Hlen').
      exists lp. split; [|auto]. now apply put_class_block.
  - intros j j' cj cj' Hj Hj' Heq Hn. unfold s' in *.
    rewrite (put_class_entry s i c) in Hj, Hj' by auto.
    destruct (decide (j = i)) as [->|Hne], (decide (j' = i)) as [->|Hne'];
      auto.
    + injection Hj as <-. now destruct (Hinj Hn j' cj' Hne' Hj').
    + injection Hj' as <-. rewrite Heq in Hn.
      now destruct (Hinj Hn j cj Hne Hj).
    + exact (safe_labels_inj s Hs j j' cj cj' Hj Hj' Heq Hn).
  - intros p Hp. now apply put_class_string.
  - destruct fresh as [[l0 p0]|]; [|exact I].
    split; [|apply Hfresh]. apply put_class_string; [auto | apply Hfresh].
Qed.

Lemma put_class_safe_keep :
  class c' = class c -> labels c' = labels c ->
  (labels c = NULL \/ n_counters c' = n_counters c) ->
  safe s'.
Proof.
  intros Hcls Hlab Hn. apply (put_class_safe None); auto.
  - intros Hnn. rewrite Hlab in *. destruct Hn as [Hn|Hn]; [contradiction|].
    rewrite Hn. exact (safe_labels s Hs i c Hc Hnn).
  - intros Hnn j cj Hne Hj Heq. rewrite Hlab in *.
    apply Hne. symmetry in Heq. symmetry.
    exact (safe_labels_inj s Hs i j c cj Hc Hj Heq Hnn).
  - intros l p [Hl Hp]. left. split; [|auto]. unfold s' in Hl.
    rewrite (put_class_slot s i c) in Hl by auto.
    destruct l as [j|j k]; destruct (decide (j = i)) as [->|]; auto; simpl;
      rewrite Hc; congruence.
Qed.

Lemma put_class_safe_name :
  class c = NULL -> labels c' = labels c -> n_counters c' = n_counters c ->
  is_string s (class c') -> unreferenced s (class c') ->
  safe s'.
Proof.
  intros Hcls Hlab Hn Hstr [Hun _].
  apply (put_class_safe (Some (ClassName i, class c'))); auto.
  - intros Hnn. rewrite Hlab in *. rewrite Hn.
    exact (safe_labels s Hs i c Hc Hnn).
  - intros Hnn j cj Hne Hj Heq. rewrite Hlab in *.
    apply Hne. symmetry in Heq. symmetry.
    exact (safe_labels_inj s Hs i j c cj Hc Hj Heq Hnn).
  - intros l p [Hl Hp]. unfold s' in Hl.
    rewrite (put_class_slot s i c) in Hl by auto.
    destruct l as [j|j k]; destruct (decide (j = i)) as [->|].
    + right. split; congruence.
    + left. now split.
    + left. split; [|auto]. simpl. rewrite Hc. congruence.
    + left. now split.
Qed.

Lemma put_class_safe_labels :
  labels c = NULL -> class c' = class c ->
  (labels c' = NULL \/
   (heap s !! labels c' = Some (BPtrs (replicate (n_counters c') NULL)) /\
    unreferenced s (labels c'))) ->
  safe s'.
Proof.
  intros Hlab Hcls Hnew. apply (put_class_safe None); auto.
  - intros Hnn. destruct Hnew as [?|[Hh _]]; [contradiction|].
    eexists; split; [exact Hh|]. apply length_replicate.
  - intros Hnn j cj Hne Hj. destruct Hnew as [?|[_ [_ Hun]]]; [contradiction|].
    exact (Hun j cj Hj).
  - intros l p [Hl Hp]. left. split; [|auto]. unfold s' in Hl.
    rewrite (put_class_slot s i c) in Hl by auto.
    destruct l as [j|j k]; destruct (decide (j = i)) as [->|]; auto.
    + simpl. rewrite Hc. congruence.
    + exfalso. destruct Hnew as [Hz|[Hh _]].
      * rewrite Hz, ptrs_at_null in Hl by auto. now rewrite lookup_nil in Hl.
      * unfold ptrs_at in Hl. rewrite Hh in Hl.
        apply lookup_replicate in Hl. now destruct Hl.
Qed.
End put_class_safe.

(** The state in which element [j] of the pointer array at [a] is [v]. *)
Definition put_ptr (a : ptr) (j : nat) (v : ptr) (s : state) : state :=
  set_heap (<[a := BPtrs (<[j := v]> (ptrs_at s a))]> (heap s)) s.

Lemma store_ptr_eq a j v s lp old :
  heap s !! a = Some (BPtrs lp) -> lp !! j = Some old ->
  store_ptr a j v s = Ok tt (put_ptr a j v s).
Proof.
  intros Ha Hj. unfold store_ptr, put_ptr, ptrs_at. now rewrite Ha, Hj.
Qed.

Lemma load_ptr_eq a j s :
  load_ptr a j s =
  match heap s !! a with
  | Some (BPtrs l) => match l !! j with Some p => Ok p s | None => Fault end
  | _ => Fault
  end.
Proof. reflexivity. Qed.

Section put_ptr.
Variables (s : state) (i j : nat) (c : openafs_class_t) (v : ptr)
          (lp : list ptr).
Hypothesis Hs : safe s.
Hypothesis Hc : class_entry s i = Some c.
Hypothesis Ha : heap s !! labels c = Some (BPtrs lp).
Hypothesis Hj : lp !! j = Some NULL.
Hypothesis Hv : is_string s v.
Hypothesis Hun : unreferenced s v.

Let a := labels c.
Let s' := put_ptr a j v s.

Lemma put_ptr_not_lst : a <> openafs_class_lst s.
Proof. destruct (safe_lst s Hs) as (l & Hl & _). unfold a. congruence. Qed.

Lemma put_ptr_not_null : a <> NULL.
Proof. intros Hn. unfold a in Hn. rewrite Hn, safe_null in Ha; congruence. Qed.

Lemma put_ptr_heap x : x <> a -> heap s' !! x = heap s !! x.
Proof. intros Hx. simpl. now rewrite lookup_insert_ne. Qed.

Lemma put_ptr_array : heap s' !! a = Some (BPtrs (<[j := v]> lp)).
Proof. simpl. rewrite lookup_insert_eq. unfold ptrs_at, a. now rewrite Ha. Qed.

Lemma put_ptr_entry k : class_entry s' k = class_entry s k.
Proof.
  unfold class_entry. simpl. pose proof put_ptr_not_lst.
  now rewrite lookup_insert_ne.
Qed.

Lemma put_ptr_string p : is_string s p -> is_string s' p.
Proof.
  intros [str Hp]. exists str. rewrite put_ptr_heap; [auto|].
  unfold a. congruence.
Qed.

Lemma put_ptr_block x b :
  heap s !! x = Some b -> (forall l, b <> BPtrs l) -> heap s' !! x = Some b.
Proof.
  intros Hx Hb. rewrite put_ptr_heap; [auto|]. intros ->. unfold a in Hx.
  rewrite Ha in Hx. injection Hx as <-. now apply (Hb lp).
Qed.

Lemma put_ptr_slot l :
  slot_val s' l =
  if decide (l = Label i j) then Some v else slot_val s l.
Proof.
  pose proof put_ptr_not_null as Hnn.
  destruct l as [k|k m]; cbn [slot_val]; rewrite put_ptr_entry.
  - rewrite decide_False by discriminate. reflexivity.
  - destruct (class_entry s k) as [ck|] eqn:Hk.
    + destruct (decide (labels ck = a)) as [Heq|Hne].
      * assert (k = i) as ->
            by (apply (safe_labels_inj s Hs k i ck c Hk Hc Heq); congruence).
        unfold ptrs_at at 1. rewrite Heq, put_ptr_array.
        destruct (decide (m = j)) as [->|Hm].
        -- rewrite decide_True by reflexivity.
           apply list_lookup_insert_eq. now apply lookup_lt_Some in Hj.
        -- rewrite decide_False by congruence.
           rewrite list_lookup_insert_ne by congruence.
           unfold ptrs_at. assert (ck = c) as -> by congruence.
           fold a. unfold a. now rewrite Ha.
      * rewrite decide_False.
        -- unfold ptrs_at. now rewrite put_ptr_heap.
        -- intros Heq. injection Heq as -> ->. apply Hne.
           unfold a. congruence.
    + rewrite decide_False; [reflexivity|].
      intros Heq. injection Heq as -> ->. congruence.
Qed.

Lemma put_ptr_safe : safe s'.
Proof.
  destruct (safe_lst s Hs) as (l & Hl & Hlen).
  apply (safe_build s s' (Some (Label i j, v))); auto.
  - simpl; lia.
  - intros x b Hx. simpl in *. destruct (decide (x = a)) as [->|Hn].
    + exact (safe_heap s Hs _ _ Ha).
    + rewrite lookup_insert_ne in Hx by congruence.
      exact (safe_heap s Hs _ _ Hx).
  - intros x m Hx. exact (safe_maps s Hs _ _ Hx).
  - exists l. split; [|auto]. change (heap s' !! openafs_class_lst s = Some (BClasses l)).
    rewrite put_ptr_heap; [auto|]. apply not_eq_sym, put_ptr_not_lst.
  - intros k ck Hk Hn. rewrite put_ptr_entry in Hk.
    destruct (safe_labels s Hs k ck Hk Hn) as (lq & Hlq & Hlen').
    destruct (decide (labels ck = a)) as [Heq|Hne].
    + rewrite Heq, put_ptr_array. eexists; split; [reflexivity|].
      rewrite length_insert. unfold a in Heq. rewrite Heq, Ha in Hlq.
      congruence.
    + exists lq. now rewrite put_ptr_heap.
  - intros k k' ck ck'. rewrite !put_ptr_entry. apply (safe_labels_inj s Hs).
  - apply put_ptr_string.
  - intros sl p [Hl' Hp]. rewrite put_ptr_slot in Hl'.
    destruct (decide (sl = Label i j)) as [->|Hn].
    + right. split; congruence.
    + left. now split.
  - split; [now apply put_ptr_string | apply Hun].
Qed.

Lemma put_ptr_extends s0 :
  extends s0 s -> brk s0 <= a -> extends s0 s'.
Proof.
  intros [] Hle. split; auto.
  intros x Hx Hne. rewrite put_ptr_heap by lia. auto.
Qed.
End put_ptr.

(** Strings are never modified while the registry is built. *)
Definition strings_kept (s s' : state) : Prop :=
  forall x str, heap s !! x = Some (BString str) ->
                heap s' !! x = Some (BString str).

Lemma extends_block s s' x b :
  safe s -> extends s s' -> heap s !! x = Some b ->
  (forall l, b <> BClasses l) -> heap s' !! x = Some b.
Proof.
  intros Hs He Hx Hb. rewrite (ext_heap s s' He); auto.
  - apply (safe_heap s Hs) in Hx. lia.
  - destruct (safe_lst s Hs) as (l & Hl & _). intros ->.
    rewrite Hl in Hx. injection Hx as <-. now apply (Hb l).
Qed.

Lemma extends_strings s s' : safe s -> extends s s' -> strings_kept s s'.
Proof. intros Hs He x str Hx. now apply (extends_block s). Qed.

Lemma extends_maps s s' a m :
  safe s -> extends s s' -> maps s !! a = Some m -> maps s' !! a = Some m.
Proof.
  intros Hs He Ha. rewrite (ext_maps s s' He); auto.
  apply (safe_maps s Hs) in Ha. lia.
Qed.

(** [cf_util_get_string(child, &a_class->labels[j])] on a slot that is
    still null. *)
Lemma get_label_spec e child i j c lp s s0 :
  safe s -> class_entry s i = Some c ->
  heap s !! labels c = Some (BPtrs lp) -> lp !! j = Some NULL ->
  extends s0 s -> brk s0 <= labels c ->
  exists st s',
    cf_util_get_string e child (Label i j) s = Ok st s' /\
    safe s' /\ extends s0 s' /\
    (forall k, class_entry s' k = class_entry s k) /\
    shm_log s' = shm_log s /\ maps s' = maps s /\ strings_kept s s' /\
    ((st = 0 /\ exists p lab,
         values child = [OCONFIG_TYPE_STRING lab] /\
         heap s' !! labels c = Some (BPtrs (<[j := p]> lp)) /\
         heap s' !! p = Some (BString lab)) \/
     (st = -1 /\ heap s' !! labels c = Some (BPtrs lp))) /\
    ((forall k, alloc_fails e k = false) ->
     (exists lab, values child = [OCONFIG_TYPE_STRING lab]) -> st = 0).
Proof.
  intros Hs Hc Ha Hj He0 Hle. unfold cf_util_get_string.
  destruct (values child) as [|[lab| |] [|]] eqn:Hv;
    try (exists (-1), s; split; [reflexivity|];
         do 5 (split; [auto|]); split; [now intros x str|];
         split; [right; auto|]; intros _ [lab' Hlab']; discriminate).
  destruct (alloc_spec e false (BString lab) s Hs)
    as (p & s1 & Halloc & Hs1 & He1 & Hent1 & Hlog1 & Hmaps1 & _ & Hp & Hok).
  unfold strdup. rewrite (bind_Ok _ _ _ _ _ Halloc).
  assert (heap s1 !! labels c = Some (BPtrs lp)) as Ha1.
  { apply (extends_block s); auto; discriminate. }
  destruct (p =? NULL) eqn:Hpn.
  - apply Z.eqb_eq in Hpn. exists (-1), s1. split; [reflexivity|].
    split; [auto|]. split; [now apply (extends_trans s0 s)|].
    do 3 (split; [auto|]). split; [now apply extends_strings|].
    split; [right; auto|].
    intros Hnf _. exfalso. simpl in Hok. rewrite Hnf in Hok. now apply Hok.
  - apply Z.eqb_neq in Hpn. destruct (Hp Hpn) as (Hps & Hun & _).
    assert (load_slot (Label i j) s1 = Ok NULL s1) as Hload.
    { unfold load_slot. erewrite bind_Ok; [|rewrite load_class_eq, Hent1, Hc; reflexivity].
      rewrite load_ptr_eq, Ha1, Hj. reflexivity. }
    rewrite (bind_Ok _ _ _ _ _ Hload).
    assert (free NULL s1 = Ok tt s1) as Hfree by reflexivity.
    rewrite (bind_Ok _ _ _ _ _ Hfree).
    assert (store_slot (Label i j) p s1 = Ok tt (put_ptr (labels c) j p s1))
      as Hstore.
    { unfold store_slot. erewrite bind_Ok; [|rewrite load_class_eq, Hent1, Hc; reflexivity].
      now apply (store_ptr_eq _ _ _ _ lp NULL). }
    rewrite (bind_Ok _ _ _ _ _ Hstore).
    rewrite <- Hent1 in Hc.
    assert (is_string s1 p) as Hstr by (now exists lab).
    exists 0, (put_ptr (labels c) j p s1). split; [reflexivity|].
    split; [eapply put_ptr_safe; eauto|].
    split.
    { eapply put_ptr_extends; eauto. now apply (extends_trans s0 s). }
    split.
    { intros k. rewrite <- Hent1. eapply put_ptr_entry; eauto. }
    split; [auto|]. split; [auto|]. split.
    { intros x str Hx. eapply put_ptr_block; eauto; try discriminate.
      now apply (extends_strings s s1). }
    split; [|reflexivity].
    left. split; [reflexivity|]. exists p, lab. split; [reflexivity|].
    split; [eapply put_ptr_array; eauto|].
    eapply put_ptr_block; eauto; discriminate.
Qed.

(** ** What a successful construction leaves behind *)

(** Element [j] of a label array, for the child [j] of the class block. *)
Definition label_built (s : state) (lp : list ptr) (j : nat)
    (child : oconfig_item_t) : Prop :=
  if strcasecmp "Counter" (key child) =? 0
  then exists p lab,
         lp !! j = Some p /\ heap s !! p = Some (BString lab) /\
         values child = [OCONFIG_TYPE_STRING lab]
  else lp !! j = Some NULL.

(** A child that cannot make label extraction fail by itself. *)
Definition counter_ok (child : oconfig_item_t) : bool :=
  if strcasecmp "Counter" (key child) =? 0
  then match values child with
       | [OCONFIG_TYPE_STRING _] => true
       | _ => false
       end
  else true.

Lemma for_status_nonzero body k from st s :
  st <> 0 -> for_status body from k st s = Ok st s.
Proof.
  intros Hst. destruct k; simpl; [reflexivity|].
  apply Z.eqb_neq in Hst. now rewrite Hst.
Qed.

Lemma strings_kept_trans s1 s2 s3 :
  strings_kept s1 s2 -> strings_kept s2 s3 -> strings_kept s1 s3.
Proof. intros H1 H2 x str Hx. auto. Qed.

Lemma label_built_kept s s' lp lp' j child :
  strings_kept s s' -> lp' !! j = lp !! j ->
  label_built s lp j child -> label_built s' lp' j child.
Proof.
  unfold label_built. intros Hk Hj. destruct (_ =? 0).
  - intros (p & lab & H1 & H2 & H3). exists p, lab. rewrite Hj. auto.
  - now rewrite Hj.
Qed.

Lemma label_loop_spec e item i c s0 :
  forall k from lp s,
    (from + k = children_num item)%nat ->
    safe s -> class_entry s i = Some c ->
    heap s !! labels c = Some (BPtrs lp) ->
    length lp = children_num item ->
    (forall j, (from <= j < children_num item)%nat -> lp !! j = Some NULL) ->
    (forall j child, (j < from)%nat -> children item !! j = Some child ->
                     label_built s lp j child) ->
    extends s0 s -> brk s0 <= labels c ->
    exists st s',
      for_status (fun j =>
                    match children item !! j with
                    | Some child =>
                        if strcasecmp "Counter" (key child) =? 0
                        then cf_util_get_string e child (Label i j)
                        else mret 0
                    | None => fault
                    end) from k 0 s = Ok st s' /\
      safe s' /\ extends s0 s' /\
      (forall x, class_entry s' x = class_entry s x) /\
      shm_log s' = shm_log s /\ maps s' = maps s /\ strings_kept s s' /\
      (st = 0 \/ st = -1) /\
      (st = 0 ->
       exists lp', heap s' !! labels c = Some (BPtrs lp') /\
                   length lp' = children_num item /\
                   forall j child, children item !! j = Some child ->
                                   label_built s' lp' j child) /\
      ((forall n, alloc_fails e n = false) ->
       forallb counter_ok (drop from (children item)) = true -> st = 0).
Proof.
  induction k as [|k IH]; intros from lp s Hfk Hs Hc Ha Hlen Hnull Hdone He0 Hle.
  - exists 0, s. split; [reflexivity|]. do 5 (split; [auto|]).
    split; [now intros x str|]. split; [now left|]. split; [|reflexivity].
    intros _. exists lp. do 2 (split; [auto|]).
    intros j child Hj. apply Hdone; [|auto].
    apply lookup_lt_Some in Hj. unfold children_num in Hfk. lia.
  - assert (from < length (children item))%nat as Hlt
        by (unfold children_num in Hfk; lia).
    destruct (lookup_lt_is_Some_2 _ _ Hlt) as [child Hchild].
    rewrite (drop_S _ _ _ Hchild). cbn [for_status forallb].
    change (0 =? 0) with true. cbv iota.
    destruct (strcasecmp "Counter" (key child) =? 0) eqn:Hkey.
    + destruct (get_label_spec e child i from c lp s s0)
        as (st1 & s1 & Hrun & Hs1 & He1 & Hent1 & Hlog1 & Hmaps1 & Hkept1
            & Hres & Hnf); auto;
        try (apply Hnull; unfold children_num; lia).
      erewrite bind_Ok; [|rewrite Hchild, Hkey; exact Hrun].
      destruct Hres as [(-> & p & lab & Hv & Harr & Hp)|(-> & Harr)].
      * destruct (IH (S from) (<[from := p]> lp) s1)
          as (st & s' & Hrun' & Hs' & He' & Hent' & Hlog' & Hmaps' & Hkept'
              & Hst & Hbuilt & Hnf'); auto; try lia.
        { now rewrite Hent1. }
        { now rewrite length_insert. }
        { intros j Hj. rewrite list_lookup_insert_ne by lia.
          apply Hnull. lia. }
        { intros j child' Hj Hchild'.
          destruct (decide (j = from)) as [->|Hne].
          - assert (child' = child) as -> by congruence.
            unfold label_built. rewrite Hkey. exists p, lab.
            split; [|auto]. apply list_lookup_insert_eq. lia.
          - apply (label_built_kept s s1 lp); auto.
            + now apply list_lookup_insert_ne.
            + apply Hdone; [lia | auto]. }
        exists st, s'. split; [exact Hrun'|]. do 2 (split; [auto|]).
        split; [intros; now rewrite Hent', Hent1|].
        split; [congruence|]. split; [congruence|].
        split; [now apply (strings_kept_trans s s1)|].
        split; [auto|]. split; [auto|].
        intros Hall Hok. apply andb_prop in Hok. apply Hnf'; tauto.
      * exists (-1), s1. split; [now apply for_status_nonzero|].
        do 6 (split; [auto|]). split; [now right|].
        split; [discriminate|].
        intros Hall Hok. apply andb_prop in Hok. destruct Hok as [Hok _].
        unfold counter_ok in Hok. rewrite Hkey in Hok.
        apply Hnf; [auto|].
        destruct (values child) as [|[lab| |] [|]]; try discriminate. eauto.
    + erewrite bind_Ok; [|rewrite Hchild, Hkey; reflexivity].
      destruct (IH (S from) lp s)
        as (st & s' & Hrun' & Hs' & He' & Hent' & Hlog' & Hmaps' & Hkept'
            & Hst & Hbuilt & Hnf'); auto; try lia.
      { intros j Hj. apply Hnull. lia. }
      { intros j child' Hj Hchild'.
        destruct (decide (j = from)) as [->|Hne].
        - assert (child' = child) as -> by congruence.
          unfold label_built. rewrite Hkey. apply Hnull.
          unfold children_num. lia.
        - apply Hdone; [lia | auto]. }
      exists st, s'. split; [exact Hrun'|]. do 8 (split; [auto|]).
      intros Hall Hok. apply andb_prop in Hok. apply Hnf'; tauto.
Qed.

Lemma substring_all n s : (String.length s <= n)%nat -> substring 0 n s = s.
Proof.
  revert n; induction s as [|ch s IH]; intros [|n] Hn; simpl in *;
    try reflexivity; try lia.
  f_equal. apply IH. lia.
Qed.

Lemma lowest_free_ge f fuel n : n <= lowest_free f n fuel.
Proof.
  revert n; induction fuel as [|fuel IH]; intros n; simpl; [lia|].
  destruct (f !! n); [|lia]. specialize (IH (n + 1)). lia.
Qed.

Lemma shm_open_spec e name s :
  safe s ->
  exists d s',
    shm_open e name s = Ok d s' /\ safe s' /\ extends s s' /\
    same_memory s s' /\
    shm_log s' = (shm_log s ++ [name])%list /\
    match shm_objects e name with
    | Some _ => 0 <= d /\ fds s' !! d = Some (ShmObject name)
    | None => d = -1
    end.
Proof.
  intros Hs. unfold shm_open. destruct (shm_objects e name) as [ws|].
  - eexists; eexists; split; [reflexivity|].
    assert (same_memory s
              (set_fds (<[lowest_free (fds s) 0 (size (fds s)) := ShmObject name]>
                          (fds s)) (set_shm_log (shm_log s ++ [name]) s)))
      as Hm by (repeat split).
    split; [now apply (safe_same_memory s)|].
    split; [now apply extends_same_memory|].
    split; [exact Hm|]. split; [reflexivity|].
    split; [apply lowest_free_ge | simpl; apply lookup_insert_eq].
  - eexists; eexists; split; [reflexivity|].
    assert (same_memory s (set_shm_log (shm_log s ++ [name]) s)) as Hm
        by (repeat split).
    split; [now apply (safe_same_memory s)|].
    split; [now apply extends_same_memory|]. auto.
Qed.

Lemma mmap_spec e len d name s :
  safe s -> fds s !! d = Some (ShmObject name) ->
  exists m s',
    mmap e len d s = Ok m s' /\ safe s' /\ extends s s' /\
    (forall i, class_entry s' i = class_entry s i) /\
    heap s' = heap s /\ shm_log s' = shm_log s /\ m <> NULL /\
    if Nat.eqb len 0 || mmap_refused e name len
    then m = MAP_FAILED
    else maps s' !! m = Some (name, len).
Proof.
  intros Hs Hd. unfold mmap. rewrite Hd.
  destruct (Nat.eqb len 0 || mmap_refused e name len).
  - exists MAP_FAILED, s. split; [reflexivity|].
    split; [auto|]. split; [apply extends_refl|]. repeat split; auto.
  - eexists; eexists; split; [reflexivity|].
    set (s' := set_brk _ _). pose proof (safe_brk s Hs) as Hb.
    assert (forall i, class_entry s' i = class_entry s i) as He by reflexivity.
    assert (forall l, slot_val s' l = slot_val s l) as Hsv by (now intros []).
    split.
    { apply (safe_build s s' None).
      - exact Hs.
      - simpl; lia.
      - intros a b Ha. apply (safe_heap s Hs) in Ha. simpl. lia.
      - intros a m Ha. simpl in *.
        destruct (decide (a = brk s)) as [->|Hn]; [lia|].
        rewrite lookup_insert_ne in Ha by congruence.
        apply (safe_maps s Hs) in Ha. lia.
      - apply (safe_lst s Hs).
      - apply (safe_labels s Hs).
      - apply (safe_labels_inj s Hs).
      - intros p Hp. exact Hp.
      - intros l p Hl. now left.
      - exact I. }
    split.
    { split; simpl; auto; try lia.
      intros a Ha. rewrite lookup_insert_ne; [auto | lia]. }
    repeat split; auto.
    + unfold NULL. lia.
    + simpl. apply lookup_insert_eq.
Qed.

(** Storing a member that no invariant depends on. *)
Lemma store_class_keep i f s c :
  safe s -> class_entry s i = Some c ->
  class (f c) = class c -> labels (f c) = labels c ->
  (labels c = NULL \/ n_counters (f c) = n_counters c) ->
  store_class i f s = Ok tt (put_class i (f c) s) /\
  safe (put_class i (f c) s) /\ extends s (put_class i (f c) s) /\
  class_entry (put_class i (f c) s) i = Some (f c) /\
  (forall j, j <> i ->
     class_entry (put_class i (f c) s) j = class_entry s j).
Proof.
  intros Hs Hc H1 H2 H3. split; [now apply store_class_eq|].
  split; [now apply (put_class_safe_keep s i c)|].
  split; [apply put_class_extends|].
  split.
  - rewrite (put_class_entry s i c) by auto. now rewrite decide_True.
  - intros j Hj. rewrite (put_class_entry s i c) by auto.
    now rewrite decide_False.
Qed.

Lemma put_class_entries s i c c' :
  class_entry s i = Some c ->
  class_entry (put_class i c' s) i = Some c' /\
  (forall j, j <> i -> class_entry (put_class i c' s) j = class_entry s j).
Proof.
  intros Hc. split.
  - rewrite (put_class_entry s i c) by auto. now rewrite decide_True.
  - intros j Hj. rewrite (put_class_entry s i c) by auto.
    now rewrite decide_False.
Qed.

(** The view a class has of its counters: a live mapping of the first
    [n_counters * sizeof(unsigned int)] bytes of its object, or, where
    [mmap] failed, the value [MAP_FAILED]. *)
Definition counters_built (e : env) (s : state) (name : string)
    (c : openafs_class_t) : Prop :=
  let len := (n_counters c * sizeof_unsigned_int)%nat in
  if Nat.eqb len 0 || mmap_refused e ("/" +:+ name) len
  then counters c = MAP_FAILED
  else maps s !! counters c = Some ("/" +:+ name, len).

(** What [_openafs_add_stats] establishes when it returns 0. *)
Definition stats_built (e : env) (s : state) (item : oconfig_item_t)
    (name : string) (c : openafs_class_t) : Prop :=
  (strlen name <= 254)%nat /\
  is_Some (shm_objects e ("/" +:+ name)) /\
  heap s !! class c = Some (BString name) /\
  n_counters c = children_num item /\
  counters_built e s name c /\
  exists lp,
    heap s !! labels c = Some (BPtrs lp) /\
    length lp = children_num item /\
    forall j child, children item !! j = Some child ->
                    label_built s lp j child.

(** The configurations of a class on which [_openafs_add_stats] cannot
    fail, allocation failures apart. *)
Definition stats_ok (e : env) (item : oconfig_item_t) (name : string) : bool :=
  (strlen name <=? 254)%nat &&
  bool_decide (is_Some (shm_objects e ("/" +:+ name))) &&
  negb (Nat.eqb (children_num item) 0 && calloc0_null e) &&
  forallb counter_ok (children item).

Lemma load_string_eq p s str :
  heap s !! p = Some (BString str) -> load_string p s = Ok str s.
Proof. intros H. unfold load_string. now rewrite H. Qed.

Lemma load_class_Ok i s c : class_entry s i = Some c -> load_class i s = Ok c s.
Proof. intros H. now rewrite load_class_eq, H. Qed.

Lemma add_stats_long e item i s c name :
  class_entry s i = Some c -> heap s !! class c = Some (BString name) ->
  (254 < strlen name)%nat ->
  _openafs_add_stats e item i s = Ok (-1) s.
Proof.
  intros Hc Hn Hlen. unfold _openafs_add_stats.
  rewrite (bind_Ok _ _ _ _ _ (load_class_Ok _ _ _ Hc)).
  rewrite (bind_Ok _ _ _ _ _ (load_string_eq _ _ _ Hn)).
  assert ((OPENAFS_STR_MAX_LEN <? strlen name + 2)%nat = true) as ->.
  { apply Nat.ltb_lt. unfold OPENAFS_STR_MAX_LEN. lia. }
  reflexivity.
Qed.

Lemma segment_buffer name :
  (strlen name <= 254)%nat ->
  snprintf OPENAFS_STR_MAX_LEN ("/" +:+ name) = "/" +:+ name.
Proof.
  intros H. unfold snprintf. apply substring_all.
  change ("/" +:+ name) with (String "/" name). simpl.
  unfold strlen, OPENAFS_STR_MAX_LEN in *. lia.
Qed.

(** [_openafs_add_stats] on an entry that holds nothing but its name, for
    a name that fits the buffer. *)
Lemma add_stats_spec e item i s p name :
  safe s -> class_entry s i = Some (set_class p zero_class) ->
  heap s !! p = Some (BString name) -> (strlen name <= 254)%nat ->
  exists st s',
    _openafs_add_stats e item i s = Ok st s' /\
    safe s' /\ extends s s' /\
    (forall j, j <> i -> class_entry s' j = class_entry s j) /\
    shm_log s' = (shm_log s ++ ["/" +:+ name])%list /\
    (st = 0 \/ st = -1) /\
    (st = 0 -> exists c, class_entry s' i = Some c /\
                         stats_built e s' item name c) /\
    ((forall n, alloc_fails e n = false) ->
     stats_ok e item name = true -> st = 0).
Proof.
  intros Hs Hc Hp Hlen. unfold _openafs_add_stats.
  set (n := children_num item).
  set (c0 := set_class p zero_class) in *.
  rewrite (bind_Ok _ _ _ _ _ (load_class_Ok _ _ _ Hc)).
  rewrite (bind_Ok _ _ _ _ _ (load_string_eq _ _ _ Hp)).
  assert ((OPENAFS_STR_MAX_LEN <? strlen name + 2)%nat = false) as ->.
  { apply Nat.ltb_ge. unfold OPENAFS_STR_MAX_LEN. lia. }
  rewrite (segment_buffer name Hlen).
  (* shm_open *)
  destruct (shm_open_spec e ("/" +:+ name) s Hs)
    as (d & s1 & Hopen & Hs1 & He1 & Hm1 & Hlog1 & Hd).
  rewrite (bind_Ok _ _ _ _ _ Hopen).
  assert (class_entry s1 i = Some c0) as Hc1
      by (now rewrite (same_memory_entry s s1)).
  (* a_class->fd *)
  destruct (store_class_keep i (set_fd d) s1 c0 Hs1 Hc1)
    as (Hst2 & Hs2 & He2 & Hc2 & Ho2); auto.
  set (c2 := set_fd d c0) in *. set (s2 := put_class i c2 s1) in *.
  rewrite (bind_Ok _ _ _ _ _ Hst2).
  assert (extends s s2) as Hes2 by (now apply (extends_trans s s1)).
  assert (forall j, j <> i -> class_entry s2 j = class_entry s j) as Hos2.
  { intros j Hj. rewrite Ho2 by auto. now apply same_memory_entry. }
  destruct (shm_objects e ("/" +:+ name)) as [ws|] eqn:Hobj.
  2: { subst d. change (-1 <? 0) with true. cbv iota.
       exists (-1), s2. split; [reflexivity|]. do 4 (split; [auto|]).
       split; [now right|]. split; [discriminate|].
       intros _ Hok. unfold stats_ok in Hok. rewrite Hobj in Hok.
       rewrite bool_decide_eq_false_2 in Hok by (intros [? ?]; discriminate).
       rewrite andb_false_r in Hok. discriminate. }
  destruct Hd as [Hd0 Hfd].
  assert ((d <? 0) = false) as -> by (apply Z.ltb_ge; lia).
  (* a_class->n_counters *)
  destruct (store_class_keep i (set_n_counters n) s2 c2 Hs2 Hc2)
    as (Hst3 & Hs3 & He3 & Hc3 & Ho3); auto.
  set (c3 := set_n_counters n c2) in *. set (s3 := put_class i c3 s2) in *.
  rewrite (bind_Ok _ _ _ _ _ Hst3).
  (* mmap *)
  destruct (mmap_spec e (n * sizeof_unsigned_int) d ("/" +:+ name) s3 Hs3 Hfd)
    as (m & s4 & Hmap & Hs4 & He4 & Hent4 & Hheap4 & Hlog4 & Hm0 & Hmres).
  rewrite (bind_Ok _ _ _ _ _ Hmap).
  assert (class_entry s4 i = Some c3) as Hc4 by (now rewrite Hent4).
  (* a_class->counters *)
  destruct (store_class_keep i (set_counters m) s4 c3 Hs4 Hc4)
    as (Hst5 & Hs5 & He5 & Hc5 & Ho5); auto.
  set (c5 := set_counters m c3) in *. set (s5 := put_class i c5 s4) in *.
  rewrite (bind_Ok _ _ _ _ _ Hst5).
  assert (extends s s5) as Hes5.
  { apply (extends_trans s s2); [auto|]. apply (extends_trans s2 s3); [auto|].
    now apply (extends_trans s3 s4). }
  (* calloc *)
  destruct (alloc_spec e (Nat.eqb n 0) (BPtrs (replicate n NULL)) s5 Hs5)
    as (l & s6 & Halloc & Hs6 & He6 & Hent6 & Hlog6 & Hmaps6 & Hfds6 & Hl & Hlok).
  unfold calloc_ptrs. fold n. rewrite (bind_Ok _ _ _ _ _ Halloc).
  assert (class_entry s6 i = Some c5) as Hc6 by (now rewrite Hent6).
  (* a_class->labels *)
  set (c7 := set_labels l c5). set (s7 := put_class i c7 s6).
  assert (store_class i (set_labels l) s6 = Ok tt s7) as Hst7
      by (now apply store_class_eq).
  rewrite (bind_Ok _ _ _ _ _ Hst7).
  assert (safe s7) as Hs7.
  { apply (put_class_safe_labels s6 i c5); auto.
    destruct (decide (l = NULL)) as [?|Hln]; [now left|right].
    destruct (Hl Hln) as (? & ? & ?). now split. }
  destruct (put_class_entries s6 i c5 c7 Hc6) as [Hc7 Ho7]. fold s7 in Hc7, Ho7.
  assert (extends s s7) as Hes7.
  { apply (extends_trans s s5); [auto|]. apply (extends_trans s5 s6); [auto|].
    now apply put_class_extends. }
  assert (forall j, j <> i -> class_entry s7 j = class_entry s j) as Hos7.
  { intros j Hj. rewrite Ho7, Hent6, Ho5, Hent4, Ho3 by auto. auto. }
  assert (shm_log s7 = (shm_log s ++ ["/" +:+ name])%list) as Hlog7.
  { change (shm_log s7) with (shm_log s6). rewrite Hlog6.
    change (shm_log s5) with (shm_log s4). rewrite Hlog4. exact Hlog1. }
  assert ((m =? NULL) = false) as -> by (now apply Z.eqb_neq).
  rewrite orb_false_l.
  destruct (l =? NULL) eqn:Hln.
  { apply Z.eqb_eq in Hln. exists (-1), s7. split; [reflexivity|].
    do 4 (split; [auto|]). split; [now right|]. split; [discriminate|].
    intros Hnf Hok. exfalso. apply Hlok; [|exact Hln].
    unfold stats_ok in Hok. fold n in Hok.
    rewrite Hnf, orb_false_r.
    destruct (Nat.eqb n 0 && calloc0_null e); [|reflexivity].
    rewrite andb_false_r in Hok. discriminate. }
  apply Z.eqb_neq in Hln. destruct (Hl Hln) as (Hlp & Hlun & Hlbrk).
  assert (heap s7 !! labels c7 = Some (BPtrs (replicate n NULL))) as Harr.
  { apply (put_class_block s6); auto; discriminate. }
  (* the labels *)
  assert (length (replicate n NULL) = children_num item) as Hrl
      by apply length_replicate.
  assert (forall j, (0 <= j < children_num item)%nat ->
                    replicate n NULL !! j = Some NULL) as Hrn.
  { intros j Hj. apply lookup_replicate. split; [reflexivity|]. fold n in Hj. lia. }
  assert (forall j child, (j < 0)%nat -> children item !! j = Some child ->
                          label_built s7 (replicate n NULL) j child) as Hr0.
  { intros j child Hj. lia. }
  assert (brk s <= labels c7) as Hbrk.
  { change (labels c7) with l. rewrite Hlbrk. apply (ext_brk s s5 Hes5). }
  destruct (label_loop_spec e item i c7 s n 0%nat (replicate n NULL) s7
              eq_refl Hs7 Hc7 Harr Hrl Hrn Hr0 Hes7 Hbrk)
    as (st & s8 & Hrun & Hs8 & He8 & Hent8 & Hlog8 & Hmaps8 & Hkept8
        & Hst & Hbuilt & Hnf8).
  exists st, s8. split; [exact Hrun|]. do 2 (split; [auto|]).
  split; [intros j Hj; now rewrite Hent8, Hos7|].
  split; [congruence|]. split; [auto|]. split.
  - intros Hst0. destruct (Hbuilt Hst0) as (lp' & Hlp' & Hlen' & Hall).
    exists c7. split; [now rewrite Hent8|].
    split; [auto|]. split; [now rewrite Hobj|]. split.
    { apply Hkept8. apply (extends_block s); auto; discriminate. }
    split; [reflexivity|]. split; [|eauto].
    unfold counters_built. change (n_counters c7) with n.
    change (counters c7) with m.
    destruct (Nat.eqb _ 0 || mmap_refused _ _ _); [auto|].
    rewrite Hmaps8. change (maps s7) with (maps s6). rewrite Hmaps6. exact Hmres.
  - intros Hnf Hok. apply Hnf8; [auto|].
    unfold stats_ok in Hok. apply andb_prop in Hok. apply Hok.
Qed.

(** The entry of a top-level item once it has been processed with
    status 0: a class block has its name, view and labels; any other item
    leaves its entry as [calloc] made it. *)
Definition built (e : env) (s : state) (item : oconfig_item_t)
    (c : openafs_class_t) : Prop :=
  if strcasecmp "Class" (key item) =? 0
  then exists name, values item = [OCONFIG_TYPE_STRING name] /\
                    stats_built e s item name c
  else c = zero_class.

(** The top-level items on which construction cannot fail, allocation
    failures apart. *)
Definition item_ok (e : env) (item : oconfig_item_t) : bool :=
  if strcasecmp "Class" (key item) =? 0
  then match values item with
       | [OCONFIG_TYPE_STRING name] => stats_ok e item name
       | _ => false
       end
  else true.

Lemma process_class_spec e item i s :
  safe s -> class_entry s i = Some zero_class ->
  exists st s',
    _openafs_process_class e item i s = Ok st s' /\
    safe s' /\ extends s s' /\
    (forall j, j <> i -> class_entry s' j = class_entry s j) /\
    (st = 0 \/ st = -1) /\
    (st = 0 -> exists c, class_entry s' i = Some c /\ built e s' item c) /\
    ((forall n, alloc_fails e n = false) -> item_ok e item = true -> st = 0) /\
    (forall name,
        (strcasecmp "Class" (key item) =? 0) = true ->
        values item = [OCONFIG_TYPE_STRING name] ->
        if (254 <? strlen name)%nat
        then st = -1 /\ shm_log s' = shm_log s
        else alloc_fails e (allocs s) = false ->
             shm_log s' = (shm_log s ++ ["/" +:+ name])%list).
Proof.
  intros Hs Hc. unfold _openafs_process_class, built, item_ok.
  destruct (strcasecmp "Class" (key item) =? 0) eqn:Hkey.
  2: { exists 0, s. split; [reflexivity|]. split; [auto|].
       split; [apply extends_refl|]. split; [auto|]. split; [now left|].
       split; [eauto|]. split; [auto|]. discriminate. }
  unfold cf_util_get_string.
  destruct (values item) as [|[name| |] [|]] eqn:Hv;
    try (exists (-1), s; split; [reflexivity|]; split; [auto|];
         split; [apply extends_refl|]; split; [auto|]; split; [now right|];
         split; [discriminate|]; split; [discriminate|];
         intros name' _ Hn; discriminate).
  destruct (alloc_spec e false (BString name) s Hs)
    as (p & s1 & Halloc & Hs1 & He1 & Hent1 & Hlog1 & Hmaps1 & Hfds1 & Hp & Hok).
  unfold strdup.
  unfold mbind at 1, M_bind. rewrite (bind_Ok _ _ _ _ _ Halloc).
  destruct (p =? NULL) eqn:Hpn.
  { apply Z.eqb_eq in Hpn. exists (-1), s1. split; [reflexivity|].
    do 2 (split; [auto|]). split; [intros; now rewrite Hent1|].
    split; [now right|]. split; [discriminate|]. split.
    - intros Hnf _. exfalso. simpl in Hok. rewrite Hnf in Hok. now apply Hok.
    - intros name' _ Hn. injection Hn as <-.
      destruct (254 <? strlen name)%nat; [auto|].
      intros Hnf. exfalso. simpl in Hok. now apply Hok. }
  apply Z.eqb_neq in Hpn. destruct (Hp Hpn) as (Hps & Hun & _).
  assert (class_entry s1 i = Some zero_class) as Hc1 by (now rewrite Hent1).
  assert (load_slot (ClassName i) s1 = Ok NULL s1) as Hload.
  { unfold load_slot. now rewrite (bind_Ok _ _ _ _ _ (load_class_Ok _ _ _ Hc1)). }
  rewrite (bind_Ok _ _ _ _ _ Hload).
  assert (free NULL s1 = Ok tt s1) as Hfree by reflexivity.
  rewrite (bind_Ok _ _ _ _ _ Hfree).
  set (c2 := set_class p zero_class). set (s2 := put_class i c2 s1).
  assert (store_slot (ClassName i) p s1 = Ok tt s2) as Hstore
      by (now apply store_class_eq).
  rewrite (bind_Ok _ _ _ _ _ Hstore).
  unfold mret, M_ret. change (0 =? 0) with true. cbv iota beta.
  assert (safe s2) as Hs2.
  { apply (put_class_safe_name s1 i zero_class); auto. now exists name. }
  destruct (put_class_entries s1 i zero_class c2 Hc1) as [Hc2 Ho2].
  fold s2 in Hc2, Ho2.
  assert (extends s s2) as He2.
  { apply (extends_trans s s1); [auto|]. now apply put_class_extends. }
  assert (heap s2 !! p = Some (BString name)) as Hp2.
  { apply (put_class_block s1); auto; discriminate. }
  destruct (254 <? strlen name)%nat eqn:Hlong.
  - apply Nat.ltb_lt in Hlong.
    rewrite (add_stats_long e item i s2 c2 name Hc2 Hp2 Hlong).
    exists (-1), s2. split; [reflexivity|]. do 2 (split; [auto|]).
    split; [intros j Hj; now rewrite Ho2, Hent1|].
    split; [now right|]. split; [discriminate|]. split.
    + intros _ Hok'. unfold stats_ok in Hok'.
      assert ((strlen name <=? 254)%nat = false) as Hf
          by (apply Nat.leb_gt; lia).
      rewrite Hf in Hok'. discriminate.
    + intros name' _ Hn. injection Hn as <-.
      apply Nat.ltb_lt in Hlong. rewrite Hlong. auto.
  - apply Nat.ltb_ge in Hlong.
    destruct (add_stats_spec e item i s2 p name Hs2 Hc2 Hp2 Hlong)
      as (st & s3 & Hrun & Hs3 & He3 & Ho3 & Hlog3 & Hst & Hbuilt & Hnf).
    rewrite Hrun. exists st, s3. split; [reflexivity|]. split; [auto|].
    split; [now apply (extends_trans s s2)|].
    split; [intros j Hj; now rewrite Ho3, Ho2, Hent1|].
    split; [auto|]. split.
    + intros Hst0. destruct (Hbuilt Hst0) as (c & Hc3 & Hb). eauto.
    + split; [auto|]. intros name' _ Hn. injection Hn as <-.
      apply Nat.ltb_ge in Hlong. rewrite Hlong. intros _.
      rewrite Hlog3. now rewrite <- Hlog1.
Qed.

Lemma built_extends e s s' item c :
  safe s -> extends s s' -> built e s item c -> built e s' item c.
Proof.
  intros Hs He. unfold built. destruct (_ =? 0); [|auto].
  intros (name & Hv & Hlen & Hobj & Hname & Hn & Hcnt & lp & Hlp & Hll & Hall).
  exists name. split; [auto|]. split; [auto|]. split; [auto|].
  split; [apply (extends_block s); auto; discriminate|].
  split; [auto|]. split.
  - unfold counters_built in *. destruct (_ || _); [auto|].
    now apply (extends_maps s).
  - exists lp. split; [apply (extends_block s); auto; discriminate|].
    split; [auto|]. intros j child Hj.
    apply (label_built_kept s s' lp); auto. now apply extends_strings.
Qed.

(** The loop of [openafs_config], from its [from]-th iteration on. *)
Lemma config_loop_spec e cfg :
  forall k from s,
    (from + k = children_num cfg)%nat ->
    safe s ->
    (forall j, (from <= j < children_num cfg)%nat ->
               class_entry s j = Some zero_class) ->
    (forall j item, (j < from)%nat -> children cfg !! j = Some item ->
                    exists c, class_entry s j = Some c /\ built e s item c) ->
    exists st s',
      for_status (fun i =>
                    match children cfg !! i with
                    | Some child => _openafs_process_class e child i
                    | None => fault
                    end) from k 0 s = Ok st s' /\
      safe s' /\ extends s s' /\ (st = 0 \/ st = -1) /\
      (st = 0 ->
       forall j item, children cfg !! j = Some item ->
                      exists c, class_entry s' j = Some c /\ built e s' item c) /\
      ((forall n, alloc_fails e n = false) ->
       forallb (item_ok e) (drop from (children cfg)) = true -> st = 0).
Proof.
  induction k as [|k IH]; intros from s Hfk Hs Hzero Hdone.
  - exists 0, s. split; [reflexivity|]. split; [auto|].
    split; [apply extends_refl|]. split; [now left|]. split; [|reflexivity].
    intros _ j item Hj. apply Hdone; [|auto].
    apply lookup_lt_Some in Hj. unfold children_num in Hfk. lia.
  - assert (from < length (children cfg))%nat as Hlt
        by (unfold children_num in Hfk; lia).
    destruct (lookup_lt_is_Some_2 _ _ Hlt) as [item Hitem].
    rewrite (drop_S _ _ _ Hitem). cbn [for_status forallb].
    change (0 =? 0) with true. cbv iota.
    assert (class_entry s from = Some zero_class) as Hc
        by (apply Hzero; unfold children_num; lia).
    destruct (process_class_spec e item from s Hs Hc)
      as (st1 & s1 & Hrun & Hs1 & He1 & Ho1 & Hst1 & Hb1 & Hnf1 & _).
    erewrite bind_Ok; [|rewrite Hitem; exact Hrun].
    destruct Hst1 as [->| ->].
    + assert (forall j, (S from <= j < children_num cfg)%nat ->
                        class_entry s1 j = Some zero_class) as Hzero1.
      { intros j Hj. rewrite Ho1 by lia. apply Hzero. lia. }
      assert (forall j item', (j < S from)%nat ->
                children cfg !! j = Some item' ->
                exists c, class_entry s1 j = Some c /\ built e s1 item' c)
        as Hdone1.
      { intros j item' Hj Hitem'. destruct (decide (j = from)) as [->|Hne].
        - assert (item' = item) as -> by congruence. now apply Hb1.
        - destruct (Hdone j item') as (c & Hcj & Hbj); [lia | auto |].
          exists c. rewrite Ho1 by auto. split; [auto|].
          now apply (built_extends e s). }
      assert (S from + k = children_num cfg)%nat as Hfk1 by lia.
      destruct (IH (S from) s1 Hfk1 Hs1 Hzero1 Hdone1)
        as (st & s' & Hrun' & Hs' & He' & Hst & Hb & Hnf).
      exists st, s'. split; [exact Hrun'|]. split; [auto|].
      split; [now apply (extends_trans s s1)|]. split; [auto|].
      split; [auto|].
      intros Hall Hok. apply andb_prop in Hok. apply Hnf; tauto.
    + exists (-1), s1. split; [now apply for_status_nonzero|].
      do 2 (split; [auto|]). split; [now right|]. split; [discriminate|].
      intros Hall Hok. apply andb_prop in Hok. apply Hnf1; tauto.
Qed.

(** ** States in which the plugin may be configured

    Nothing is required of the plugin's own globals: addresses below [brk]
    may be in use by the rest of the process, those from [brk] on are not. *)
Definition startup (s : state) : Prop :=
  0 < brk s /\
  (forall a b, heap s !! a = Some b -> 0 < a < brk s) /\
  (forall a m, maps s !! a = Some m -> 0 < a < brk s).

Lemma startup_initial : startup initial_state.
Proof.
  split; [reflexivity|]. split; intros a b H; simpl in H;
    rewrite lookup_empty in H; discriminate.
Qed.

(** ** Teardown

    While [openafs_destroy] runs, the strings of the slots it has already
    been through are gone; those of the others are still live. *)

Record dsafe (done : string_slot -> Prop) (s : state) : Prop := mk_dsafe {
  d_lst : exists l, heap s !! openafs_class_lst s = Some (BClasses l) /\
                    length l = openafs_class_lst_len s;
  d_labels : forall i c, class_entry s i = Some c -> labels c <> NULL ->
      exists lp, heap s !! labels c = Some (BPtrs lp) /\
                 length lp = n_counters c;
  d_slots : forall l p, ~ done l -> slot_val s l = Some p -> p <> NULL ->
                        is_string s p;
  d_inj : forall l l' p,
      slot_val s l = Some p -> slot_val s l' = Some p -> p <> NULL -> l = l'
}.

Lemma safe_dsafe s : safe s -> dsafe (fun _ => False) s.
Proof.
  intros []. split; auto. intros l p _. apply safe_slots0.
Qed.

Lemma dsafe_weaken (done done' : string_slot -> Prop) s :
  (forall l, done l -> done' l) -> dsafe done s -> dsafe done' s.
Proof. intros H []. split; auto. intros l p Hl. apply d_slots0. auto. Qed.

(** Steps that leave the heap alone: [munmap] and [close]. *)
Lemma dsafe_same_heap done s s' :
  heap s' = heap s -> openafs_class_lst s' = openafs_class_lst s ->
  openafs_class_lst_len s' = openafs_class_lst_len s ->
  dsafe done s ->
  dsafe done s' /\ forall i, class_entry s' i = class_entry s i.
Proof.
  intros Hh Hl Hn [].
  assert (forall i, class_entry s' i = class_entry s i) as He.
  { intros i. unfold class_entry. now rewrite Hh, Hl. }
  assert (forall l, slot_val s' l = slot_val s l) as Hsv.
  { intros [i|i j]; simpl; rewrite He; [reflexivity|].
    unfold ptrs_at. now rewrite Hh. }
  split; [|exact He].
  split; unfold is_string; try setoid_rewrite He; try setoid_rewrite Hsv;
    rewrite ?Hh, ?Hl, ?Hn; auto.
Qed.

Lemma munmap_heap addr len s :
  exists r s', munmap addr len s = Ok r s' /\ heap s' = heap s /\
               openafs_class_lst s' = openafs_class_lst s /\
               openafs_class_lst_len s' = openafs_class_lst_len s /\
               fds s' = fds s /\ dispatched s' = dispatched s.
Proof.
  unfold munmap. destruct (maps s !! addr) as [[name len']|].
  - destruct (Nat.eqb len len'); eexists; eexists; split; try reflexivity; auto.
  - eexists; eexists; split; try reflexivity; auto.
Qed.

Lemma close_heap d s :
  exists r s', close d s = Ok r s' /\ heap s' = heap s /\
               openafs_class_lst s' = openafs_class_lst s /\
               openafs_class_lst_len s' = openafs_class_lst_len s /\
               maps s' = maps s /\ dispatched s' = dispatched s.
Proof.
  unfold close. destruct (fds s !! d);
    eexists; eexists; split; try reflexivity; auto.
Qed.

(** Freeing what a slot that has not been through yet holds. *)
Lemma free_slot done s l p :
  dsafe done s -> slot_val s l = Some p -> ~ done l ->
  exists s',
    free p s = Ok tt s' /\
    dsafe (fun x => done x \/ x = l) s' /\
    (forall i, class_entry s' i = class_entry s i) /\
    (forall a lp, heap s !! a = Some (BPtrs lp) ->
                  heap s' !! a = Some (BPtrs lp)) /\
    openafs_class_lst s' = openafs_class_lst s /\
    openafs_class_lst_len s' = openafs_class_lst_len s.
Proof.
  intros Hd Hl Hnd. unfold free. destruct (p =? NULL) eqn:Hp.
  { exists s. split; [reflexivity|]. split; [|auto].
    apply (dsafe_weaken done); auto. }
  apply Z.eqb_neq in Hp.
  destruct (d_slots done s Hd l p Hnd Hl Hp) as [str Hstr]. rewrite Hstr.
  eexists; split; [reflexivity|]. set (s' := set_heap _ s).
  destruct (d_lst done s Hd) as (cl & Hcl & Hlen).
  assert (forall a b, heap s !! a = Some b -> (forall x, b <> BString x) ->
                      heap s' !! a = Some b) as Hkeep.
  { intros a b Ha Hb. simpl. rewrite lookup_delete_ne; [auto|].
    intros Heq; subst a. rewrite Hstr in Ha. injection Ha as <-.
    now apply (Hb str). }
  assert (forall i, class_entry s' i = class_entry s i) as He.
  { intros i. unfold class_entry.
    change (openafs_class_lst s') with (openafs_class_lst s).
    rewrite (Hkeep _ _ Hcl), Hcl; [reflexivity | discriminate]. }
  assert (forall a, ptrs_at s' a = ptrs_at s a) as Hpa.
  { intros a. unfold ptrs_at. destruct (decide (a = p)) as [->|Hne].
    - simpl. now rewrite lookup_delete_eq, Hstr.
    - simpl. now rewrite lookup_delete_ne. }
  assert (forall x, slot_val s' x = slot_val s x) as Hsv.
  { intros [i|i j]; simpl; rewrite He; [reflexivity|].
    destruct (class_entry s i); [apply (f_equal (fun y => y !! j)), Hpa | auto]. }
  split; [|split; [exact He|split; [|auto]]].
  - split.
    + exists cl. split; [|auto]. apply Hkeep; [auto | discriminate].
    + intros i c Hc Hn. rewrite He in Hc.
      destruct (d_labels done s Hd i c Hc Hn) as (lp & Hlp & Hll).
      exists lp. split; [|auto]. apply Hkeep; [auto | discriminate].
    + intros x q Hx Hq Hqn. rewrite Hsv in Hq.
      assert (~ done x) as Hndx by tauto.
      destruct (d_slots done s Hd x q Hndx Hq Hqn) as [str' Hstr'].
      exists str'. simpl. rewrite lookup_delete_ne; [auto|].
      intros Heq; subst q. apply Hx. right.
      exact (d_inj done s Hd x l p Hq Hl Hp).
    + intros x x' q. rewrite !Hsv. apply (d_inj done s Hd).
  - intros a lp Ha. apply Hkeep; [auto | discriminate].
Qed.

Definition slot_idx (l : string_slot) : nat :=
  match l with ClassName i => i | Label i _ => i end.

(** The slots of the classes before [i]. *)
Definition done_upto (i : nat) : string_slot -> Prop :=
  fun l => (slot_idx l < i)%nat.

(** Those, the name of class [i] and its labels before [j]. *)
Definition done_in (i j : nat) : string_slot -> Prop :=
  fun l => (slot_idx l < i)%nat \/ l = ClassName i \/
           exists j', (j' < j)%nat /\ l = Label i j'.

Lemma release_loop i c lp :
  forall k from s,
    (from + k = n_counters c)%nat ->
    dsafe (done_in i from) s -> class_entry s i = Some c ->
    heap s !! labels c = Some (BPtrs lp) -> length lp = n_counters c ->
    exists s',
      for_each (fun j => p ← load_ptr (labels c) j; free p) from k s
        = Ok tt s' /\
      dsafe (done_in i (from + k)) s' /\
      (forall x, class_entry s' x = class_entry s x) /\
      openafs_class_lst s' = openafs_class_lst s /\
      openafs_class_lst_len s' = openafs_class_lst_len s.
Proof.
  induction k as [|k IH]; intros from s Hfk Hd Hc Ha Hlen.
  - exists s. split; [reflexivity|]. rewrite Nat.add_0_r. auto.
  - assert (from < length lp)%nat as Hlt by lia.
    destruct (lookup_lt_is_Some_2 _ _ Hlt) as [p Hp].
    cbn [for_each].
    assert (load_ptr (labels c) from s = Ok p s) as Hload
        by (now rewrite load_ptr_eq, Ha, Hp).
    assert (slot_val s (Label i from) = Some p) as Hsv.
    { simpl. rewrite Hc. unfold ptrs_at. now rewrite Ha. }
    assert (~ done_in i from (Label i from)) as Hnd.
    { intros [H|[H|(j' & H1 & H2)]].
      - simpl in H. lia.
      - discriminate.
      - injection H2 as ->. lia. }
    destruct (free_slot _ s _ p Hd Hsv Hnd)
      as (s1 & Hfree & Hd1 & He1 & Hk1 & Hl1 & Hn1).
    erewrite bind_Ok; [|erewrite bind_Ok; [exact Hfree | exact Hload]].
    assert (dsafe (done_in i (S from)) s1) as Hd1'.
    { refine (dsafe_weaken _ _ s1 _ Hd1).
      intros l [[H|[H|(j' & H1 & H2)]]|H]; unfold done_in; auto.
      - right; right. exists j'. split; [lia | auto].
      - right; right. exists from. split; [lia | auto]. }
    assert (S from + k = n_counters c)%nat as Hfk1 by lia.
    assert (class_entry s1 i = Some c) as Hc1 by (now rewrite He1).
    destruct (IH (S from) s1 Hfk1 Hd1' Hc1 (Hk1 _ _ Ha) Hlen)
      as (s' & Hrun & Hd' & He' & Hl' & Hn').
    exists s'. split; [exact Hrun|].
    replace (from + S k)%nat with (S from + k)%nat by lia.
    split; [auto|]. split; [intros; now rewrite He', He1|].
    split; congruence.
Qed.

Lemma release_labels_spec i c s :
  dsafe (done_in i 0) s -> class_entry s i = Some c ->
  exists s',
    _openafs_release_labels i s = Ok tt s' /\
    dsafe (done_upto (S i)) s' /\
    openafs_class_lst s' = openafs_class_lst s /\
    openafs_class_lst_len s' = openafs_class_lst_len s.
Proof.
  intros Hd Hc. unfold _openafs_release_labels.
  rewrite (bind_Ok _ _ _ _ _ (load_class_Ok _ _ _ Hc)).
  assert (forall j l, done_in i j l -> done_upto (S i) l) as Hw.
  { intros j l [H|[->|(j' & _ & ->)]]; unfold done_upto; simpl; lia. }
  destruct (labels c =? NULL) eqn:Hn.
  - exists s. split; [reflexivity|]. split; [|auto].
    apply (dsafe_weaken (done_in i 0)); auto. apply Hw.
  - apply Z.eqb_neq in Hn.
    destruct (d_labels _ s Hd i c Hc Hn) as (lp & Hlp & Hlen).
    destruct (release_loop i c lp (n_counters c) 0%nat s eq_refl Hd Hc Hlp Hlen)
      as (s' & Hrun & Hd' & _ & Hl' & Hn').
    exists s'. split; [exact Hrun|]. split; [|auto].
    apply (dsafe_weaken (done_in i (0 + n_counters c))); auto. apply Hw.
Qed.

(** The loop of [openafs_destroy], from its [from]-th iteration on. *)
Lemma destroy_loop_spec :
  forall k from s,
    (from + k = openafs_class_lst_len s)%nat ->
    dsafe (done_upto from) s ->
    exists s',
      for_each (fun i =>
                  classp ← load_class i;
                  munmap (counters classp)
                         (n_counters classp * sizeof_unsigned_int);;
                  close (fd classp);;
                  free (class classp);;
                  _openafs_release_labels i) from k s = Ok tt s' /\
      dsafe (done_upto (from + k)) s' /\
      openafs_class_lst s' = openafs_class_lst s.
Proof.
  induction k as [|k IH]; intros from s Hfk Hd.
  - exists s. split; [reflexivity|]. rewrite Nat.add_0_r. auto.
  - destruct (d_lst _ s Hd) as (l & Hl & Hlen).
    assert (from < length l)%nat as Hlt by lia.
    destruct (lookup_lt_is_Some_2 _ _ Hlt) as [c Hc0].
    assert (class_entry s from = Some c) as Hc
        by (unfold class_entry; now rewrite Hl).
    cbn [for_each].
    destruct (munmap_heap (counters c) (n_counters c * sizeof_unsigned_int) s)
      as (r1 & s1 & Hrun1 & Hh1 & Hl1 & Hn1 & _).
    destruct (dsafe_same_heap _ s s1 Hh1 Hl1 Hn1 Hd) as [Hd1 He1].
    destruct (close_heap (fd c) s1) as (r2 & s2 & Hrun2 & Hh2 & Hl2 & Hn2 & _).
    destruct (dsafe_same_heap _ s1 s2 Hh2 Hl2 Hn2 Hd1) as [Hd2 He2].
    assert (slot_val s2 (ClassName from) = Some (class c)) as Hsv.
    { simpl. now rewrite He2, He1, Hc. }
    assert (~ done_upto from (ClassName from)) as Hnd
        by (unfold done_upto; simpl; lia).
    destruct (free_slot _ s2 _ _ Hd2 Hsv Hnd)
      as (s3 & Hrun3 & Hd3 & He3 & _ & Hl3 & Hn3).
    assert (dsafe (done_in from 0) s3) as Hd3'.
    { refine (dsafe_weaken _ _ s3 _ Hd3).
      intros x [H| ->]; unfold done_in; auto. }
    assert (class_entry s3 from = Some c) as Hc3
        by (now rewrite He3, He2, He1).
    destruct (release_labels_spec from c s3 Hd3' Hc3)
      as (s4 & Hrun4 & Hd4 & Hl4 & Hn4).
    assert (S from + k = openafs_class_lst_len s4)%nat as Hfk4
        by (rewrite Hn4, Hn3, Hn2, Hn1; lia).
    destruct (IH (S from) s4 Hfk4 Hd4) as (s' & Hrun & Hd' & Hl').
    exists s'. split.
    + erewrite bind_Ok; [exact Hrun|].
      rewrite (bind_Ok _ _ _ _ _ (load_class_Ok _ _ _ Hc)).
      rewrite (bind_Ok _ _ _ _ _ Hrun1), (bind_Ok _ _ _ _ _ Hrun2).
      rewrite (bind_Ok _ _ _ _ _ Hrun3). exact Hrun4.
    + replace (from + S k)%nat with (S from + k)%nat by lia.
      split; [auto | congruence].
Qed.

(** [openafs_destroy] runs to completion on every well-formed state. *)
Lemma destroy_spec s :
  safe s -> exists s', openafs_destroy s = Ok 0 s'.
Proof.
  intros Hs. unfold openafs_destroy.
  assert (dsafe (done_upto 0) s) as Hd.
  { apply (dsafe_weaken (fun _ => False)); [tauto | now apply safe_dsafe]. }
  destruct (destroy_loop_spec (openafs_class_lst_len s) 0%nat s eq_refl Hd)
    as (s1 & Hrun & Hd1 & Hl1).
  erewrite bind_Ok; [|reflexivity].
  rewrite (bind_Ok _ _ _ _ _ Hrun).
  destruct (d_lst _ s1 Hd1) as (l & Hl & _). rewrite Hl1 in Hl.
  unfold mbind, M_bind, free. rewrite Hl.
  destruct (_ =? NULL); eexists; reflexivity.
Qed.

(** ** The configuration callback as a whole *)

(** The state right after a class list of [n] zeroed entries has been
    allocated and recorded in the globals. *)
Definition with_class_lst (n : nat) (s : state) : state :=
  set_class_lst_len n
    (set_class_lst (brk s)
       (set_brk (brk s + 1)
          (set_heap (<[brk s := BClasses (replicate n zero_class)]> (heap s))
             (set_allocs (S (allocs s)) s)))).

Lemma with_class_lst_entry n s j :
  class_entry (with_class_lst n s) j =
  if decide (j < n)%nat then Some zero_class else None.
Proof.
  unfold class_entry. simpl. rewrite lookup_insert_eq.
  destruct (decide (j < n)%nat) as [H|H].
  - now apply lookup_replicate.
  - apply lookup_ge_None. rewrite length_replicate. lia.
Qed.

Lemma with_class_lst_safe n s : startup s -> safe (with_class_lst n s).
Proof.
  intros (Hb & Hh & Hm).
  assert (heap s !! NULL = None) as Hnull.
  { destruct (heap s !! NULL) eqn:H; [|reflexivity].
    apply Hh in H. unfold NULL in H. lia. }
  assert (forall j c, class_entry (with_class_lst n s) j = Some c ->
                      c = zero_class) as Hz.
  { intros j c. rewrite with_class_lst_entry. destruct (decide _); congruence. }
  assert (forall l p, slot_val (with_class_lst n s) l = Some p -> p = NULL)
    as Hsv.
  { intros [j|j k] p; simpl;
      destruct (class_entry (with_class_lst n s) j) as [c|] eqn:Hc;
      try discriminate; apply Hz in Hc; subst c.
    - now intros [= <-].
    - unfold ptrs_at. simpl. rewrite lookup_insert_ne by (unfold NULL; lia).
      change (heap s !! 0) with (heap s !! NULL). rewrite Hnull.
      now rewrite lookup_nil. }
  split.
  - simpl; lia.
  - intros a b Ha. simpl in *. destruct (decide (a = brk s)) as [->|Hne]; [lia|].
    rewrite lookup_insert_ne in Ha by congruence. apply Hh in Ha. lia.
  - intros a m Ha. simpl in *. apply Hm in Ha. lia.
  - simpl. rewrite lookup_insert_eq. eexists; split; [reflexivity|].
    apply length_replicate.
  - intros j c Hc Hn. apply Hz in Hc. now subst c.
  - intros j j' c c' Hc _ _ Hn. apply Hz in Hc. now subst c.
  - intros l p Hl Hp. now apply Hsv in Hl.
  - intros l l' p Hl _ Hp. now apply Hsv in Hl.
Qed.

Lemma config_spec e cfg s :
  startup s ->
  exists st s',
    openafs_config e cfg s = Ok st s' /\ (st = 0 \/ st = -1) /\
    (st = 0 ->
     safe s' /\ openafs_class_lst_len s' = children_num cfg /\
     dispatched s' = dispatched s /\
     forall j item, children cfg !! j = Some item ->
                    exists c, class_entry s' j = Some c /\ built e s' item c) /\
    ((forall n, alloc_fails e n = false) ->
     (children_num cfg = 0%nat -> calloc0_null e = false) ->
     forallb (item_ok e) (children cfg) = true -> st = 0).
Proof.
  intros Hst. unfold openafs_config, calloc_classes, assign.
  set (n := children_num cfg).
  unfold mbind at 1, M_bind, alloc.
  destruct ((Nat.eqb n 0 && calloc0_null e) || alloc_fails e (allocs s)) eqn:Hf.
  { eexists; eexists; split; [reflexivity|]. split; [now right|].
    split; [discriminate|]. intros Hnf Hz _. exfalso.
    rewrite Hnf, orb_false_r in Hf. apply andb_prop in Hf as [Hn0 Hc0].
    apply Nat.eqb_eq in Hn0. rewrite (Hz Hn0) in Hc0. discriminate. }
  destruct Hst as [Hb Hst'].
  unfold mbind at 1, M_bind.
  assert ((brk s =? NULL) = false) as -> by (apply Z.eqb_neq; unfold NULL; lia).
  unfold mbind at 1, M_bind.
  change (set_class_lst_len n (set_class_lst (brk s) _))
    with (with_class_lst n s).
  pose proof (with_class_lst_safe n s (conj Hb Hst')) as Hs1.
  assert (forall j, (0 <= j < children_num cfg)%nat ->
            class_entry (with_class_lst n s) j = Some zero_class) as Hzero.
  { intros j Hj. rewrite with_class_lst_entry. fold n in Hj.
    rewrite decide_True by lia. reflexivity. }
  assert (forall j item, (j < 0)%nat -> children cfg !! j = Some item ->
            exists c, class_entry (with_class_lst n s) j = Some c /\
                      built e (with_class_lst n s) item c) as Hdone.
  { intros j item Hj. lia. }
  destruct (config_loop_spec e cfg n 0%nat (with_class_lst n s)
              eq_refl Hs1 Hzero Hdone)
    as (st & s2 & Hrun & Hs2 & He2 & Hst2 & Hb2 & Hnf2).
  rewrite (bind_Ok _ _ _ _ _ Hrun).
  destruct Hst2 as [-> | ->].
  - exists 0, s2. split; [reflexivity|]. split; [now left|]. split.
    + intros _. split; [auto|]. split; [now rewrite (ext_len _ _ He2)|].
      split; [now rewrite (ext_disp _ _ He2)|]. now apply Hb2.
    + reflexivity.
  - destruct (destroy_spec s2 Hs2) as (s3 & Hd).
    exists (-1), s3. split.
    + change (-1 =? 0) with false. cbv iota.
      now rewrite (bind_Ok _ _ _ _ _ Hd).
    + split; [now right|]. split; [discriminate|].
      intros Hnf _ Hok. now apply Hnf2.
Qed.

(** A class block whose object cannot be opened makes the whole
    configuration fail, and the callback still returns. *)
Lemma missing_segment_is_config_error e cfg s0 j item name :
  startup s0 -> children cfg !! j = Some item ->
  strcasecmp "Class" (key item) = 0 ->
  values item = [OCONFIG_TYPE_STRING name] ->
  shm_objects e ("/" +:+ name) = None ->
  exists s, openafs_config e cfg s0 = Ok (-1) s.
Proof.
  intros Hst Hj Hkey Hv Hobj. apply Z.eqb_eq in Hkey.
  destruct (config_spec e cfg s0 Hst) as (st & s & Hrun & [-> | ->] & Hok & _).
  - exfalso. destruct (Hok eq_refl) as (_ & _ & _ & Hbuilt).
    destruct (Hbuilt j item Hj) as (c & _ & Hb). unfold built in Hb.
    rewrite Hkey in Hb. destruct Hb as (name' & Hv' & _ & Hsome & _).
    rewrite Hv in Hv'. injection Hv' as <-. rewrite Hobj in Hsome.
    now destruct Hsome.
  - eauto.
Qed.

(** ** Sampling *)

Lemma substring_substring a b s :
  substring 0 a (substring 0 b s) = substring 0 (Nat.min a b) s.
Proof.
  revert a b; induction s as [|ch s IH]; intros [|a] [|b]; simpl;
    try reflexivity.
  now rewrite IH.
Qed.

(** The name a sample gets: class and label joined by an underscore, as
    much of it as fits both the 256-byte buffer and the [type] field. *)
Definition metric_name (e : env) (cls label : string) : string :=
  substring 0 (Nat.min (DATA_MAX_NAME_LEN e - 1) 255)
            (cls +:+ "_" +:+ label).

Lemma metric_name_code e cls label :
  sstrncpy (DATA_MAX_NAME_LEN e)
           (snprintf OPENAFS_STR_MAX_LEN (cls +:+ "_" +:+ label))
  = metric_name e cls label.
Proof. unfold sstrncpy, snprintf. apply substring_substring. Qed.

Lemma metric_name_short e cls label :
  (String.length (cls +:+ "_" +:+ label) < DATA_MAX_NAME_LEN e)%nat ->
  (String.length (cls +:+ "_" +:+ label) < OPENAFS_STR_MAX_LEN)%nat ->
  metric_name e cls label = cls +:+ "_" +:+ label.
Proof.
  intros H1 H2. unfold metric_name. apply substring_all.
  unfold OPENAFS_STR_MAX_LEN in H2. lia.
Qed.

(** The samples one pass is to emit for a top-level item: none for an item
    that is not a class block; for a class block, one per child, in order,
    the [i]-th carrying the plugin tag, the [i]-th word of the class's
    object, and the name made of the class name and the child's label. *)
Definition class_samples (tag : string) (e : env) (item : oconfig_item_t)
    (l : list value_list_t) : Prop :=
  if strcasecmp "Class" (key item) =? 0
  then exists name,
      values item = [OCONFIG_TYPE_STRING name] /\
      length l = children_num item /\
      forall i child, children item !! i = Some child ->
        exists label words w,
          values child = [OCONFIG_TYPE_STRING label] /\
          shm_objects e ("/" +:+ name) = Some words /\
          words !! i = Some w /\
          l !! i = Some (mk_vl tag (metric_name e name label) [w])
  else l = [].

(** The tag as the code writes it into the [plugin] field. *)
Definition plugin_tag (e : env) : string :=
  sstrncpy (DATA_MAX_NAME_LEN e) "openafs".

Lemma plugin_tag_fits e :
  (8 <= DATA_MAX_NAME_LEN e)%nat -> plugin_tag e = "openafs".
Proof. intros H. unfold plugin_tag, sstrncpy. apply substring_all. simpl. lia. Qed.

(** The class blocks a pass can read: every child is a counter, the view
    was mapped when the class was constructed in [e], and the object holds
    a word for every child when the pass runs in [e']. *)
Definition sampling_ready (e e' : env) (item : oconfig_item_t) : bool :=
  if strcasecmp "Class" (key item) =? 0
  then match values item with
       | [OCONFIG_TYPE_STRING name] =>
           let n := children_num item in
           forallb (fun child => strcasecmp "Counter" (key child) =? 0)
                   (children item) &&
           (Nat.eqb n 0 ||
            (negb (mmap_refused e ("/" +:+ name) (n * sizeof_unsigned_int)) &&
             match shm_objects e' ("/" +:+ name) with
             | Some words => (n <=? length words)%nat
             | None => false
             end))
       | _ => false
       end
  else true.

Lemma same_memory_refl s : same_memory s s.
Proof. repeat split. Qed.

Lemma same_memory_trans s1 s2 s3 :
  same_memory s1 s2 -> same_memory s2 s3 -> same_memory s1 s3.
Proof.
  intros (A1 & A2 & A3 & A4 & A5) (B1 & B2 & B3 & B4 & B5).
  repeat split; congruence.
Qed.

(** The loop of [_openafs_export_class], from its [from]-th iteration on. *)
Lemma export_loop_spec e' item c name lp s0 :
  values item = [OCONFIG_TYPE_STRING name] ->
  heap s0 !! class c = Some (BString name) ->
  heap s0 !! labels c = Some (BPtrs lp) ->
  (forall j child, children item !! j = Some child ->
                   label_built s0 lp j child) ->
  maps s0 !! counters c =
    Some ("/" +:+ name, (children_num item * sizeof_unsigned_int)%nat) ->
  forallb (fun child => strcasecmp "Counter" (key child) =? 0)
          (children item) = true ->
  forall words, shm_objects e' ("/" +:+ name) = Some words ->
  (children_num item <= length words)%nat ->
  forall k from s,
    (from + k = children_num item)%nat -> same_memory s0 s ->
    exists s' l,
      for_each (fun i =>
                  name ← load_string (class c);
                  lp ← load_ptr (labels c) i;
                  label ← load_string lp;
                  let buffer :=
                    snprintf OPENAFS_STR_MAX_LEN (name +:+ "_" +:+ label) in
                  let type := sstrncpy (DATA_MAX_NAME_LEN e') buffer in
                  counter ← atomic_load e' (counters c) i;
                  plugin_dispatch_values e'
                    (mk_vl (sstrncpy (DATA_MAX_NAME_LEN e') "openafs")
                           type [counter]);;
                  mret tt) from k s = Ok tt s' /\
      same_memory s0 s' /\
      dispatched s' = (dispatched s ++ l)%list /\
      length l = k /\
      forall i child, children item !! (from + i)%nat = Some child ->
        exists label w,
          values child = [OCONFIG_TYPE_STRING label] /\
          words !! (from + i)%nat = Some w /\
          l !! i = Some (mk_vl (plugin_tag e') (metric_name e' name label) [w]).
Proof.
  intros Hv Hname Hlp Hlab Hmap Hall words Hobj Hwords.
  induction k as [|k IH]; intros from s Hfk Hm.
  - exists s, []. split; [reflexivity|]. split; [auto|].
    split; [now rewrite app_nil_r|]. split; [reflexivity|].
    intros i child Hc. apply lookup_lt_Some in Hc.
    unfold children_num in Hfk. lia.
  - assert (from < length (children item))%nat as Hlt
        by (unfold children_num in Hfk; lia).
    destruct (lookup_lt_is_Some_2 _ _ Hlt) as [child Hchild].
    pose proof (Hlab _ _ Hchild) as Hb. unfold label_built in Hb.
    assert ((strcasecmp "Counter" (key child) =? 0) = true) as Hkey.
    { rewrite forallb_forall in Hall. apply Hall.
      apply list_elem_of_In. eapply list_elem_of_lookup_2. exact Hchild. }
    rewrite Hkey in Hb. destruct Hb as (p & lab & Hp & Hps & Hcv).
    assert (from < length words)%nat as Hltw
        by (unfold children_num in *; lia).
    destruct (lookup_lt_is_Some_2 _ _ Hltw) as [w Hw].
    destruct Hm as (Hh & Hbk & Hmp & Hl & Hn).
    set (vl := mk_vl (plugin_tag e') (metric_name e' name lab) [w]).
    set (s1 := set_dispatched (dispatched s ++ [vl]) s).
    assert (same_memory s0 s1) as Hm1 by (repeat split; auto).
    assert (S from + k = children_num item)%nat as Hfk1 by lia.
    destruct (IH (S from) s1 Hfk1 Hm1) as (s' & l & Hrun & Hm' & Hd' & Hl' & Hall').
    exists s', (vl :: l). split.
    + cbn [for_each]. erewrite bind_Ok; [exact Hrun|].
      erewrite bind_Ok; [|apply load_string_eq; rewrite Hh; exact Hname].
      erewrite bind_Ok; [|rewrite load_ptr_eq, Hh, Hlp, Hp; reflexivity].
      erewrite bind_Ok; [|apply load_string_eq; rewrite Hh; exact Hps].
      rewrite metric_name_code. fold (plugin_tag e').
      assert (atomic_load e' (counters c) from s = Ok w s) as Hload.
      { unfold atomic_load, word_at. rewrite Hmp, Hmap, Hobj, Hw.
        assert ((sizeof_unsigned_int * S from <=?
                 children_num item * sizeof_unsigned_int)%nat = true) as ->
            by (apply Nat.leb_le; unfold sizeof_unsigned_int; lia).
        reflexivity. }
      rewrite (bind_Ok _ _ _ _ _ Hload). reflexivity.
    + split; [auto|]. split.
      { rewrite Hd'. simpl. now rewrite <- app_assoc. }
      split; [simpl; lia|].
      intros [|i] child' Hc'.
      * rewrite Nat.add_0_r in *. assert (child' = child) as -> by congruence.
        exists lab, w. auto.
      * replace (from + S i)%nat with (S from + i)%nat in * by lia.
        now apply Hall'.
Qed.

Lemma built_same_memory e s s' item c :
  same_memory s s' -> built e s item c -> built e s' item c.
Proof.
  intros (Hh & _ & Hm & _).
  unfold built, stats_built, counters_built, label_built.
  now rewrite Hh, Hm.
Qed.

Lemma export_class_spec e e' item i c s :
  class_entry s i = Some c -> built e s item c ->
  sampling_ready e e' item = true ->
  exists s' l,
    _openafs_export_class e' i s = Ok tt s' /\
    same_memory s s' /\
    dispatched s' = (dispatched s ++ l)%list /\
    class_samples (plugin_tag e') e' item l.
Proof.
  intros Hc Hb Hr.
  unfold _openafs_export_class, built, sampling_ready, class_samples in *.
  rewrite (bind_Ok _ _ _ _ _ (load_class_Ok _ _ _ Hc)).
  destruct (strcasecmp "Class" (key item) =? 0).
  2: { subst c. exists s, []. split; [reflexivity|].
       split; [apply same_memory_refl|]. now rewrite app_nil_r. }
  destruct Hb as (name & Hv & _ & _ & Hname & Hn & Hcnt & lp & Hlp & Hll & Hall).
  rewrite Hv in Hr. apply andb_prop in Hr as [Hkeys Hr].
  rewrite Hn. destruct (children_num item) as [|n] eqn:Hnum.
  { exists s, []. split; [reflexivity|]. split; [apply same_memory_refl|].
    split; [now rewrite app_nil_r|]. exists name. do 2 (split; [auto|]).
    intros i' child Hch. apply lookup_lt_Some in Hch.
    unfold children_num in Hnum. lia. }
  change (Nat.eqb (S n) 0) with false in Hr. cbn [orb] in Hr.
  apply andb_prop in Hr as [Href Hobj].
  destruct (shm_objects e' ("/" +:+ name)) as [words|] eqn:Hwords;
    [|discriminate].
  apply Nat.leb_le in Hobj.
  unfold counters_built in Hcnt. rewrite Hn in Hcnt.
  apply negb_true_iff in Href. rewrite Href in Hcnt.
  change (Nat.eqb (S n * sizeof_unsigned_int) 0) with false in Hcnt.
  cbn [orb] in Hcnt. rewrite <- Hnum in Hcnt, Hobj.
  assert (0 + S n = children_num item)%nat as Hfk by lia.
  destruct (export_loop_spec e' item c name lp s Hv Hname Hlp Hall Hcnt Hkeys
              words Hwords Hobj (S n) 0%nat s Hfk (same_memory_refl s))
    as (s' & l & Hrun & Hm & Hd & Hl & Hsamples).
  exists s', l. split; [exact Hrun|]. do 2 (split; [auto|]).
  exists name. split; [auto|]. split; [lia|].
  intros i' child Hch. destruct (Hsamples i' child Hch) as (lab & w & ? & ? & ?).
  exists lab, words, w. auto.
Qed.

(** The loop of [openafs_read], from its [from]-th iteration on. *)
Lemma read_loop_spec e e' cfg s0 :
  (forall j item, children cfg !! j = Some item ->
                  exists c, class_entry s0 j = Some c /\ built e s0 item c) ->
  forallb (sampling_ready e e') (children cfg) = true ->
  forall k from s,
    (from + k = children_num cfg)%nat -> same_memory s0 s ->
    exists s' ls,
      for_each (_openafs_export_class e') from k s = Ok tt s' /\
      same_memory s0 s' /\
      Forall2 (class_samples (plugin_tag e') e') (drop from (children cfg)) ls /\
      dispatched s' = (dispatched s ++ concat ls)%list.
Proof.
  intros Hb Hready. induction k as [|k IH]; intros from s Hfk Hm.
  - exists s, []. split; [reflexivity|]. split; [auto|]. split.
    + rewrite drop_ge; [constructor|]. unfold children_num in Hfk. lia.
    + simpl. now rewrite app_nil_r.
  - assert (from < length (children cfg))%nat as Hlt
        by (unfold children_num in Hfk; lia).
    destruct (lookup_lt_is_Some_2 _ _ Hlt) as [item Hitem].
    destruct (Hb _ _ Hitem) as (c & Hc & Hbc).
    assert (sampling_ready e e' item = true) as Hr.
    { rewrite forallb_forall in Hready. apply Hready.
      apply list_elem_of_In. eapply list_elem_of_lookup_2. exact Hitem. }
    rewrite <- (same_memory_entry s0 s from Hm) in Hc.
    apply (built_same_memory e s0 s item c Hm) in Hbc.
    destruct (export_class_spec e e' item from c s Hc Hbc Hr)
      as (s1 & l & Hrun1 & Hm1 & Hd1 & Hl1).
    assert (S from + k = children_num cfg)%nat as Hfk1 by lia.
    destruct (IH (S from) s1 Hfk1 (same_memory_trans _ _ _ Hm Hm1))
      as (s' & ls & Hrun & Hm' & Hls & Hd').
    exists s', (l :: ls). split.
    + cbn [for_each]. now rewrite (bind_Ok _ _ _ _ _ Hrun1).
    + split; [auto|]. split.
      * rewrite (drop_S _ _ _ Hitem). now constructor.
      * rewrite Hd', Hd1. simpl. now rewrite <- app_assoc.
Qed.

Lemma read_spec e e' cfg s :
  (forall j item, children cfg !! j = Some item ->
                  exists c, class_entry s j = Some c /\ built e s item c) ->
  openafs_class_lst_len s = children_num cfg ->
  forallb (sampling_ready e e') (children cfg) = true ->
  exists s' ls,
    openafs_read e' s = Ok 0 s' /\
    same_memory s s' /\
    Forall2 (class_samples (plugin_tag e') e') (children cfg) ls /\
    dispatched s' = (dispatched s ++ concat ls)%list.
Proof.
  intros Hb Hn Hready.
  assert (0 + children_num cfg = children_num cfg)%nat as Hfk by lia.
  destruct (read_loop_spec e e' cfg s Hb Hready (children_num cfg) 0%nat s
              Hfk (same_memory_refl s))
    as (s' & ls & Hrun & Hm & Hls & Hd).
  exists s', ls. split; [|auto].
  unfold openafs_read. erewrite bind_Ok; [|reflexivity].
  rewrite Hn. now rewrite (bind_Ok _ _ _ _ _ Hrun).
Qed.

(** A pass that returns returns 0. *)
Lemma read_status e s st s' : openafs_read e s = Ok st s' -> st = 0.
Proof.
  unfold openafs_read. intros H.
  apply bind_inv in H as (s0 & s1 & _ & H).
  apply bind_inv in H as (u & s2 & _ & H).
  now injection H as <- _.
Qed.

(** * The claims *)

(** ** C1 (all-or-nothing construction): not met.
    A configuration whose second class has no shared-memory object makes
    [openafs_config] return -1, and the descriptor, the mapping, the class
    name, the label strings and the class list of the first class are all
    released, but its label array (the block at address 4, still holding the
    two dangling label pointers) stays allocated: [openafs_destroy] frees
    [labels[i]] and never [labels]. *)
Theorem config_failure_leaks_label_array :
  exists s,
    openafs_config afs_env afs_gone_config initial_state = Ok (-1) s /\
    fds s = fds initial_state /\
    maps s = maps initial_state /\
    heap initial_state = ∅ /\
    map_to_list (heap s) = [(4, BPtrs [5; 6])].
Proof.
  eexists. split; [vm_compute; reflexivity|].
  repeat split; vm_compute; reflexivity.
Qed.

(** ** C3 (one slot per Counter child): not met.
    A class block with a child that is not a counter in front of its one
    counter gets [n_counters = 2] and the label array [NULL; "hits"]: other
    children are skipped when labels are extracted, but counted and
    indexed all the same. The next sampling pass then hands the null label
    to [snprintf]. *)
Theorem foreign_child_takes_a_slot :
  exists s c p,
    openafs_config afs_env afs_foreign_config initial_state = Ok 0 s /\
    class_entry s 0 = Some c /\
    n_counters c = 2%nat /\
    heap s !! labels c = Some (BPtrs [NULL; p]) /\
    heap s !! p = Some (BString "hits") /\
    openafs_read afs_env s = Fault.
Proof.
  eexists; eexists; eexists. split; [vm_compute; reflexivity|].
  split; [vm_compute; reflexivity|].
  repeat split; vm_compute; reflexivity.
Qed.

(** A class block whose only child is not a counter has no counter and
    yet one slot, with a null label. *)
Example foreign_only_class_has_a_slot :
  exists s c,
    openafs_config afs_env
      (Plugin_block [Class_block "afs"
                       [OItem "Interval" [OCONFIG_TYPE_NUMBER 10] []]])
      initial_state = Ok 0 s /\
    class_entry s 0 = Some c /\
    n_counters c = 1%nat /\
    heap s !! labels c = Some (BPtrs [NULL]).
Proof.
  eexists; eexists. split; [vm_compute; reflexivity|].
  split; [vm_compute; reflexivity|].
  split; vm_compute; reflexivity.
Qed.

(** A class block without children. *)
Definition afs_empty_config : oconfig_item_t :=
  Plugin_block [Class_block "afs" []].

(** ** C4 (a failed mapping is an error): not met.
    Where the kernel refuses the mapping, [mmap] returns [MAP_FAILED];
    the code compares the result with [NULL] only, so [openafs_config]
    returns 0 with [counters = MAP_FAILED] and no mapping, and the next
    sampling pass dereferences that value. The same happens, without a
    later dereference, for the mapping of 0 bytes that a class block
    without children asks for. *)
Theorem mmap_failure_undetected :
  (exists s c,
      openafs_config afs_env_nomap afs_one_config initial_state = Ok 0 s /\
      class_entry s 0 = Some c /\
      counters c = MAP_FAILED /\
      maps s = ∅ /\
      openafs_read afs_env_nomap s = Fault) /\
  (exists s c,
      openafs_config afs_env afs_empty_config initial_state = Ok 0 s /\
      class_entry s 0 = Some c /\
      counters c = MAP_FAILED /\
      maps s = ∅).
Proof.
  split.
  - eexists; eexists. split; [vm_compute; reflexivity|].
    split; [vm_compute; reflexivity|].
    repeat split; vm_compute; reflexivity.
  - eexists; eexists. split; [vm_compute; reflexivity|].
    split; [vm_compute; reflexivity|].
    repeat split; vm_compute; reflexivity.
Qed.

(** A top-level item that is not a class block, in front of a class. *)
Definition afs_after_foreign_config : oconfig_item_t :=
  Plugin_block [OItem "Interval" [OCONFIG_TYPE_NUMBER 10] [];
                Class_block "afs" [Counter_line "hits"]].

(** ** C5 (teardown releases exactly what was acquired, and is
    idempotent): not met.
    After a successful construction [openafs_destroy] leaves the label
    array allocated; and as it resets neither [openafs_class_lst] nor
    [openafs_class_lst_len], running it again, after itself or after a
    failed construction that already ran it, reads the freed class list and
    frees its members a second time. For an entry that was skipped, and so
    is still zeroed, it closes descriptor 0, which the plugin never opened.
    On a registry that was never configured it does nothing. *)
Theorem destroy_leaks_and_is_not_idempotent :
  (exists s s',
      openafs_config afs_env afs_config initial_state = Ok 0 s /\
      openafs_destroy s = Ok 0 s' /\
      fds s' = fds initial_state /\
      maps s' = maps initial_state /\
      map_to_list (heap s') = [(4, BPtrs [5; 6])] /\
      openafs_destroy s' = Fault) /\
  (exists s,
      openafs_config afs_env afs_gone_config initial_state = Ok (-1) s /\
      openafs_destroy s = Fault) /\
  (exists s s',
      openafs_config afs_env afs_after_foreign_config initial_state = Ok 0 s /\
      openafs_destroy s = Ok 0 s' /\
      fds initial_state !! 0 = Some StdStream /\
      fds s !! 0 = Some StdStream /\
      fds s' !! 0 = None) /\
  openafs_destroy initial_state = Ok 0 initial_state.
Proof.
  split; [|split; [|split]].
  - eexists; eexists. split; [vm_compute; reflexivity|].
    split; [vm_compute; reflexivity|].
    repeat split; vm_compute; reflexivity.
  - eexists. split; [vm_compute; reflexivity|]. vm_compute; reflexivity.
  - eexists; eexists. split; [vm_compute; reflexivity|].
    split; [vm_compute; reflexivity|].
    repeat split; vm_compute; reflexivity.
  - vm_compute; reflexivity.
Qed.

(** ** C2 (what one sampling pass emits), as the claim states it: not met.
    A class "afs" with a label of 130 bytes is constructed, and the pass
    emits its one sample under a name that is not "afs_" followed by the
    label: the name went through a 256-byte buffer and a [type] field of
    [DATA_MAX_NAME_LEN] (here 128) bytes. *)
Lemma long_label_name_is_cut :
  exists s s' vl,
    openafs_config afs_env afs_long_config initial_state = Ok 0 s /\
    openafs_read afs_env s = Ok 0 s' /\
    dispatched s' = [vl] /\
    vl_type vl <> "afs" +:+ "_" +:+ long_label /\
    String.length (vl_type vl) = 127%nat.
Proof.
  eexists; eexists; eexists. split; [vm_compute; reflexivity|].
  split; [vm_compute; reflexivity|]. split; [vm_compute; reflexivity|].
  split; [|vm_compute; reflexivity].
  intros H. apply (f_equal String.length) in H. vm_compute in H. discriminate.
Qed.

(** ** C2, amended.
    For every registry that [openafs_config] constructed with status 0 from
    a configuration whose class blocks hold counters only, whose views were
    mapped, and whose objects hold a word per counter when the pass runs:
    one pass of [openafs_read] returns 0 and hands to the sink, after what
    it had received before, exactly one sample per counter slot, classes in
    configuration order and slots in ascending order, each with the plugin
    tag "openafs", the value read from its slot as a gauge, and as its name
    the class name and the label joined by an underscore, cut to the first
    [min (DATA_MAX_NAME_LEN - 1) 255] bytes. *)
Theorem sampling_pass_emits_one_sample_per_slot e e' cfg s0 s :
  startup s0 ->
  openafs_config e cfg s0 = Ok 0 s ->
  forallb (sampling_ready e e') (children cfg) = true ->
  (8 <= DATA_MAX_NAME_LEN e')%nat ->
  exists s' ls,
    openafs_read e' s = Ok 0 s' /\
    Forall2 (class_samples "openafs" e') (children cfg) ls /\
    dispatched s' = (dispatched s ++ concat ls)%list.
Proof.
  intros Hst Hcfg Hready Hlen.
  destruct (config_spec e cfg s0 Hst) as (st & s1 & Hrun & _ & Hok & _).
  rewrite Hcfg in Hrun. injection Hrun as <- <-.
  destruct (Hok eq_refl) as (_ & Hn & _ & Hbuilt).
  destruct (read_spec e e' cfg s Hbuilt Hn Hready) as (s' & ls & Hr & _ & Hls & Hd).
  rewrite (plugin_tag_fits e' Hlen) in Hls. eauto.
Qed.

Lemma sampling_pass_emits_one_sample_per_slot_witness :
  exists s s' ls,
    openafs_config afs_env afs_config initial_state = Ok 0 s /\
    openafs_read afs_env s = Ok 0 s' /\
    Forall2 (class_samples "openafs" afs_env) (children afs_config) ls /\
    dispatched s' = (dispatched s ++ concat ls)%list.
Proof.
  eexists.
  assert (openafs_config afs_env afs_config initial_state = Ok 0 _) as Hcfg
      by (vm_compute; reflexivity).
  destruct (sampling_pass_emits_one_sample_per_slot
              afs_env afs_env afs_config initial_state _
              startup_initial Hcfg)
    as (s' & ls & H); [vm_compute; reflexivity | vm_compute; lia |].
  exists s', ls. split; [exact Hcfg | exact H].
Defined.

(** The world of [afs_env] with a second object, "/new", that its producer
    has created and not yet given a size. *)
Definition afs_env_unsized : env :=
  mk_env (fun n => if String.eqb n "/new" then Some [] else shm_objects afs_env n)
         (fun _ _ => false) (fun _ => false) false 128 (fun _ => 0) 4096.

Definition afs_new_config : oconfig_item_t :=
  Plugin_block [Class_block "afs" [Counter_line "hits"; Counter_line "misses"];
                Class_block "new" [Counter_line "x"]].

(** ** C6 (the read callback always reports success), as the claim states
    it: not met.
    Both classes are constructed: "/new" can be opened, and a mapping of 4
    bytes of an object without pages is granted. The pass emits the samples
    of "afs" and then loads slot 0 of "new", which no page of the object
    backs: the access raises SIGBUS, and the pass returns nothing to the
    host, neither 0 nor an error. A class that cannot be read is not
    skipped. *)
Lemma unsized_segment_stops_the_pass :
  exists s,
    openafs_config afs_env_unsized afs_new_config initial_state = Ok 0 s /\
    openafs_read afs_env_unsized s = Fault /\
    ~ exists s', openafs_read afs_env_unsized s = Ok 0 s'.
Proof.
  eexists. split; [vm_compute; reflexivity|].
  match goal with
  | |- ?r = Fault /\ _ =>
      assert (r = Fault) as Hread by (vm_compute; reflexivity)
  end.
  split; [exact Hread|]. rewrite Hread. intros [s' H]. discriminate.
Qed.

(** ** C6, amended.
    Whatever the environment and whatever status the sink returns for any
    sample, a pass of [openafs_read] over a constructed registry never
    returns a status other than 0; and over a registry whose class blocks
    hold counters only, whose views were mapped and whose objects hold a
    word per counter, it does return, with 0. *)
Theorem read_reports_success e e' cfg s0 s :
  startup s0 ->
  openafs_config e cfg s0 = Ok 0 s ->
  (forall st s', openafs_read e' s = Ok st s' -> st = 0) /\
  (forallb (sampling_ready e e') (children cfg) = true ->
   exists s', openafs_read e' s = Ok 0 s').
Proof.
  intros Hst Hcfg. split; [intros st s'; apply read_status|].
  intros Hready.
  destruct (config_spec e cfg s0 Hst) as (st & s1 & Hrun & _ & Hok & _).
  rewrite Hcfg in Hrun. injection Hrun as <- <-.
  destruct (Hok eq_refl) as (_ & Hn & _ & Hbuilt).
  destruct (read_spec e e' cfg s Hbuilt Hn Hready) as (s' & ls & Hr & _).
  eauto.
Qed.

(** The sink rejects every sample: the pass reports success all the same. *)
Definition afs_env_badsink : env :=
  mk_env (shm_objects afs_env) (fun _ _ => false) (fun _ => false) false 128
         (fun _ => -1) 4096.

Lemma read_reports_success_witness :
  exists s s',
    openafs_config afs_env afs_config initial_state = Ok 0 s /\
    (forall st s1, openafs_read afs_env_badsink s = Ok st s1 -> st = 0) /\
    openafs_read afs_env_badsink s = Ok 0 s'.
Proof.
  eexists.
  assert (openafs_config afs_env afs_config initial_state = Ok 0 _) as Hcfg
      by (vm_compute; reflexivity).
  destruct (read_reports_success afs_env afs_env_badsink afs_config
              initial_state _ startup_initial Hcfg) as [Hnever Hdoes].
  destruct Hdoes as (s' & Hs'); [vm_compute; reflexivity|].
  exists s'. split; [exact Hcfg|]. split; [exact Hnever | exact Hs'].
Defined.

(** ** C7 (the class name must fit the segment-name buffer).
    For a class block with name [name]: processing it into a fresh entry
    always returns; if the name is longer than 254 bytes the status is -1
    and [shm_open] has not been called; otherwise, the copy of the name
    having been allocated, the one call of [shm_open] made is for "/"
    followed by the name. And [openafs_config] returns -1 on every
    configuration that holds a class block with a name longer than 254
    bytes. *)
Theorem oversized_class_name_is_config_error e item name :
  strcasecmp "Class" (key item) = 0 ->
  values item = [OCONFIG_TYPE_STRING name] ->
  (forall i s,
      safe s -> class_entry s i = Some zero_class ->
      exists st s',
        _openafs_process_class e item i s = Ok st s' /\
        if (254 <? strlen name)%nat
        then st = -1 /\ shm_log s' = shm_log s
        else alloc_fails e (allocs s) = false ->
             shm_log s' = (shm_log s ++ ["/" +:+ name])%list) /\
  ((254 < strlen name)%nat ->
   forall cfg s0 j,
     startup s0 -> children cfg !! j = Some item ->
     exists s, openafs_config e cfg s0 = Ok (-1) s).
Proof.
  intros Hkey Hv. apply Z.eqb_eq in Hkey. split.
  - intros i s Hs Hc.
    destruct (process_class_spec e item i s Hs Hc)
      as (st & s' & Hrun & _ & _ & _ & _ & _ & _ & Hlog).
    exists st, s'. split; [exact Hrun|]. now apply Hlog.
  - intros Hlong cfg s0 j Hst Hj.
    destruct (config_spec e cfg s0 Hst) as (st & s & Hrun & [-> | ->] & Hok & _).
    + exfalso. destruct (Hok eq_refl) as (_ & _ & _ & Hbuilt).
      destruct (Hbuilt j item Hj) as (c & _ & Hb). unfold built in Hb.
      rewrite Hkey in Hb. destruct Hb as (name' & Hv' & Hlen & _).
      rewrite Hv in Hv'. injection Hv' as <-. lia.
    + eauto.
Qed.

(** A class name of 255 bytes. *)
Definition oversized_name : string := repeat_char "a"%char 255.

Lemma oversized_class_name_is_config_error_witness :
  (exists s',
      _openafs_process_class afs_env (Class_block oversized_name []) 0
        (with_class_lst 1 initial_state) = Ok (-1) s' /\
      shm_log s' = shm_log (with_class_lst 1 initial_state)) /\
  (exists s,
      openafs_config afs_env (Plugin_block [Class_block oversized_name []])
        initial_state = Ok (-1) s) /\
  (exists st s',
      _openafs_process_class afs_env (Class_block "afs" []) 0
        (with_class_lst 1 initial_state) = Ok st s' /\
      shm_log s' = ["/afs"]).
Proof.
  destruct (oversized_class_name_is_config_error
              afs_env (Class_block oversized_name []) oversized_name
              eq_refl eq_refl) as [Hclass Hconfig].
  split; [|split].
  - destruct (Hclass 0%nat (with_class_lst 1 initial_state)
                (with_class_lst_safe 1 initial_state startup_initial)
                eq_refl) as (st & s' & Hrun & Hres).
    change (254 <? strlen oversized_name)%nat with true in Hres.
    destruct Hres as [-> Hlog]. exists s'. split; [exact Hrun | exact Hlog].
  - apply (Hconfig ltac:(vm_compute; lia)
             (Plugin_block [Class_block oversized_name []]) initial_state
             0%nat startup_initial eq_refl).
  - destruct (oversized_class_name_is_config_error
                afs_env (Class_block "afs" []) "afs" eq_refl eq_refl)
      as [Hshort _].
    destruct (Hshort 0%nat (with_class_lst 1 initial_state)
                (with_class_lst_safe 1 initial_state startup_initial)
                eq_refl) as (st & s' & Hrun & Hres).
    exists st, s'. split; [exact Hrun|]. exact (Hres eq_refl).
Defined.

(** The world of [afs_env] with an allocator whose [calloc(0, _)] is null. *)
Definition afs_env_calloc0 : env :=
  mk_env (shm_objects afs_env) (fun _ _ => false) (fun _ => false) true 128
         (fun _ => 0) 4096.

(** ** C8 (a class block without counters), as the claim states it: not met.
    Where [calloc(0, _)] returns a null pointer, which the C standard
    allows, the label array of a class block without children is null and
    [_openafs_add_stats] takes it for a failed allocation: the class is
    rejected although its object exists. *)
Lemma empty_class_rejected_where_calloc0_is_null :
  shm_objects afs_env_calloc0 "/afs" = Some [42; 7] /\
  exists s,
    openafs_config afs_env_calloc0 afs_empty_config initial_state = Ok (-1) s.
Proof. split; [reflexivity|]. eexists. vm_compute; reflexivity. Qed.

(** ** C8, amended.
    Where no allocation fails and [calloc(0, _)] returns a pointer, as it
    does in glibc, every configuration whose items are all constructible
    ([item_ok]: names fit, objects exist, counters carry one string) and
    whose [j]-th item is a class block without children is constructed with
    status 0, its [j]-th class has [n_counters = 0], and from then on, in
    whatever environment, exporting that class returns without emitting
    anything or changing anything else. *)
Theorem class_without_counters_is_accepted e cfg s0 j k name :
  startup s0 ->
  (forall n, alloc_fails e n = false) ->
  calloc0_null e = false ->
  forallb (item_ok e) (children cfg) = true ->
  children cfg !! j = Some (OItem k [OCONFIG_TYPE_STRING name] []) ->
  strcasecmp "Class" k = 0 ->
  exists s c,
    openafs_config e cfg s0 = Ok 0 s /\
    class_entry s j = Some c /\
    n_counters c = 0%nat /\
    forall e' s1, same_memory s s1 ->
                  _openafs_export_class e' j s1 = Ok tt s1.
Proof.
  intros Hst Hnf Hc0 Hok Hj Hkey.
  destruct (config_spec e cfg s0 Hst) as (st & s & Hrun & _ & Hbuilt & Hsucc).
  assert (st = 0) as -> by (apply Hsucc; auto).
  destruct (Hbuilt eq_refl) as (_ & _ & _ & Hall).
  destruct (Hall j _ Hj) as (c & Hc & Hb).
  unfold built in Hb. simpl in Hb. apply Z.eqb_eq in Hkey. rewrite Hkey in Hb.
  destruct Hb as (name' & _ & _ & _ & _ & Hn & _).
  exists s, c. split; [exact Hrun|]. split; [exact Hc|]. split; [exact Hn|].
  intros e' s1 Hm. unfold _openafs_export_class.
  rewrite <- (same_memory_entry s s1 j Hm) in Hc.
  rewrite (bind_Ok _ _ _ _ _ (load_class_Ok _ _ _ Hc)). now rewrite Hn.
Qed.

Lemma class_without_counters_is_accepted_witness :
  exists s c,
    openafs_config afs_env afs_empty_config initial_state = Ok 0 s /\
    class_entry s 0 = Some c /\
    n_counters c = 0%nat /\
    forall e' s1, same_memory s s1 ->
                  _openafs_export_class e' 0 s1 = Ok tt s1.
Proof.
  apply (class_without_counters_is_accepted
           afs_env afs_empty_config initial_state 0 "Class" "afs"
           startup_initial);
    [intros n | | | | ]; vm_compute; reflexivity.
Defined.

(** ** C10 (keys are matched without regard to case).
    Two configurations that differ only in the capitalisation of their
    keys, at any level, are indistinguishable to [openafs_config]: from the
    same state it returns the same status and leaves the same state, so
    "class" and "COUNTER" build the registry that "Class" and "Counter"
    build. *)
Theorem keys_are_case_insensitive e cfg cfg' s :
  caseeq cfg cfg' ->
  openafs_config e cfg' s = openafs_config e cfg s.
Proof. intros H. symmetry. now apply config_caseeq. Qed.

Lemma keys_are_case_insensitive_witness :
  openafs_config afs_env afs_lowercase_config initial_state =
  openafs_config afs_env afs_config initial_state.
Proof.
  apply keys_are_case_insensitive.
  unfold afs_config, afs_lowercase_config, Plugin_block, Class_block,
    Counter_line.
  repeat (constructor; try reflexivity).
Defined.

(** * Further properties of the plugin *)

(** ** A sampling pass as a function of memory *)

(** The results of [f from], ..., [f (from + k - 1)], if all are defined. *)
Fixpoint collect {A} (f : nat -> option A) (from k : nat) : option (list A) :=
  match k with
  | O => Some []
  | S k' =>
      match f from with
      | Some x =>
          match collect f (S from) k' with
          | Some l => Some (x :: l)
          | None => None
          end
      | None => None
      end
  end.

(** The sample that iteration [i] of [_openafs_export_class] builds for
    class [c], if every dereference it makes is defined. *)
Definition sample_at (e : env) (s : state) (c : openafs_class_t) (i : nat)
  : option value_list_t :=
  match heap s !! class c with
  | Some (BString name) =>
      match heap s !! labels c with
      | Some (BPtrs lp) =>
          match lp !! i with
          | Some p =>
              match heap s !! p with
              | Some (BString label) =>
                  match maps s !! counters c with
                  | Some (obj, len) =>
                      if (sizeof_unsigned_int * S i <=? len)%nat
                      then match shm_objects e obj with
                           | Some words =>
                               match word_at e words i with
                               | Some w =>
                                   Some (mk_vl (plugin_tag e)
                                               (metric_name e name label) [w])
                               | None => None
                               end
                           | None => None
                           end
                      else None
                  | None => None
                  end
              | _ => None
              end
          | None => None
          end
      | _ => None
      end
  | _ => None
  end.

(** The samples of class [i], and of a whole pass. *)
Definition class_emits (e : env) (s : state) (i : nat)
  : option (list value_list_t) :=
  match class_entry s i with
  | Some c => collect (sample_at e s c) 0 (n_counters c)
  | None => None
  end.

Definition pass_emits (e : env) (s : state) : option (list value_list_t) :=
  match collect (class_emits e s) 0 (openafs_class_lst_len s) with
  | Some ls => Some (concat ls)
  | None => None
  end.

(** The state [s] with [l] appended to what the sink has received. *)
Definition emit (l : list value_list_t) (s : state) : state :=
  set_dispatched (dispatched s ++ l) s.

Lemma emit_nil s : emit [] s = s.
Proof. destruct s. unfold emit, set_dispatched. simpl. now rewrite app_nil_r. Qed.

Lemma emit_emit l1 l2 s : emit l2 (emit l1 s) = emit (l1 ++ l2) s.
Proof. unfold emit, set_dispatched. simpl. now rewrite app_assoc. Qed.

Lemma sample_at_emit e l s c i : sample_at e (emit l s) c i = sample_at e s c i.
Proof. reflexivity. Qed.

Lemma class_entry_emit l s i : class_entry (emit l s) i = class_entry s i.
Proof. reflexivity. Qed.

Lemma collect_ext {A} (f g : nat -> option A) :
  (forall i, f i = g i) -> forall k from, collect f from k = collect g from k.
Proof.
  intros H k; induction k as [|k IH]; intros from; simpl; [reflexivity|].
  now rewrite H, IH.
Qed.

Lemma collect_length {A} (f : nat -> option A) k :
  forall from l, collect f from k = Some l -> length l = k.
Proof.
  induction k as [|k IH]; intros from l; simpl.
  - now intros [= <-].
  - destruct (f from); [|discriminate].
    destruct (collect f (S from) k) as [l'|] eqn:Hl; [|discriminate].
    intros [= <-]. simpl. f_equal. eauto.
Qed.

Lemma collect_Forall {A} (f : nat -> option A) (P : A -> Prop) :
  (forall i x, f i = Some x -> P x) ->
  forall k from l, collect f from k = Some l -> Forall P l.
Proof.
  intros H k; induction k as [|k IH]; intros from l; simpl.
  - intros [= <-]. constructor.
  - destruct (f from) as [x|] eqn:Hx; [|discriminate].
    destruct (collect f (S from) k) as [l'|] eqn:Hl; [|discriminate].
    intros [= <-]. constructor; eauto.
Qed.

(** The loop of [_openafs_export_class] computes [collect (sample_at ...)]
    and appends it to the sink. *)
Lemma export_loop_pure e c s :
  forall k from l0,
    for_each (fun i =>
                name ← load_string (class c);
                lp ← load_ptr (labels c) i;
                label ← load_string lp;
                let buffer :=
                  snprintf OPENAFS_STR_MAX_LEN (name +:+ "_" +:+ label) in
                let type := sstrncpy (DATA_MAX_NAME_LEN e) buffer in
                counter ← atomic_load e (counters c) i;
                plugin_dispatch_values e
                  (mk_vl (sstrncpy (DATA_MAX_NAME_LEN e) "openafs")
                         type [counter]);;
                mret tt) from k (emit l0 s)
    = match collect (sample_at e s c) from k with
      | Some l => Ok tt (emit (l0 ++ l) s)
      | None => Fault
      end.
Proof.
  induction k as [|k IH]; intros from l0; cbn [for_each collect].
  - now rewrite app_nil_r.
  - unfold mbind at 1, M_bind. unfold sample_at at 1.
    unfold mbind at 1, M_bind, load_string at 1.
    change (heap (emit l0 s)) with (heap s).
    destruct (heap s !! class c) as [[name| |]|]; try reflexivity.
    unfold mbind at 1, M_bind, load_ptr at 1.
    change (heap (emit l0 s)) with (heap s).
    destruct (heap s !! labels c) as [[|lp|]|]; try reflexivity.
    destruct (lp !! from) as [p|]; [|reflexivity].
    unfold mbind at 1, M_bind, load_string at 1.
    change (heap (emit l0 s)) with (heap s).
    destruct (heap s !! p) as [[label| |]|]; try reflexivity.
    unfold mbind at 1, M_bind, atomic_load at 1.
    change (maps (emit l0 s)) with (maps s).
    destruct (maps s !! counters c) as [[obj len]|]; [|reflexivity].
    destruct (sizeof_unsigned_int * S from <=? len)%nat; [|reflexivity].
    destruct (shm_objects e obj) as [words|]; [|reflexivity].
    destruct (word_at e words from) as [w|]; [|reflexivity].
    rewrite metric_name_code. fold (plugin_tag e).
    unfold mbind at 1, M_bind, plugin_dispatch_values at 1.
    unfold mret, M_ret. cbv beta iota.
    fold (emit [mk_vl (plugin_tag e) (metric_name e name label) [w]] (emit l0 s)).
    rewrite emit_emit, IH.
    destruct (collect (sample_at e s c) (S from) k) as [l|]; [|reflexivity].
    now rewrite <- app_assoc.
Qed.

Lemma export_class_pure e i l0 s :
  _openafs_export_class e i (emit l0 s)
  = match class_emits e s i with
    | Some l => Ok tt (emit (l0 ++ l) s)
    | None => Fault
    end.
Proof.
  unfold _openafs_export_class, class_emits.
  unfold mbind at 1, M_bind. rewrite load_class_eq, class_entry_emit.
  destruct (class_entry s i) as [c|]; [|reflexivity].
  apply export_loop_pure.
Qed.

Lemma read_loop_pure e s :
  forall k from l0,
    for_each (_openafs_export_class e) from k (emit l0 s)
    = match collect (class_emits e s) from k with
      | Some ls => Ok tt (emit (l0 ++ concat ls) s)
      | None => Fault
      end.
Proof.
  induction k as [|k IH]; intros from l0; cbn [for_each collect].
  - simpl. now rewrite app_nil_r.
  - unfold mbind at 1, M_bind. rewrite export_class_pure.
    destruct (class_emits e s from) as [l|]; [|reflexivity].
    rewrite IH.
    destruct (collect (class_emits e s) (S from) k) as [ls|]; [|reflexivity].
    simpl. now rewrite <- app_assoc.
Qed.

Lemma read_pure e s :
  openafs_read e s
  = match pass_emits e s with
    | Some l => Ok 0 (emit l s)
    | None => Fault
    end.
Proof.
  unfold openafs_read, pass_emits, globals.
  unfold mbind at 1, M_bind. unfold mbind at 1, M_bind.
  pose proof (read_loop_pure e s (openafs_class_lst_len s) 0%nat []) as H.
  rewrite emit_nil in H. rewrite H.
  destruct (collect (class_emits e s) 0 (openafs_class_lst_len s));
    reflexivity.
Qed.

Lemma class_emits_length e s i l c :
  class_emits e s i = Some l -> class_entry s i = Some c ->
  length l = n_counters c.
Proof.
  unfold class_emits. intros H Hc. rewrite Hc in H.
  now apply collect_length in H.
Qed.

Lemma pass_count e s :
  forall k from ls,
    collect (class_emits e s) from k = Some ls ->
    length (concat ls)
    = sum_list (n_counters <$> take k (drop from (classes_of s))).
Proof.
  induction k as [|k IH]; intros from ls; cbn [collect].
  - intros [= <-]. reflexivity.
  - destruct (class_emits e s from) as [l|] eqn:Hl; [|discriminate].
    destruct (collect (class_emits e s) (S from) k) as [ls'|] eqn:Hls;
      [|discriminate].
    intros [= <-].
    assert (exists c, class_entry s from = Some c) as [c Hc].
    { unfold class_emits in Hl. destruct (class_entry s from); [eauto|discriminate]. }
    pose proof (class_emits_length _ _ _ _ _ Hl Hc) as Hlen.
    rewrite class_entry_classes in Hc. rewrite (drop_S _ _ _ Hc).
    simpl. now rewrite length_app, (IH _ _ Hls), Hlen.
Qed.

Lemma substring_length_le n s : (String.length (substring 0 n s) <= n)%nat.
Proof.
  revert n; induction s as [|ch s IH]; intros [|n]; simpl; try lia.
  specialize (IH n). lia.
Qed.

Lemma substring_length_min n s :
  String.length (substring 0 n s) = Nat.min n (String.length s).
Proof.
  revert n; induction s as [|ch s IH]; intros [|n]; simpl; auto.
Qed.

(** ** X1 (a pass writes to the sink and to nothing else).
    Whenever [openafs_read] returns, the state it leaves is the state it
    started from with samples appended to what the sink has received: heap,
    descriptors, mappings and globals are the same; and the number of
    samples is the sum of [n_counters] over the entries of the class list. *)
Theorem pass_only_feeds_the_sink e s st s' :
  openafs_read e s = Ok st s' ->
  exists l,
    s' = emit l s /\
    length l
    = sum_list (n_counters <$> take (openafs_class_lst_len s) (classes_of s)).
Proof.
  rewrite read_pure. unfold pass_emits.
  destruct (collect (class_emits e s) 0 (openafs_class_lst_len s))
    as [ls|] eqn:Hls; [|discriminate].
  intros [= <- <-]. exists (concat ls). split; [reflexivity|].
  now rewrite (pass_count e s _ _ _ Hls).
Qed.

Lemma pass_only_feeds_the_sink_witness :
  exists s s' l,
    openafs_config afs_env afs_config initial_state = Ok 0 s /\
    openafs_read afs_env s = Ok 0 s' /\
    s' = emit l s /\ length l = 2%nat.
Proof.
  eexists.
  assert (openafs_config afs_env afs_config initial_state = Ok 0 _) as Hcfg
      by (vm_compute; reflexivity).
  eexists.
  match type of Hcfg with
  | _ = Ok 0 ?s =>
      assert (openafs_read afs_env s = Ok 0 _) as Hread
        by (vm_compute; reflexivity)
  end.
  destruct (pass_only_feeds_the_sink _ _ _ _ Hread) as (l & Hl & Hn).
  exists l. split; [exact Hcfg|]. split; [exact Hread|]. split; [exact Hl|].
  rewrite Hn. vm_compute. reflexivity.
Defined.

(** ** X2 (the shape of every sample).
    Every sample a pass hands to the sink carries exactly one value, the
    plugin name as [sstrncpy] leaves it in the [plugin] field ("openafs"
    when the field has room for 8 bytes), and a name that fits both the
    256-byte buffer and the [type] field with its terminator. *)
Theorem samples_are_well_formed e s st s' :
  openafs_read e s = Ok st s' ->
  exists l,
    dispatched s' = (dispatched s ++ l)%list /\
    Forall (fun vl =>
              vl_plugin vl = sstrncpy (DATA_MAX_NAME_LEN e) "openafs" /\
              ((8 <= DATA_MAX_NAME_LEN e)%nat -> vl_plugin vl = "openafs") /\
              length (vl_values vl) = 1%nat /\
              (String.length (vl_type vl) <= DATA_MAX_NAME_LEN e - 1)%nat /\
              (String.length (vl_type vl) <= 255)%nat) l.
Proof.
  rewrite read_pure. unfold pass_emits.
  destruct (collect (class_emits e s) 0 (openafs_class_lst_len s))
    as [ls|] eqn:Hls; [|discriminate].
  intros [= <- <-]. exists (concat ls). split; [reflexivity|].
  apply Forall_concat.
  refine (collect_Forall _ _ _ _ _ _ Hls). intros i l Hl.
  unfold class_emits in Hl. destruct (class_entry s i) as [c|]; [|discriminate].
  refine (collect_Forall _ _ _ _ _ _ Hl). intros j vl Hvl.
  unfold sample_at in Hvl.
  repeat match type of Hvl with
         | match ?x with _ => _ end = Some _ =>
             destruct x; try discriminate
         end.
  injection Hvl as <-. simpl.
  split; [reflexivity|]. split; [apply plugin_tag_fits|].
  split; [reflexivity|]. unfold metric_name.
  pose proof (substring_length_le
                (Nat.min (DATA_MAX_NAME_LEN e - 1) 255)
                (s0 +:+ "_" +:+ s1)) as Hle.
  split; lia.
Qed.

Lemma samples_are_well_formed_witness :
  exists s s' l,
    openafs_config afs_env afs_long_config initial_state = Ok 0 s /\
    openafs_read afs_env s = Ok 0 s' /\
    dispatched s' = (dispatched s ++ l)%list /\
    Forall (fun vl => vl_plugin vl = "openafs" /\
                      (String.length (vl_type vl) <= 127)%nat) l.
Proof.
  eexists.
  assert (openafs_config afs_env afs_long_config initial_state = Ok 0 _)
    as Hcfg by (vm_compute; reflexivity).
  eexists.
  match type of Hcfg with
  | _ = Ok 0 ?s =>
      assert (openafs_read afs_env s = Ok 0 _) as Hread
        by (vm_compute; reflexivity)
  end.
  destruct (samples_are_well_formed _ _ _ _ Hread) as (l & Hl & Hall).
  exists l. split; [exact Hcfg|]. split; [exact Hread|]. split; [exact Hl|].
  refine (Forall_impl _ _ _ Hall _). intros vl (_ & Htag & _ & Hlen & _).
  split; [apply Htag; vm_compute; lia | exact Hlen].
Defined.

(** ** X3 (passes are repeatable).
    A pass depends on the plugin's memory and on the shared-memory objects
    only: when [openafs_read] has returned, running it again in the same
    environment returns as well and emits the same samples once more. *)
Theorem pass_can_be_repeated e s st s' :
  openafs_read e s = Ok st s' ->
  exists l,
    s' = emit l s /\
    openafs_read e s' = Ok st (emit (l ++ l) s).
Proof.
  rewrite read_pure.
  destruct (pass_emits e s) as [l|] eqn:Hl; [|discriminate].
  intros [= <- <-]. exists l. split; [reflexivity|].
  rewrite read_pure.
  change (pass_emits e (emit l s)) with (pass_emits e s).
  rewrite Hl. now rewrite emit_emit.
Qed.

Lemma pass_can_be_repeated_witness :
  exists s s' s'',
    openafs_config afs_env afs_config initial_state = Ok 0 s /\
    openafs_read afs_env s = Ok 0 s' /\
    openafs_read afs_env s' = Ok 0 s'' /\
    dispatched s'' = [mk_vl "openafs" "afs_hits" [42];
                      mk_vl "openafs" "afs_misses" [7];
                      mk_vl "openafs" "afs_hits" [42];
                      mk_vl "openafs" "afs_misses" [7]].
Proof.
  eexists.
  assert (openafs_config afs_env afs_config initial_state = Ok 0 _) as Hcfg
      by (vm_compute; reflexivity).
  eexists.
  match type of Hcfg with
  | _ = Ok 0 ?s =>
      assert (openafs_read afs_env s = Ok 0 _) as Hread
        by (vm_compute; reflexivity)
  end.
  destruct (pass_can_be_repeated _ _ _ _ Hread) as (l & Hl & Hagain).
  eexists. split; [exact Hcfg|]. split; [exact Hread|].
  split; [exact Hagain|]. vm_compute in Hl. injection Hl as Hl. subst l.
  vm_compute. reflexivity.
Defined.

(** ** X4 (when a metric name is cut).
    The name that [_openafs_export_class] writes into the [type] field is
    the class name, an underscore and the label, unchanged, exactly when
    that text fits both the 256-byte buffer and the field; in any case its
    length is the smaller of the text's length and the room there is. *)
Theorem metric_name_is_exact_iff_it_fits (n : nat) (cls label : string) :
  let full := cls +:+ "_" +:+ label in
  let type := sstrncpy n (snprintf OPENAFS_STR_MAX_LEN full) in
  String.length type
  = Nat.min (String.length full) (Nat.min (n - 1) 255) /\
  (type = full <-> (String.length full <= Nat.min (n - 1) 255)%nat).
Proof.
  intros full type. unfold type, sstrncpy, snprintf.
  rewrite substring_substring.
  change (OPENAFS_STR_MAX_LEN - 1)%nat with 255%nat.
  rewrite substring_length_min. split; [lia|]. split.
  - intros H. apply (f_equal String.length) in H.
    rewrite substring_length_min in H. lia.
  - apply substring_all.
Qed.

(** ** Which configurations are accepted *)

(** What [openafs_config] requires of a top-level item: nothing of an item
    that is not a class block; of a class block, one string value of at most
    254 bytes naming an existing object, and one string value for every
    child keyed "Counter". *)
Definition item_valid (e : env) (item : oconfig_item_t) : bool :=
  if strcasecmp "Class" (key item) =? 0
  then match values item with
       | [OCONFIG_TYPE_STRING name] =>
           (strlen name <=? 254)%nat &&
           bool_decide (is_Some (shm_objects e ("/" +:+ name))) &&
           forallb counter_ok (children item)
       | _ => false
       end
  else true.

Lemma built_valid e s item c : built e s item c -> item_valid e item = true.
Proof.
  unfold built, item_valid. destruct (_ =? 0); [|reflexivity].
  intros (name & -> & Hlen & Hobj & _ & _ & _ & lp & _ & _ & Hall).
  apply andb_true_intro. split; [apply andb_true_intro; split|].
  - now apply Nat.leb_le.
  - now apply bool_decide_eq_true_2.
  - apply forallb_forall. intros child Hin.
    apply list_elem_of_In, list_elem_of_lookup in Hin as [j Hj].
    specialize (Hall j child Hj). unfold label_built, counter_ok in *.
    destruct (_ =? 0); [|reflexivity].
    destruct Hall as (p & lab & _ & _ & ->). reflexivity.
Qed.

Lemma item_valid_ok e item :
  calloc0_null e = false -> item_ok e item = item_valid e item.
Proof.
  intros H. unfold item_ok, item_valid, stats_ok. rewrite H.
  destruct (_ =? 0); [|reflexivity].
  destruct (values item) as [|[name| |] [|]]; try reflexivity.
  now rewrite andb_false_r, andb_true_r.
Qed.

(** ** X5 (the configuration callback is memory safe).
    From every state in which addresses from [brk] on are unused,
    [openafs_config] runs to its end without an undefined step (no invalid
    or double free, no access outside a block), whatever the configuration,
    whichever objects exist and whichever allocations fail, the error path
    through [openafs_destroy] included, and returns 0 or -1. *)
Theorem config_always_returns e cfg s0 :
  startup s0 ->
  exists st s, openafs_config e cfg s0 = Ok st s /\ (st = 0 \/ st = -1).
Proof.
  intros Hst. destruct (config_spec e cfg s0 Hst) as (st & s & Hrun & H & _).
  eauto.
Qed.

(** The fourth allocation request, the copy of the first label, fails. *)
Definition afs_env_oom : env :=
  mk_env (shm_objects afs_env) (fun _ _ => false) (fun k => Nat.eqb k 3) false
         128 (fun _ => 0) 4096.

Lemma config_always_returns_witness :
  exists s, openafs_config afs_env_oom afs_config initial_state = Ok (-1) s.
Proof.
  destruct (config_always_returns afs_env_oom afs_config initial_state
              startup_initial) as (st & s & Hrun & _).
  exists s. rewrite Hrun. f_equal.
  assert (openafs_config afs_env_oom afs_config initial_state = Ok (-1) _)
    as H by (vm_compute; reflexivity).
  rewrite H in Hrun. now injection Hrun as <- _.
Defined.

(** ** X6 (what a status of 0 says about the configuration).
    [openafs_config] returns 0 only if every top-level class block has
    exactly one value, a string of at most 254 bytes for which the object
    "/" + name could be opened, and every child keyed "Counter" has exactly
    one value, a string; the registry then has one entry per top-level
    item. *)
Theorem accepted_configuration_is_valid e cfg s0 s :
  startup s0 ->
  openafs_config e cfg s0 = Ok 0 s ->
  forallb (item_valid e) (children cfg) = true /\
  openafs_class_lst_len s = children_num cfg.
Proof.
  intros Hst Hcfg.
  destruct (config_spec e cfg s0 Hst) as (st & s1 & Hrun & _ & Hok & _).
  rewrite Hcfg in Hrun. injection Hrun as <- <-.
  destruct (Hok eq_refl) as (_ & Hn & _ & Hbuilt). split; [|exact Hn].
  apply forallb_forall. intros item Hin.
  apply list_elem_of_In, list_elem_of_lookup in Hin as [j Hj].
  destruct (Hbuilt j item Hj) as (c & _ & Hb). now apply (built_valid e s item c).
Qed.

Lemma accepted_configuration_is_valid_witness :
  forallb (item_valid afs_env) (children afs_config) = true.
Proof.
  assert (openafs_config afs_env afs_config initial_state = Ok 0 _) as Hcfg
      by (vm_compute; reflexivity).
  exact (proj1 (accepted_configuration_is_valid
                  afs_env afs_config initial_state _ startup_initial Hcfg)).
Defined.

(** ** X7 (valid configurations are accepted, mapped or not).
    Where no allocation fails and [calloc(0, _)] returns a pointer, every
    configuration whose items are valid in the sense of X6 is constructed
    with status 0. Whether [mmap] succeeds does not enter: its result is only
    compared with [NULL]. *)
Theorem valid_configuration_is_accepted e cfg s0 :
  startup s0 ->
  (forall n, alloc_fails e n = false) ->
  calloc0_null e = false ->
  forallb (item_valid e) (children cfg) = true ->
  exists s, openafs_config e cfg s0 = Ok 0 s.
Proof.
  intros Hst Hnf Hc0 Hvalid.
  destruct (config_spec e cfg s0 Hst) as (st & s & Hrun & _ & _ & Hsucc).
  exists s. rewrite Hrun. f_equal. apply Hsucc; auto.
  apply forallb_forall. intros item Hin. rewrite item_valid_ok by auto.
  rewrite forallb_forall in Hvalid. now apply Hvalid.
Qed.

Lemma valid_configuration_is_accepted_witness :
  mmap_refused afs_env_nomap "/afs" 4 = true /\
  exists s, openafs_config afs_env_nomap afs_one_config initial_state = Ok 0 s.
Proof.
  split; [reflexivity|].
  apply (valid_configuration_is_accepted
           afs_env_nomap afs_one_config initial_state startup_initial);
    [intros n | | ]; vm_compute; reflexivity.
Defined.

(** ** X8 (what a constructed registry looks like).
    After [openafs_config] has returned 0, the entry of a top-level item
    that is not a class block is all zero, and the entry of a class block
    holds a copy of the class name, [n_counters] equal to the number of
    children of the block whatever their keys, a label array of that
    length whose element [i] is a copy of the value of child [i] if that
    child is keyed "Counter" and null otherwise, and as its view either the
    mapping of the first [n_counters * 4] bytes of "/" + name or, where
    [mmap] failed, [MAP_FAILED]. *)
Theorem constructed_registry_shape e cfg s0 s j item :
  startup s0 ->
  openafs_config e cfg s0 = Ok 0 s ->
  children cfg !! j = Some item ->
  exists c,
    class_entry s j = Some c /\
    if strcasecmp "Class" (key item) =? 0
    then exists name lp,
        values item = [OCONFIG_TYPE_STRING name] /\
        heap s !! class c = Some (BString name) /\
        n_counters c = children_num item /\
        heap s !! labels c = Some (BPtrs lp) /\
        length lp = children_num item /\
        (forall i child, children item !! i = Some child ->
                         label_built s lp i child) /\
        counters_built e s name c
    else c = zero_class.
Proof.
  intros Hst Hcfg Hj.
  destruct (config_spec e cfg s0 Hst) as (st & s1 & Hrun & _ & Hok & _).
  rewrite Hcfg in Hrun. injection Hrun as <- <-.
  destruct (Hok eq_refl) as (_ & _ & _ & Hbuilt).
  destruct (Hbuilt j item Hj) as (c & Hc & Hb). exists c. split; [exact Hc|].
  unfold built in Hb. destruct (_ =? 0); [|exact Hb].
  destruct Hb as (name & Hv & _ & _ & Hname & Hn & Hcnt & lp & Hlp & Hll & Hall).
  exists name, lp. auto 10.
Qed.

Lemma constructed_registry_shape_witness :
  exists s c lp,
    openafs_config afs_env afs_foreign_config initial_state = Ok 0 s /\
    class_entry s 0 = Some c /\
    n_counters c = 2%nat /\
    heap s !! labels c = Some (BPtrs lp) /\
    lp !! 0%nat = Some NULL.
Proof.
  eexists.
  assert (openafs_config afs_env afs_foreign_config initial_state = Ok 0 _)
    as Hcfg by (vm_compute; reflexivity).
  destruct (constructed_registry_shape
              afs_env afs_foreign_config initial_state _ 0%nat _
              startup_initial Hcfg eq_refl) as (c & Hc & Hshape).
  change (strcasecmp "Class" (key (Class_block "afs"
            [OItem "Interval" [OCONFIG_TYPE_NUMBER 10] [];
             Counter_line "hits"])) =? 0) with true in Hshape.
  destruct Hshape as (name & lp & _ & _ & Hn & Hlp & _ & Hall & _).
  exists c, lp. split; [exact Hcfg|]. split; [exact Hc|].
  split; [exact Hn|]. split; [exact Hlp|].
  exact (Hall 0%nat _ eq_refl).
Defined.

(** ** What teardown releases *)

(** The state [s] that [openafs_destroy], started in [s0], has reached when
    it has been through the slots [done]: the blocks of [s0] are there but
    for the strings of those slots, and nothing else has changed in the heap
    or the globals. *)
Record torn (s0 : state) (done : string_slot -> Prop) (s : state) : Prop :=
  mk_torn {
  t_dsafe : dsafe done s;
  t_heap : forall a b,
      heap s !! a = Some b <->
      heap s0 !! a = Some b /\ ~ exists l, done l /\ slot_val s0 l = Some a;
  t_slot : forall l, slot_val s l = slot_val s0 l;
  t_entry : forall i, class_entry s i = class_entry s0 i;
  t_rest : brk s = brk s0 /\ allocs s = allocs s0 /\
           shm_log s = shm_log s0 /\ dispatched s = dispatched s0 /\
           openafs_class_lst s = openafs_class_lst s0 /\
           openafs_class_lst_len s = openafs_class_lst_len s0
}.

Lemma torn_start s : safe s -> torn s (fun _ => False) s.
Proof.
  intros Hs. split; auto using safe_dsafe.
  - intros a b. split; [|tauto]. intros H. split; [auto|]. now intros (l & [] & _).
  - repeat split.
Qed.

(** Slots can be added to [done] if they hold nothing that is allocated. *)
Lemma torn_weaken s0 (done done' : string_slot -> Prop) s :
  torn s0 done s ->
  (forall l, done l -> done' l) ->
  (forall l a, done' l -> ~ done l -> slot_val s0 l = Some a ->
               heap s0 !! a = None) ->
  torn s0 done' s.
Proof.
  intros [Hd Hh Hsl He Hr] Hsub Hnew. split; auto.
  - now apply (dsafe_weaken done).
  - intros a b. rewrite Hh. split; intros [H0 Hn]; (split; [auto|]).
    + intros (l & Hl & Hv).
      assert (~ done l) as Hnd by (intros Hdl; apply Hn; eauto).
      rewrite (Hnew l a Hl Hnd Hv) in H0. discriminate.
    + intros (l & Hl & Hv). apply Hn. eauto.
Qed.

Lemma free_slot_torn s0 done s l p :
  torn s0 done s -> heap s0 !! NULL = None ->
  slot_val s l = Some p -> ~ done l ->
  exists s',
    free p s = Ok tt s' /\
    torn s0 (fun x => done x \/ x = l) s' /\
    maps s' = maps s /\ fds s' = fds s.
Proof.
  intros [Hd Hh Hsl He Hr] Hnull Hl Hnd.
  destruct (free_slot done s l p Hd Hl Hnd)
    as (s' & Hfree & Hd' & He' & Hk' & Hl' & Hn').
  exists s'. split; [exact Hfree|].
  pose proof Hl as Hl0. rewrite Hsl in Hl0.
  unfold free in Hfree. destruct (p =? NULL) eqn:Hp.
  - injection Hfree as <-. apply Z.eqb_eq in Hp. subst p.
    split; [|auto]. split; auto.
    intros a b. rewrite Hh. split; intros [H0 Hn]; (split; [auto|]).
    + intros (x & [Hx| ->] & Hv); [apply Hn; eauto|].
      rewrite Hl0 in Hv. injection Hv as <-. congruence.
    + intros (x & Hx & Hv). apply Hn. eauto.
  - apply Z.eqb_neq in Hp.
    destruct (heap s !! p) as [bp|] eqn:Hbp; [|discriminate].
    injection Hfree as <-. split; [|auto].
    assert (forall a lp, heap s !! a = Some (BPtrs lp) <->
              heap (set_heap (delete p (heap s)) s) !! a = Some (BPtrs lp))
      as Hptrs.
    { intros a lp. split; [apply Hk'|].
      simpl. destruct (decide (a = p)) as [->|Hne].
      - now rewrite lookup_delete_eq.
      - now rewrite lookup_delete_ne. }
    split; auto.
    + intros a b. simpl. destruct (decide (a = p)) as [->|Hne].
      * rewrite lookup_delete_eq. split; [discriminate|].
        intros [_ Hn]. exfalso. apply Hn. exists l. auto.
      * rewrite lookup_delete_ne by auto. rewrite Hh.
        split; intros [H0 Hn]; (split; [auto|]).
        -- intros (x & [Hx| ->] & Hv); [apply Hn; eauto|congruence].
        -- intros (x & Hx & Hv). apply Hn. eauto.
    + intros [i|i j]; rewrite <- Hsl; simpl; rewrite He'; [reflexivity|].
      destruct (class_entry s i) as [c|]; [|reflexivity].
      unfold ptrs_at.
      destruct (heap s !! labels c) as [[|lp|]|] eqn:Hlc.
      * destruct (heap (set_heap (delete p (heap s)) s) !! labels c)
          as [[|lp'|]|] eqn:Hlc'; try reflexivity.
        apply Hptrs in Hlc'. congruence.
      * apply Hptrs in Hlc. now rewrite Hlc.
      * destruct (heap (set_heap (delete p (heap s)) s) !! labels c)
          as [[|lp'|]|] eqn:Hlc'; try reflexivity.
        apply Hptrs in Hlc'. congruence.
      * destruct (heap (set_heap (delete p (heap s)) s) !! labels c)
          as [[|lp'|]|] eqn:Hlc'; try reflexivity.
        apply Hptrs in Hlc'. congruence.
    + intros i. now rewrite He'.
Qed.

Lemma done_in_S i j l :
  done_in i (S j) l <-> done_in i j l \/ l = Label i j.
Proof.
  unfold done_in. split.
  - intros [H|[H|(j' & Hj & ->)]]; auto.
    destruct (decide (j' = j)) as [->|Hne]; [now right|].
    left. right. right. exists j'. split; [lia|reflexivity].
  - intros [[H|[H|(j' & Hj & ->)]]| ->]; auto.
    + right. right. exists j'. split; [lia|reflexivity].
    + right. right. exists j. split; [lia|reflexivity].
Qed.

Lemma release_loop_torn s0 i c :
  heap s0 !! NULL = None -> labels c <> NULL ->
  forall k from s,
    (from + k = n_counters c)%nat ->
    torn s0 (done_in i from) s -> class_entry s i = Some c ->
    exists s',
      for_each (fun j => p ← load_ptr (labels c) j; free p) from k s
        = Ok tt s' /\
      torn s0 (done_in i (from + k)) s' /\
      maps s' = maps s /\ fds s' = fds s.
Proof.
  intros Hnull Hlab. induction k as [|k IH]; intros from s Hfk Ht Hc.
  - exists s. split; [reflexivity|]. rewrite Nat.add_0_r. auto.
  - destruct (d_labels _ s (t_dsafe _ _ _ Ht) i c Hc Hlab) as (lp & Ha & Hlen).
    assert (from < length lp)%nat as Hlt by lia.
    destruct (lookup_lt_is_Some_2 _ _ Hlt) as [p Hp].
    assert (load_ptr (labels c) from s = Ok p s) as Hload
        by (now rewrite load_ptr_eq, Ha, Hp).
    assert (slot_val s (Label i from) = Some p) as Hsv.
    { simpl. rewrite Hc. unfold ptrs_at. now rewrite Ha. }
    assert (~ done_in i from (Label i from)) as Hnd.
    { intros [H|[H|(j' & H1 & H2)]].
      - simpl in H. lia.
      - discriminate.
      - injection H2 as ->. lia. }
    destruct (free_slot_torn s0 _ s _ p Ht Hnull Hsv Hnd)
      as (s1 & Hfree & Ht1 & Hm1 & Hf1).
    assert (torn s0 (done_in i (S from)) s1) as Ht1'.
    { refine (torn_weaken s0 _ _ s1 Ht1 _ _).
      - intros l Hl. now apply done_in_S.
      - intros l a Hl Hn. exfalso. apply Hn. now apply done_in_S. }
    assert (S from + k = n_counters c)%nat as Hfk1 by lia.
    assert (class_entry s1 i = Some c) as Hc1.
    { rewrite (t_entry _ _ _ Ht1). now rewrite <- (t_entry _ _ _ Ht). }
    destruct (IH (S from) s1 Hfk1 Ht1' Hc1) as (s' & Hrun & Ht' & Hm' & Hf').
    exists s'. split.
    + cbn [for_each]. erewrite bind_Ok; [exact Hrun|].
      rewrite (bind_Ok _ _ _ _ _ Hload). exact Hfree.
    + replace (from + S k)%nat with (S from + k)%nat by lia.
      split; [auto|]. split; congruence.
Qed.

Lemma release_labels_torn s0 i c s :
  heap s0 !! NULL = None ->
  torn s0 (done_in i 0) s -> class_entry s i = Some c ->
  exists s',
    _openafs_release_labels i s = Ok tt s' /\
    torn s0 (done_upto (S i)) s' /\
    maps s' = maps s /\ fds s' = fds s.
Proof.
  intros Hnull Ht Hc. unfold _openafs_release_labels.
  rewrite (bind_Ok _ _ _ _ _ (load_class_Ok _ _ _ Hc)).
  assert (forall j l, done_in i j l -> done_upto (S i) l) as Hw.
  { intros j l [H|[->|(j' & _ & ->)]]; unfold done_upto; simpl; lia. }
  assert (forall s1 n l a,
             torn s0 (done_in i n) s1 -> class_entry s1 i = Some c ->
             (forall lp, heap s1 !! labels c = Some (BPtrs lp) ->
                         (length lp <= n)%nat) ->
             done_upto (S i) l -> ~ done_in i n l ->
             slot_val s0 l = Some a -> heap s0 !! a = None) as Hnew.
  { intros s1 n l a Ht1 Hc1 Hlen Hl Hn Hv. exfalso.
    rewrite <- (t_slot _ _ _ Ht1) in Hv.
    unfold done_upto in Hl. unfold done_in in Hn.
    destruct l as [j|j m]; simpl in Hl.
    - destruct (decide (j = i)) as [->|Hne]; [tauto|].
      apply Hn. left. simpl. lia.
    - destruct (decide (j = i)) as [->|Hne]; [|apply Hn; left; simpl; lia].
      simpl in Hv. rewrite Hc1 in Hv. unfold ptrs_at in Hv.
      destruct (heap s1 !! labels c) as [[|lp|]|] eqn:Hlp;
        try (rewrite lookup_nil in Hv; discriminate).
      apply lookup_lt_Some in Hv. specialize (Hlen lp eq_refl).
      apply Hn. right. right. exists m. split; [|reflexivity].
      destruct (decide (m < n)%nat); [auto|].
      exfalso. apply Hn. right. right. exists m. split; [lia|reflexivity]. }
  destruct (labels c =? NULL) eqn:Hn.
  - apply Z.eqb_eq in Hn. exists s. split; [reflexivity|]. split; [|auto].
    refine (torn_weaken s0 _ _ s Ht (Hw 0%nat) _).
    intros l a Hl Hnd Hv. apply (Hnew s 0%nat l a Ht Hc); auto.
    intros lp Hlp. rewrite Hn in Hlp.
    pose proof (proj1 (t_heap _ _ _ Ht NULL (BPtrs lp)) Hlp) as [H0 _].
    congruence.
  - apply Z.eqb_neq in Hn.
    destruct (release_loop_torn s0 i c Hnull Hn (n_counters c) 0%nat s
                eq_refl Ht Hc) as (s' & Hrun & Ht' & Hm' & Hf').
    exists s'. split; [exact Hrun|]. split; [|auto].
    assert (class_entry s' i = Some c) as Hc'.
    { rewrite (t_entry _ _ _ Ht'). now rewrite <- (t_entry _ _ _ Ht). }
    refine (torn_weaken s0 _ _ s' Ht' (Hw _) _).
    intros l a Hl Hnd Hv. apply (Hnew s' _ l a Ht' Hc'); auto.
    intros lp Hlp.
    destruct (d_labels _ s' (t_dsafe _ _ _ Ht') i c Hc' Hn) as (lp' & Hlp' & Hl').
    rewrite Hlp in Hlp'. injection Hlp' as <-. simpl. lia.
Qed.

(** The mappings and descriptors of a state that [openafs_destroy],
    started in [s0], has reached after the classes before [i]: those of
    [s0] but for the views and descriptors of these classes. *)
Definition unhooked (s0 : state) (i : nat) (s : state) : Prop :=
  (forall a m,
      maps s !! a = Some m <->
      maps s0 !! a = Some m /\
      ~ exists j c, (j < i)%nat /\ class_entry s0 j = Some c /\
                    counters c = a /\
                    m.2 = (n_counters c * sizeof_unsigned_int)%nat) /\
  (forall d x,
      fds s !! d = Some x <->
      fds s0 !! d = Some x /\
      ~ exists j c, (j < i)%nat /\ class_entry s0 j = Some c /\ fd c = d).

Lemma unhooked_start s : unhooked s 0 s.
Proof.
  split; intros a m; (split; [|tauto]); intros H; (split; [auto|]);
    intros (j & c & Hj & _); lia.
Qed.

Lemma unhook_step s0 i c s :
  unhooked s0 i s -> class_entry s0 i = Some c ->
  exists r1 s1 r2 s2,
    munmap (counters c) (n_counters c * sizeof_unsigned_int) s = Ok r1 s1 /\
    close (fd c) s1 = Ok r2 s2 /\
    unhooked s0 (S i) s2 /\
    heap s2 = heap s /\ brk s2 = brk s /\ allocs s2 = allocs s /\
    shm_log s2 = shm_log s /\ dispatched s2 = dispatched s /\
    openafs_class_lst s2 = openafs_class_lst s /\
    openafs_class_lst_len s2 = openafs_class_lst_len s.
Proof.
  intros [Hm Hf] Hc.
  assert (forall j c', (j < S i)%nat -> class_entry s0 j = Some c' ->
                       (j < i)%nat \/ c' = c) as Hlast.
  { intros j c' Hj Hc'. destruct (decide (j = i)) as [->|]; [|left; lia].
    right. congruence. }
  set (n := (n_counters c * sizeof_unsigned_int)%nat).
  assert (exists r1 s1,
             munmap (counters c) n s = Ok r1 s1 /\
             (forall a m,
                 maps s1 !! a = Some m <->
                 maps s0 !! a = Some m /\
                 ~ exists j c', (j < S i)%nat /\ class_entry s0 j = Some c' /\
                                counters c' = a /\
                                m.2 = (n_counters c' * sizeof_unsigned_int)%nat) /\
             fds s1 = fds s /\
             heap s1 = heap s /\ brk s1 = brk s /\ allocs s1 = allocs s /\
             shm_log s1 = shm_log s /\ dispatched s1 = dispatched s /\
             openafs_class_lst s1 = openafs_class_lst s /\
             openafs_class_lst_len s1 = openafs_class_lst_len s)
    as (r1 & s1 & Hrun1 & Hm1 & Hf1 & Hrest1).
  { unfold munmap.
    destruct (maps s !! counters c) as [[obj len']|] eqn:Hmc;
      [destruct (Nat.eqb n len') eqn:Hlen|].
    - apply Nat.eqb_eq in Hlen. subst len'.
      eexists; eexists; split; [reflexivity|]. split; [|repeat split].
      intros a m. simpl. destruct (decide (a = counters c)) as [->|Hne].
      + rewrite lookup_delete_eq. split; [discriminate|].
        intros [H0 Hn]. exfalso. apply Hn. exists i, c.
        split; [lia|]. split; [auto|]. split; [auto|].
        assert (maps s !! counters c = Some m) as Hs.
        { apply Hm. split; [auto|]. intros (j & c' & Hj & H). apply Hn.
          exists j, c'. split; [lia | exact H]. }
        rewrite Hmc in Hs. now injection Hs as <-.
      + rewrite lookup_delete_ne by auto. rewrite Hm.
        split; intros [H0 Hn]; (split; [auto|]).
        * intros (j & c' & Hj & Hc' & Ha & Hl).
          destruct (Hlast j c' Hj Hc') as [Hlt| ->]; [|congruence].
          apply Hn. exists j, c'. auto.
        * intros (j & c' & Hj & H). apply Hn. exists j, c'.
          split; [lia | exact H].
    - apply Nat.eqb_neq in Hlen.
      eexists; eexists; split; [reflexivity|]. split; [|repeat split].
      intros a m. rewrite Hm. split; intros [H0 Hn]; (split; [auto|]).
      + intros (j & c' & Hj & Hc' & Ha & Hl).
        destruct (Hlast j c' Hj Hc') as [Hlt| ->].
        * apply Hn. exists j, c'. auto.
        * assert (maps s !! counters c = Some m) as Hs.
          { subst a. apply Hm. split; [auto|]. exact Hn. }
          rewrite Hmc in Hs. injection Hs as <-. simpl in Hl. fold n in Hl.
          congruence.
      + intros (j & c' & Hj & H). apply Hn. exists j, c'.
        split; [lia | exact H].
    - eexists; eexists; split; [reflexivity|]. split; [|repeat split].
      intros a m. rewrite Hm. split; intros [H0 Hn]; (split; [auto|]).
      + intros (j & c' & Hj & Hc' & Ha & Hl).
        destruct (Hlast j c' Hj Hc') as [Hlt| ->].
        * apply Hn. exists j, c'. auto.
        * assert (maps s !! counters c = Some m) as Hs.
          { subst a. apply Hm. split; [auto|]. exact Hn. }
          rewrite Hmc in Hs. discriminate.
      + intros (j & c' & Hj & H). apply Hn. exists j, c'.
        split; [lia | exact H]. }
  destruct Hrest1 as (Hh1 & Hb1 & Ha1 & Hl1 & Hd1 & Hp1 & Hn1).
  exists r1, s1. unfold close. rewrite Hf1.
  destruct (fds s !! fd c) as [x0|] eqn:Hfc.
  - eexists; eexists; split; [exact Hrun1|]. split; [reflexivity|].
    split; [|simpl; repeat split; auto].
    split; [exact Hm1|]. intros d x. simpl.
    destruct (decide (d = fd c)) as [->|Hne].
    + rewrite lookup_delete_eq. split; [discriminate|].
      intros [_ Hn]. exfalso. apply Hn. exists i, c. split; [lia|auto].
    + rewrite lookup_delete_ne by auto. rewrite Hf.
      split; intros [H0 Hn]; (split; [auto|]).
      * intros (j & c' & Hj & Hc' & Hd).
        destruct (Hlast j c' Hj Hc') as [Hlt| ->]; [|congruence].
        apply Hn. exists j, c'. auto.
      * intros (j & c' & Hj & H). apply Hn. exists j, c'.
        split; [lia | exact H].
  - eexists; eexists; split; [exact Hrun1|]. split; [reflexivity|].
    split; [|repeat split; auto].
    split; [exact Hm1|]. intros d x. rewrite Hf1, Hf.
    split; intros [H0 Hn]; (split; [auto|]).
    + intros (j & c' & Hj & Hc' & Hd).
      destruct (Hlast j c' Hj Hc') as [Hlt| ->].
      * apply Hn. exists j, c'. auto.
      * assert (fds s !! fd c = Some x) as Hs.
        { subst d. apply Hf. split; [auto|]. exact Hn. }
        rewrite Hfc in Hs. discriminate.
    + intros (j & c' & Hj & H). apply Hn. exists j, c'.
      split; [lia | exact H].
Qed.

Lemma torn_same_heap s0 done s s' :
  heap s' = heap s -> brk s' = brk s -> allocs s' = allocs s ->
  shm_log s' = shm_log s -> dispatched s' = dispatched s ->
  openafs_class_lst s' = openafs_class_lst s ->
  openafs_class_lst_len s' = openafs_class_lst_len s ->
  torn s0 done s -> torn s0 done s'.
Proof.
  intros Hh Hb Ha Hl Hd Hp Hn [Hds Hhp Hsl He Hr].
  destruct (dsafe_same_heap done s s' Hh Hp Hn Hds) as [Hds' He'].
  split; auto.
  - intros a b. rewrite Hh. apply Hhp.
  - intros [i|i j]; rewrite <- Hsl; simpl; rewrite He'; [reflexivity|].
    unfold ptrs_at. now rewrite Hh.
  - intros i. now rewrite He'.
  - destruct Hr as (? & ? & ? & ? & ? & ?). repeat split; congruence.
Qed.

Lemma unhooked_same s0 i s s' :
  maps s' = maps s -> fds s' = fds s -> unhooked s0 i s -> unhooked s0 i s'.
Proof. intros Hm Hf [H1 H2]. split; intros a m; rewrite ?Hm, ?Hf; auto. Qed.

(** The loop of [openafs_destroy], from its [from]-th iteration on, with
    what it has released. *)
Lemma destroy_loop_torn s0 :
  heap s0 !! NULL = None ->
  forall k from s,
    (from + k = openafs_class_lst_len s)%nat ->
    torn s0 (done_upto from) s -> unhooked s0 from s ->
    exists s',
      for_each (fun i =>
                  classp ← load_class i;
                  munmap (counters classp)
                         (n_counters classp * sizeof_unsigned_int);;
                  close (fd classp);;
                  free (class classp);;
                  _openafs_release_labels i) from k s = Ok tt s' /\
      torn s0 (done_upto (from + k)) s' /\
      unhooked s0 (from + k) s'.
Proof.
  intros Hnull. induction k as [|k IH]; intros from s Hfk Ht Hu.
  - exists s. split; [reflexivity|]. rewrite Nat.add_0_r. auto.
  - destruct (d_lst _ s (t_dsafe _ _ _ Ht)) as (l & Hl & Hlen).
    assert (from < length l)%nat as Hlt by lia.
    destruct (lookup_lt_is_Some_2 _ _ Hlt) as [c Hc0].
    assert (class_entry s from = Some c) as Hc
        by (unfold class_entry; now rewrite Hl).
    assert (class_entry s0 from = Some c) as Hcs0
        by (now rewrite <- (t_entry _ _ _ Ht)).
    destruct (unhook_step s0 from c s Hu Hcs0)
      as (r1 & s1 & r2 & s2 & Hrun1 & Hrun2 & Hu2 & Hh2 & Hb2 & Ha2 & Hl2
          & Hd2 & Hp2 & Hn2).
    pose proof (torn_same_heap s0 _ s s2 Hh2 Hb2 Ha2 Hl2 Hd2 Hp2 Hn2 Ht) as Ht2.
    assert (class_entry s2 from = Some c) as Hc2
        by (now rewrite (t_entry _ _ _ Ht2)).
    assert (slot_val s2 (ClassName from) = Some (class c)) as Hsv
        by (simpl; now rewrite Hc2).
    assert (~ done_upto from (ClassName from)) as Hnd
        by (unfold done_upto; simpl; lia).
    destruct (free_slot_torn s0 _ s2 _ _ Ht2 Hnull Hsv Hnd)
      as (s3 & Hrun3 & Ht3 & Hm3 & Hf3).
    assert (torn s0 (done_in from 0) s3) as Ht3'.
    { refine (torn_weaken s0 _ _ s3 Ht3 _ _).
      - intros x [H| ->]; unfold done_in; auto.
      - intros x a [H|[->|(j' & Hj & _)]] Hn; [| |lia];
          exfalso; apply Hn; auto. }
    assert (class_entry s3 from = Some c) as Hc3
        by (now rewrite (t_entry _ _ _ Ht3)).
    destruct (release_labels_torn s0 from c s3 Hnull Ht3' Hc3)
      as (s4 & Hrun4 & Ht4 & Hm4 & Hf4).
    assert (unhooked s0 (S from) s4) as Hu4.
    { apply (unhooked_same s0 _ s2); [congruence | congruence | auto]. }
    assert (S from + k = openafs_class_lst_len s4)%nat as Hfk4.
    { destruct (t_rest _ _ _ Ht4) as (_ & _ & _ & _ & _ & ->).
      destruct (t_rest _ _ _ Ht) as (_ & _ & _ & _ & _ & <-). lia. }
    destruct (IH (S from) s4 Hfk4 Ht4 Hu4) as (s' & Hrun & Ht' & Hu').
    exists s'. split.
    + cbn [for_each]. erewrite bind_Ok; [exact Hrun|].
      rewrite (bind_Ok _ _ _ _ _ (load_class_Ok _ _ _ Hc)).
      rewrite (bind_Ok _ _ _ _ _ Hrun1), (bind_Ok _ _ _ _ _ Hrun2).
      rewrite (bind_Ok _ _ _ _ _ Hrun3). exact Hrun4.
    + replace (from + S k)%nat with (S from + k)%nat by lia. auto.
Qed.

(** [openafs_destroy] on a well-formed registry, with all it does. *)
Lemma destroy_effects s :
  safe s ->
  exists s',
    openafs_destroy s = Ok 0 s' /\
    (forall a b,
        heap s' !! a = Some b <->
        heap s !! a = Some b /\ a <> openafs_class_lst s /\
        forall l, slot_val s l <> Some a) /\
    unhooked s (openafs_class_lst_len s) s' /\
    brk s' = brk s /\ allocs s' = allocs s /\
    shm_log s' = shm_log s /\ dispatched s' = dispatched s /\
    openafs_class_lst s' = openafs_class_lst s /\
    openafs_class_lst_len s' = openafs_class_lst_len s.
Proof.
  intros Hs. pose proof (safe_null s Hs) as Hnull.
  assert (torn s (done_upto 0) s) as Ht0.
  { refine (torn_weaken s _ _ s (torn_start s Hs) _ _); [tauto|].
    intros l a Hl. unfold done_upto in Hl. lia. }
  destruct (destroy_loop_torn s Hnull (openafs_class_lst_len s) 0%nat s
              eq_refl Ht0 (unhooked_start s))
    as (s1 & Hrun & Ht & Hu).
  cbn [Nat.add] in Ht, Hu.
  destruct (d_lst _ s1 (t_dsafe _ _ _ Ht)) as (l & Hl & Hlen).
  destruct (t_rest _ _ _ Ht) as (Hb & Ha & Hlog & Hd & Hp & Hn).
  rewrite Hp in Hl.
  assert (openafs_class_lst s <> NULL) as Hpn.
  { intros Heq. rewrite Heq in Hl.
    pose proof (proj1 (t_heap _ _ _ Ht NULL _) Hl) as [H0 _]. congruence. }
  apply Z.eqb_neq in Hpn.
  exists (set_heap (delete (openafs_class_lst s) (heap s1)) s1). split.
  { unfold openafs_destroy. erewrite bind_Ok; [|reflexivity].
    rewrite (bind_Ok _ _ _ _ _ Hrun).
    unfold mbind, M_bind, free. now rewrite Hpn, Hl. }
  split; [|split; [|simpl; repeat split; auto]].
  - intros a b. simpl.
    destruct (decide (a = openafs_class_lst s)) as [->|Hne].
    + rewrite lookup_delete_eq. split; [discriminate | tauto].
    + rewrite lookup_delete_ne by auto. rewrite (t_heap _ _ _ Ht).
      split.
      * intros [H0 Hnd]. split; [auto|]. split; [auto|].
        intros x Hx. apply Hnd. exists x. split; [|auto].
        unfold done_upto.
        assert (is_Some (class_entry s (slot_idx x))) as [c Hc].
        { destruct x as [i|i j]; simpl in *;
            destruct (class_entry s i); eauto; discriminate. }
        destruct (safe_lst s Hs) as (l0 & Hl0 & Hlen0).
        unfold class_entry in Hc. rewrite Hl0 in Hc.
        apply lookup_lt_Some in Hc. lia.
      * intros (H0 & _ & Hnd). split; [auto|].
        intros (x & _ & Hx). now apply (Hnd x).
  - apply (unhooked_same s _ s1); auto.
Qed.

(** Running [openafs_destroy] once more, after it has returned. *)
Lemma destroy_twice s s' st :
  safe s -> openafs_destroy s = Ok st s' -> openafs_destroy s' = Fault.
Proof.
  intros Hs Hrun.
  destruct (destroy_effects s Hs)
    as (s1 & Hrun1 & Hheap & _ & _ & _ & _ & _ & Hp & Hn).
  rewrite Hrun in Hrun1. injection Hrun1 as -> <-.
  destruct (safe_lst s Hs) as (l & Hl & _).
  assert (openafs_class_lst s <> NULL) as Hpn.
  { intros Heq. rewrite Heq, (safe_null s Hs) in Hl. discriminate. }
  assert (heap s' !! openafs_class_lst s' = None) as Hgone.
  { rewrite Hp. destruct (heap s' !! openafs_class_lst s) as [b|] eqn:Hb;
      [|reflexivity].
    apply Hheap in Hb as (_ & Hne & _). now contradiction Hne. }
  unfold openafs_destroy. erewrite bind_Ok; [|reflexivity].
  destruct (openafs_class_lst_len s') as [|n].
  - cbn [for_each]. unfold mbind, M_bind, mret, M_ret, free.
    rewrite Hp. apply Z.eqb_neq in Hpn. rewrite Hpn.
    rewrite <- Hp, Hgone. reflexivity.
  - cbn [for_each]. unfold mbind, M_bind, load_class.
    now rewrite Hgone.
Qed.

(** A sampling pass over a registry that [openafs_destroy] has been
    through. *)
Lemma read_after_destroy e s s' st :
  safe s -> openafs_destroy s = Ok st s' ->
  (0 < openafs_class_lst_len s)%nat ->
  openafs_read e s' = Fault.
Proof.
  intros Hs Hrun Hlen.
  destruct (destroy_effects s Hs)
    as (s1 & Hrun1 & Hheap & _ & _ & _ & _ & _ & Hp & Hn).
  rewrite Hrun in Hrun1. injection Hrun1 as -> <-.
  assert (heap s' !! openafs_class_lst s' = None) as Hgone.
  { rewrite Hp. destruct (heap s' !! openafs_class_lst s) as [b|] eqn:Hb;
      [|reflexivity].
    apply Hheap in Hb as (_ & Hne & _). now contradiction Hne. }
  rewrite read_pure. unfold pass_emits.
  rewrite Hn. destruct (openafs_class_lst_len s) as [|n]; [lia|].
  cbn [collect]. unfold class_emits at 1, class_entry. now rewrite Hgone.
Qed.

(** [openafs_config], split at the allocation of the class list. *)
Lemma config_run e cfg s0 :
  startup s0 ->
  let n := children_num cfg in
  if (Nat.eqb n 0 && calloc0_null e) || alloc_fails e (allocs s0)
  then openafs_config e cfg s0
       = Ok (-1) (set_class_lst NULL (set_allocs (S (allocs s0)) s0))
  else exists st s,
      for_status (fun i =>
                    match children cfg !! i with
                    | Some child => _openafs_process_class e child i
                    | None => fault
                    end) 0 n 0 (with_class_lst n s0) = Ok st s /\
      safe s /\ extends (with_class_lst n s0) s /\
      (forall j item, children cfg !! j = Some item ->
                      st = 0 -> exists c, class_entry s j = Some c /\
                                          built e s item c) /\
      ((st = 0 /\ openafs_config e cfg s0 = Ok 0 s) \/
       (st = -1 /\ exists s', openafs_destroy s = Ok 0 s' /\
                              openafs_config e cfg s0 = Ok (-1) s')).
Proof.
  intros Hst n.
  destruct ((Nat.eqb n 0 && calloc0_null e) || alloc_fails e (allocs s0))
    eqn:Hf.
  { unfold openafs_config, calloc_classes, assign. fold n.
    unfold mbind at 1, M_bind, alloc. now rewrite Hf. }
  destruct Hst as [Hb Hst'].
  assert ((brk s0 =? NULL) = false) as Hbn
      by (apply Z.eqb_neq; unfold NULL; lia).
  assert (openafs_config e cfg s0
          = (status ← for_status (fun i =>
                           match children cfg !! i with
                           | Some child => _openafs_process_class e child i
                           | None => fault
                           end)
                        0 n 0;
             (if status =? 0 then mret 0 else openafs_destroy);;
             mret status) (with_class_lst n s0)) as Hcfg.
  { unfold openafs_config, calloc_classes, assign. fold n.
    unfold mbind at 1, M_bind, alloc. rewrite Hf.
    unfold mbind at 1, M_bind. rewrite Hbn.
    unfold mbind at 1, M_bind. reflexivity. }
  rewrite Hcfg. clear Hcfg.
  pose proof (with_class_lst_safe n s0 (conj Hb Hst')) as Hs1.
  assert (forall j, (0 <= j < children_num cfg)%nat ->
            class_entry (with_class_lst n s0) j = Some zero_class) as Hzero.
  { intros j Hj. rewrite with_class_lst_entry. fold n in Hj.
    rewrite decide_True by lia. reflexivity. }
  assert (forall j item, (j < 0)%nat -> children cfg !! j = Some item ->
            exists c, class_entry (with_class_lst n s0) j = Some c /\
                      built e (with_class_lst n s0) item c) as Hdone.
  { intros j item Hj. lia. }
  destruct (config_loop_spec e cfg n 0%nat (with_class_lst n s0)
              eq_refl Hs1 Hzero Hdone)
    as (st & s2 & Hrun & Hs2 & He2 & Hst2 & Hb2 & _).
  exists st, s2. split; [exact Hrun|]. split; [auto|]. split; [auto|]. split.
  { intros j item Hj H0. now apply Hb2. }
  rewrite (bind_Ok _ _ _ _ _ Hrun).
  destruct Hst2 as [-> | ->]; [left; split; reflexivity|right].
  split; [reflexivity|].
  destruct (destroy_spec s2 Hs2) as (s3 & Hd). exists s3. split; [exact Hd|].
  change (-1 =? 0) with false. cbv iota.
  now rewrite (bind_Ok _ _ _ _ _ Hd).
Qed.

(** A registry that [openafs_config] has built is well formed. *)
Lemma configured_safe e cfg s0 s :
  startup s0 -> openafs_config e cfg s0 = Ok 0 s -> safe s.
Proof.
  intros Hst Hcfg.
  destruct (config_spec e cfg s0 Hst) as (st & s1 & Hrun & _ & Hok & _).
  rewrite Hcfg in Hrun. injection Hrun as <- <-. now apply Hok.
Qed.

(** ** X9 (what teardown frees).
    On a registry that [openafs_config] has built, [openafs_destroy]
    returns 0 and frees the class list and the strings that the [class]
    members and the elements of the label arrays point to, and no other
    block: every other block that was allocated still is, with its
    contents. It allocates nothing, opens nothing, emits nothing, and
    leaves [openafs_class_lst] and [openafs_class_lst_len] as they were,
    the former now dangling. *)
Theorem teardown_frees_list_and_strings e cfg s0 s :
  startup s0 ->
  openafs_config e cfg s0 = Ok 0 s ->
  exists s',
    openafs_destroy s = Ok 0 s' /\
    (forall a b,
        heap s' !! a = Some b <->
        heap s !! a = Some b /\ a <> openafs_class_lst s /\
        forall l, slot_val s l <> Some a) /\
    brk s' = brk s /\ allocs s' = allocs s /\
    shm_log s' = shm_log s /\ dispatched s' = dispatched s /\
    openafs_class_lst s' = openafs_class_lst s /\
    openafs_class_lst_len s' = openafs_class_lst_len s.
Proof.
  intros Hst Hcfg.
  destruct (destroy_effects s (configured_safe e cfg s0 s Hst Hcfg))
    as (s' & Hrun & Hheap & _ & Hrest).
  exists s'. auto.
Qed.

Lemma teardown_frees_list_and_strings_witness :
  exists s s',
    openafs_config afs_env afs_config initial_state = Ok 0 s /\
    openafs_destroy s = Ok 0 s' /\
    heap s' !! openafs_class_lst s' = None /\
    openafs_class_lst s' <> NULL.
Proof.
  eexists.
  assert (openafs_config afs_env afs_config initial_state = Ok 0 _) as Hcfg
      by (vm_compute; reflexivity).
  destruct (teardown_frees_list_and_strings
              afs_env afs_config initial_state _ startup_initial Hcfg)
    as (s' & Hrun & Hheap & _ & _ & _ & _ & Hp & _).
  exists s'. split; [exact Hcfg|]. split; [exact Hrun|]. split.
  - destruct (heap s' !! openafs_class_lst s') as [b|] eqn:Hb; [|reflexivity].
    apply Hheap in Hb as (_ & Hne & _). now contradiction Hne.
  - rewrite Hp. vm_compute. discriminate.
Defined.

(** ** X10 (what teardown unmaps and closes).
    On a registry that [openafs_config] has built, [openafs_destroy]
    removes a mapping exactly if it starts at the [counters] of some entry
    and is [n_counters * 4] bytes long, and closes a descriptor exactly if
    it is the [fd] of some entry; the entries of skipped items, which are
    still zeroed, count. *)
Theorem teardown_unmaps_and_closes e cfg s0 s :
  startup s0 ->
  openafs_config e cfg s0 = Ok 0 s ->
  exists s',
    openafs_destroy s = Ok 0 s' /\
    (forall a m,
        maps s' !! a = Some m <->
        maps s !! a = Some m /\
        forall j c, class_entry s j = Some c -> counters c = a ->
                    m.2 <> (n_counters c * sizeof_unsigned_int)%nat) /\
    (forall d x,
        fds s' !! d = Some x <->
        fds s !! d = Some x /\
        forall j c, class_entry s j = Some c -> fd c <> d).
Proof.
  intros Hst Hcfg.
  pose proof (configured_safe e cfg s0 s Hst Hcfg) as Hs.
  destruct (destroy_effects s Hs) as (s' & Hrun & _ & [Hm Hf] & _).
  assert (forall j c, class_entry s j = Some c ->
                      (j < openafs_class_lst_len s)%nat) as Hlt.
  { intros j c Hc. destruct (safe_lst s Hs) as (l & Hl & <-).
    unfold class_entry in Hc. rewrite Hl in Hc.
    now apply lookup_lt_Some in Hc. }
  exists s'. split; [exact Hrun|]. split.
  - intros a m. rewrite Hm. split; intros [H0 Hn]; (split; [exact H0|]).
    + intros j c Hc Ha Hlen. apply Hn. exists j, c. eauto.
    + intros (j & c & _ & Hc & Ha & Hlen). exact (Hn j c Hc Ha Hlen).
  - intros d x. rewrite Hf. split; intros [H0 Hn]; (split; [exact H0|]).
    + intros j c Hc Hd. apply Hn. exists j, c. eauto.
    + intros (j & c & _ & Hc & Hd). exact (Hn j c Hc Hd).
Qed.

Lemma teardown_unmaps_and_closes_witness :
  exists s s',
    openafs_config afs_env afs_config initial_state = Ok 0 s /\
    openafs_destroy s = Ok 0 s' /\
    fds s !! 3 = Some (ShmObject "/afs") /\
    fds s' !! 3 = None.
Proof.
  eexists.
  assert (openafs_config afs_env afs_config initial_state = Ok 0 _) as Hcfg
      by (vm_compute; reflexivity).
  destruct (teardown_unmaps_and_closes
              afs_env afs_config initial_state _ startup_initial Hcfg)
    as (s' & Hrun & _ & Hf).
  exists s'. split; [exact Hcfg|]. split; [exact Hrun|].
  split; [vm_compute; reflexivity|].
  destruct (fds s' !! 3) as [x|] eqn:Hx; [|reflexivity].
  apply Hf in Hx as [_ Hn]. exfalso.
  apply (Hn 0%nat (mk_class 3 2 4 3 2)); vm_compute; reflexivity.
Defined.

(** ** X11 (label arrays are never freed).
    For every class block of an accepted configuration, the label array of
    its entry, one element per child, is still allocated after
    [openafs_destroy] has returned, with the pointers to the labels, all of
    them freed, still in it. *)
Theorem label_arrays_outlive_teardown e cfg s0 s j item :
  startup s0 ->
  openafs_config e cfg s0 = Ok 0 s ->
  children cfg !! j = Some item ->
  strcasecmp "Class" (key item) = 0 ->
  exists s' c lp,
    openafs_destroy s = Ok 0 s' /\
    class_entry s j = Some c /\
    length lp = children_num item /\
    heap s !! labels c = Some (BPtrs lp) /\
    heap s' !! labels c = Some (BPtrs lp) /\
    forall i p, lp !! i = Some p -> heap s' !! p = None.
Proof.
  intros Hst Hcfg Hj Hkey. apply Z.eqb_eq in Hkey.
  destruct (config_spec e cfg s0 Hst) as (st & s1 & Hrun & _ & Hok & _).
  rewrite Hcfg in Hrun. injection Hrun as <- <-.
  destruct (Hok eq_refl) as (Hs & _ & _ & Hbuilt).
  destruct (Hbuilt j item Hj) as (c & Hc & Hb).
  unfold built in Hb. rewrite Hkey in Hb.
  destruct Hb as (name & _ & _ & _ & _ & _ & _ & lp & Hlp & Hlen & _).
  destruct (destroy_effects s Hs) as (s' & Hrun & Hheap & _).
  exists s', c, lp. do 4 (split; [assumption|]).
  destruct (safe_lst s Hs) as (l & Hl & _). split.
  - apply Hheap. split; [exact Hlp|]. split.
    + intros Heq. rewrite Heq, Hl in Hlp. discriminate.
    + intros x Hx.
      assert (labels c <> NULL) as Hn.
      { intros Heq. rewrite Heq, (safe_null s Hs) in Hlp. discriminate. }
      destruct (safe_slots s Hs x _ Hx Hn) as [str Hstr].
      rewrite Hstr in Hlp. discriminate.
  - intros i p Hi. destruct (heap s' !! p) as [b|] eqn:Hb; [|reflexivity].
    apply Hheap in Hb as (_ & _ & Hn). exfalso. apply (Hn (Label j i)).
    simpl. rewrite Hc. unfold ptrs_at. now rewrite Hlp.
Qed.

Lemma label_arrays_outlive_teardown_witness :
  exists s s' c,
    openafs_config afs_env afs_config initial_state = Ok 0 s /\
    openafs_destroy s = Ok 0 s' /\
    class_entry s 0 = Some c /\
    is_Some (heap s' !! labels c).
Proof.
  eexists.
  assert (openafs_config afs_env afs_config initial_state = Ok 0 _) as Hcfg
      by (vm_compute; reflexivity).
  destruct (label_arrays_outlive_teardown
              afs_env afs_config initial_state _ 0%nat _
              startup_initial Hcfg eq_refl eq_refl)
    as (s' & c & lp & Hrun & Hc & _ & _ & Hlp & _).
  exists s', c. split; [exact Hcfg|]. split; [exact Hrun|].
  split; [exact Hc|]. rewrite Hlp. eauto.
Defined.

(** ** X12 (teardown cannot be run twice).
    Once [openafs_destroy] has returned on a registry that
    [openafs_config] has built, running it again is undefined: the globals
    still designate the class list, which has been freed. *)
Theorem teardown_is_not_reentrant e cfg s0 s st s' :
  startup s0 ->
  openafs_config e cfg s0 = Ok 0 s ->
  openafs_destroy s = Ok st s' ->
  openafs_destroy s' = Fault.
Proof.
  intros Hst Hcfg Hrun.
  exact (destroy_twice s s' st (configured_safe e cfg s0 s Hst Hcfg) Hrun).
Qed.

Lemma teardown_is_not_reentrant_witness :
  exists s s',
    openafs_config afs_env_nomap afs_one_config initial_state = Ok 0 s /\
    openafs_destroy s = Ok 0 s' /\
    openafs_destroy s' = Fault.
Proof.
  eexists.
  assert (openafs_config afs_env_nomap afs_one_config initial_state = Ok 0 _)
    as Hcfg by (vm_compute; reflexivity).
  eexists.
  match type of Hcfg with
  | _ = Ok 0 ?s =>
      assert (openafs_destroy s = Ok 0 _) as Hrun by (vm_compute; reflexivity)
  end.
  split; [exact Hcfg|]. split; [exact Hrun|].
  exact (teardown_is_not_reentrant _ _ _ _ _ _ startup_initial Hcfg Hrun).
Defined.

(** ** X13 (the callbacks after a failed configuration).
    When [openafs_config] fails after it has allocated the class list, it
    has run [openafs_destroy] itself and left [openafs_class_lst] and
    [openafs_class_lst_len] in place. [module_register] registers the read
    and the shutdown callback whatever the configuration callback returns:
    a later run of either, [openafs_read] or [openafs_destroy], is then
    undefined. *)
Theorem callbacks_after_failed_configuration_fault e cfg s0 s :
  startup s0 ->
  openafs_config e cfg s0 = Ok (-1) s ->
  openafs_class_lst s <> NULL ->
  openafs_destroy s = Fault /\ forall e', openafs_read e' s = Fault.
Proof.
  intros Hst Hcfg Hlst. pose proof (config_run e cfg s0 Hst) as Hrun.
  cbv zeta in Hrun.
  destruct (_ || _).
  - rewrite Hcfg in Hrun. injection Hrun as ->. now contradiction Hlst.
  - destruct Hrun
      as (st & s2 & Hloop & Hs2 & He & _ & [[_ Hrun]|(-> & s3 & Hd & Hrun)]);
      rewrite Hcfg in Hrun; [discriminate|].
    injection Hrun as ->. split; [exact (destroy_twice s2 s3 0 Hs2 Hd)|].
    intros e'. apply (read_after_destroy e' s2 s3 0 Hs2 Hd).
    rewrite (ext_len _ _ He). simpl.
    destruct (children_num cfg); [discriminate | lia].
Qed.

Lemma callbacks_after_failed_configuration_fault_witness :
  exists s,
    openafs_config afs_env_oom afs_config initial_state = Ok (-1) s /\
    openafs_destroy s = Fault /\ openafs_read afs_env s = Fault.
Proof.
  eexists.
  assert (openafs_config afs_env_oom afs_config initial_state = Ok (-1) _)
    as Hcfg by (vm_compute; reflexivity).
  split; [exact Hcfg|].
  destruct (callbacks_after_failed_configuration_fault
              afs_env_oom afs_config initial_state _ startup_initial Hcfg)
    as [Hd Hr]; [vm_compute; discriminate|].
  split; [exact Hd | apply Hr].
Defined.

(** ** X14 (a skipped item costs descriptor 0).
    If an accepted configuration has a top-level item that is not keyed
    "Class", the entry of that item is still zeroed when [openafs_destroy]
    runs, and [close(classp->fd)] closes descriptor 0: whatever the process
    had open there is no longer open afterwards. *)
Theorem skipped_item_makes_teardown_close_descriptor_0 e cfg s0 s j item :
  startup s0 ->
  openafs_config e cfg s0 = Ok 0 s ->
  children cfg !! j = Some item ->
  strcasecmp "Class" (key item) <> 0 ->
  exists s', openafs_destroy s = Ok 0 s' /\ fds s' !! 0 = None.
Proof.
  intros Hst Hcfg Hj Hkey. apply Z.eqb_neq in Hkey.
  destruct (config_spec e cfg s0 Hst) as (st & s1 & Hrun & _ & Hok & _).
  rewrite Hcfg in Hrun. injection Hrun as <- <-.
  destruct (Hok eq_refl) as (Hs & Hlen & _ & Hbuilt).
  destruct (Hbuilt j item Hj) as (c & Hc & Hb).
  unfold built in Hb. rewrite Hkey in Hb. subst c.
  destruct (destroy_effects s Hs) as (s' & Hrun & _ & [_ Hf] & _).
  exists s'. split; [exact Hrun|].
  destruct (fds s' !! 0) as [x|] eqn:Hx; [|reflexivity].
  apply Hf in Hx as [_ Hn]. exfalso. apply Hn. exists j, zero_class.
  split; [|auto]. rewrite Hlen. apply lookup_lt_Some in Hj. exact Hj.
Qed.

Lemma skipped_item_makes_teardown_close_descriptor_0_witness :
  exists s s',
    openafs_config afs_env afs_after_foreign_config initial_state = Ok 0 s /\
    fds s !! 0 = Some StdStream /\
    openafs_destroy s = Ok 0 s' /\ fds s' !! 0 = None.
Proof.
  eexists.
  assert (openafs_config afs_env afs_after_foreign_config initial_state
          = Ok 0 _) as Hcfg by (vm_compute; reflexivity).
  destruct (skipped_item_makes_teardown_close_descriptor_0
              afs_env afs_after_foreign_config initial_state _ 0%nat _
              startup_initial Hcfg eq_refl)
    as (s' & Hrun & H0); [vm_compute; discriminate|].
  exists s'. split; [exact Hcfg|]. split; [vm_compute; reflexivity|]. auto.
Defined.

(** ** X15 (construction leaves the rest of the process alone).
    An accepted configuration changes no block and no mapping that existed
    before the call, and sends nothing to the sink; as the callback takes
    whatever the globals held on entry to be garbage, a registry built by an
    earlier call stays allocated and mapped, and is lost. *)
Theorem configuration_leaves_the_host_alone e cfg s0 s :
  startup s0 ->
  openafs_config e cfg s0 = Ok 0 s ->
  (forall a b, heap s0 !! a = Some b -> heap s !! a = Some b) /\
  (forall a m, maps s0 !! a = Some m -> maps s !! a = Some m) /\
  dispatched s = dispatched s0 /\
  openafs_class_lst s = brk s0.
Proof.
  intros Hst Hcfg. pose proof (config_run e cfg s0 Hst) as Hrun.
  cbv zeta in Hrun. destruct (_ || _).
  { rewrite Hcfg in Hrun. discriminate. }
  destruct Hrun
    as (st & s2 & _ & Hs2 & He & _ & [[_ Hrun]|(_ & s3 & _ & Hrun)]);
    rewrite Hcfg in Hrun; [|discriminate].
  injection Hrun as ->. destruct Hst as (Hb & Hh & Hm).
  split; [|split; [|split]].
  - intros a b Ha. pose proof (Hh a b Ha) as Hlt.
    rewrite (ext_heap _ _ He); simpl; [|lia|lia].
    rewrite lookup_insert_ne by lia. exact Ha.
  - intros a m Ha. pose proof (Hm a m Ha) as Hlt.
    rewrite (ext_maps _ _ He); simpl; [exact Ha|lia].
  - now rewrite (ext_disp _ _ He).
  - now rewrite (ext_lst _ _ He).
Qed.

Lemma configuration_leaves_the_host_alone_witness :
  exists s1 s2 lst,
    openafs_config afs_env afs_config initial_state = Ok 0 s1 /\
    openafs_config afs_env afs_config s1 = Ok 0 s2 /\
    heap s2 !! openafs_class_lst s1 = Some (BClasses lst) /\
    openafs_class_lst s2 <> openafs_class_lst s1.
Proof.
  eexists.
  assert (openafs_config afs_env afs_config initial_state = Ok 0 _) as Hcfg1
      by (vm_compute; reflexivity).
  eexists.
  match type of Hcfg1 with
  | _ = Ok 0 ?s =>
      assert (openafs_config afs_env afs_config s = Ok 0 _) as Hcfg2
        by (vm_compute; reflexivity);
      assert (startup s) as Hst
  end.
  { split; [vm_compute; reflexivity|].
    pose proof (configured_safe _ _ _ _ startup_initial Hcfg1) as Hs.
    split; [apply (safe_heap _ Hs) | apply (safe_maps _ Hs)]. }
  destruct (configuration_leaves_the_host_alone _ _ _ _ Hst Hcfg2)
    as (Hheap & _ & _ & Hlst).
  eexists. split; [exact Hcfg1|]. split; [exact Hcfg2|]. split.
  - apply Hheap. vm_compute. reflexivity.
  - rewrite Hlst. vm_compute. discriminate.
Defined.

(** ** What the registry accounts for

    While the registry is built, the entries of the class list hold nothing
    that the process had before the class list was allocated at [b0], and
    everything that has been allocated, mapped or opened since is held by an
    entry, apart from at most one block [ph], one mapping [pm] and one
    descriptor [pf] that have just been obtained and are about to be stored.
    [f0] is the descriptor table the process had. Descriptor 0 is left out:
    it is what a zeroed entry holds. *)

Record owned (b0 : ptr) (f0 : gmap Z file) (ph : option ptr)
    (pm : option (ptr * nat)) (pf : option Z) (s : state) : Prop := mk_owned {
  o_lst : openafs_class_lst s = b0;
  o_slot : forall l p, slot_val s l = Some p -> p <> NULL -> b0 < p;
  o_labels : forall i c, class_entry s i = Some c -> labels c <> NULL ->
                         b0 < labels c;
  o_counters : forall i c, class_entry s i = Some c ->
      counters c = NULL \/ counters c = MAP_FAILED \/ b0 < counters c;
  o_fd : forall i c, class_entry s i = Some c ->
      fd c = 0 \/ fd c = -1 \/ f0 !! fd c = None;
  o_fds_host : forall d x, f0 !! d = Some x -> fds s !! d = Some x;
  o_heap : forall a b, heap s !! a = Some b -> b0 < a ->
      (exists i c, class_entry s i = Some c /\ labels c = a) \/
      (exists l, slot_val s l = Some a) \/ ph = Some a;
  o_maps : forall a m, maps s !! a = Some m -> b0 < a ->
      (exists i c, class_entry s i = Some c /\ counters c = a /\
                   m.2 = (n_counters c * sizeof_unsigned_int)%nat) \/
      pm = Some (a, m.2);
  o_fds : forall d x, fds s !! d = Some x -> d <> 0 ->
      f0 !! d = Some x \/
      (exists i c, class_entry s i = Some c /\ fd c = d) \/ pf = Some d
}.

(** [lowest_free] finds a descriptor that is not open. *)
Lemma lowest_free_none (f : gmap Z file) :
  forall fuel n (g : gmap Z file),
    (forall k, n <= k -> is_Some (f !! k) -> is_Some (g !! k)) ->
    (size g <= fuel)%nat ->
    f !! lowest_free f n fuel = None.
Proof.
  induction fuel as [|fuel IH]; intros n g Hg Hsz; simpl.
  - destruct (f !! n) as [x|] eqn:Hn; [|reflexivity].
    assert (g = ∅) as -> by (apply map_size_empty_iff; lia).
    destruct (Hg n) as [y Hy]; [lia | eauto |].
    rewrite lookup_empty in Hy. discriminate.
  - destruct (f !! n) as [x|] eqn:Hn; [|exact Hn].
    apply (IH (n + 1) (delete n g)).
    + intros k Hk Hfk. rewrite lookup_delete_ne by lia. apply Hg; [lia | auto].
    + rewrite map_size_delete_Some by (apply Hg; [lia | eauto]). lia.
Qed.

Lemma lowest_free_fresh (f : gmap Z file) :
  f !! lowest_free f 0 (size f) = None.
Proof. apply (lowest_free_none f (size f) 0 f); auto. Qed.

Section owned.
Variables (b0 : ptr) (f0 : gmap Z file).

(** Steps that change nothing [owned] looks at. *)
Lemma owned_same ph pm pf s s' :
  heap s' = heap s -> maps s' = maps s -> fds s' = fds s ->
  openafs_class_lst s' = openafs_class_lst s ->
  owned b0 f0 ph pm pf s -> owned b0 f0 ph pm pf s'.
Proof.
  intros Hh Hm Hf Hl [].
  assert (forall i, class_entry s' i = class_entry s i) as He.
  { intros i. unfold class_entry. now rewrite Hh, Hl. }
  assert (forall l, slot_val s' l = slot_val s l) as Hsv.
  { intros [i|i j]; simpl; rewrite He; [reflexivity|].
    unfold ptrs_at. now rewrite Hh. }
  split; try setoid_rewrite He; try setoid_rewrite Hsv;
    rewrite ?Hh, ?Hm, ?Hf, ?Hl; auto.
Qed.

(** Slots are read the same way after a step that only adds to memory. *)
Lemma extends_slot s s' l :
  safe s -> safe s' -> extends s s' ->
  (forall i, class_entry s' i = class_entry s i) ->
  slot_val s' l = slot_val s l.
Proof.
  intros Hs Hs' He Hent. destruct l as [i|i j]; simpl; rewrite Hent;
    [reflexivity|].
  destruct (class_entry s i) as [c|] eqn:Hc; [|reflexivity].
  destruct (decide (labels c = NULL)) as [->|Hn].
  - now rewrite !ptrs_at_null.
  - destruct (safe_labels s Hs i c Hc Hn) as (lp & Hlp & _).
    unfold ptrs_at. rewrite Hlp.
    now rewrite (extends_block s s' _ _ Hs He Hlp) by discriminate.
Qed.

Lemma alloc_owned e z b pm pf s p s' :
  safe s -> b0 < brk s -> owned b0 f0 None pm pf s ->
  alloc e z b s = Ok p s' ->
  (p = NULL -> owned b0 f0 None pm pf s') /\
  (p <> NULL -> owned b0 f0 (Some p) pm pf s' /\ b0 < p).
Proof.
  intros Hs Hb Ho Hrun.
  destruct (alloc_spec e z b s Hs)
    as (p1 & s1 & Halloc & Hs1 & He1 & Hent1 & _ & Hmaps1 & Hfds1 & Hp & _).
  rewrite Hrun in Halloc. injection Halloc as <- <-.
  pose proof (fun l => extends_slot s s' l Hs Hs1 He1 Hent1) as Hsv.
  assert (forall a b', heap s' !! a = Some b' -> a <> brk s ->
                       heap s !! a = Some b') as Hold.
  { intros a b' Ha Hne. revert Hrun Ha. unfold alloc.
    destruct (_ || _); intros [= <- <-]; simpl; [auto|].
    now rewrite lookup_insert_ne by auto. }
  assert (p = NULL -> heap s' = heap s) as Hnull.
  { intros Hpn. revert Hrun. unfold alloc.
    destruct (_ || _); intros [= Hpe <-]; [reflexivity|].
    pose proof (safe_brk s Hs). unfold NULL in Hpn. lia. }
  destruct Ho. split.
  - intros Hpn. split; try setoid_rewrite Hent1; try setoid_rewrite Hsv;
      rewrite ?Hmaps1, ?Hfds1, ?(ext_lst _ _ He1), ?(Hnull Hpn); auto.
  - intros Hpn. destruct (Hp Hpn) as (_ & _ & ->). split; [|exact Hb].
    split; try setoid_rewrite Hent1; try setoid_rewrite Hsv;
      rewrite ?Hmaps1, ?Hfds1, ?(ext_lst _ _ He1); auto.
    intros a b' Ha Hlt. destruct (decide (a = brk s)) as [->|Hne]; [auto|].
    destruct (o_heap0 a b' (Hold a b' Ha Hne) Hlt) as [H|[H|H]];
      [auto | auto | discriminate].
Qed.

Lemma shm_open_owned e name ph pm s d s' :
  owned b0 f0 ph pm None s ->
  shm_open e name s = Ok d s' ->
  owned b0 f0 ph pm (if d <? 0 then None else Some d) s' /\
  (d = -1 \/ (0 <= d /\ f0 !! d = None)).
Proof.
  intros Ho. unfold shm_open. destruct (shm_objects e name) as [ws|].
  - intros [= <- <-]. set (d := lowest_free (fds s) 0 (size (fds s))).
    pose proof (lowest_free_ge (fds s) (size (fds s)) 0) as Hge. fold d in Hge.
    pose proof (lowest_free_fresh (fds s)) as Hfresh. fold d in Hfresh.
    assert (f0 !! d = None) as Hf0.
    { destruct (f0 !! d) as [x|] eqn:Hx; [|reflexivity].
      apply (o_fds_host _ _ _ _ _ _ Ho) in Hx. congruence. }
    assert ((d <? 0) = false) as -> by (apply Z.ltb_ge; lia).
    split; [|right; auto]. destruct Ho. split; auto.
    + intros d' x Hd'. simpl.
      rewrite lookup_insert_ne by congruence. auto.
    + intros d' x. simpl. destruct (decide (d' = d)) as [->|Hne]; [auto|].
      rewrite lookup_insert_ne by congruence. intros Hd' Hn0.
      destruct (o_fds0 d' x Hd' Hn0) as [H|[H|H]]; [auto | auto | discriminate].
  - intros [= <- <-]. split; [|now left].
    change (-1 <? 0) with true. cbv iota.
    now apply (owned_same _ _ _ s).
Qed.

Lemma mmap_owned e len d ph pf s m s' :
  safe s -> b0 < brk s -> owned b0 f0 ph None pf s ->
  mmap e len d s = Ok m s' ->
  (m = MAP_FAILED /\ owned b0 f0 ph None pf s') \/
  (b0 < m /\ owned b0 f0 ph (Some (m, len)) pf s').
Proof.
  intros Hs Hb Ho. unfold mmap.
  destruct (fds s !! d) as [[|name]|]; try (intros [= <- <-]; now left).
  destruct (_ || _); intros [= <- <-]; [now left|]. right.
  split; [exact Hb|]. destruct Ho. split; auto.
  intros a m. simpl. destruct (decide (a = brk s)) as [->|Hne].
  - rewrite lookup_insert_eq. intros [= <-] _. now right.
  - rewrite lookup_insert_ne by congruence. intros Ha Hlt.
    destruct (o_maps0 a m Ha Hlt) as [H|H]; [auto | discriminate].
Qed.

(** Storing into entry [i]: each member either stays as it is, or was still
    as [calloc] left it and takes something new. *)
Lemma put_class_owned ph pm pf ph' pm' pf' s i c c' :
  safe s -> class_entry s i = Some c ->
  owned b0 f0 ph pm pf s ->
  (class c' = class c \/ (class c = NULL /\ b0 < class c')) ->
  (labels c' = labels c \/
   (labels c = NULL /\ b0 < labels c' /\
    forall k p, ptrs_at s (labels c') !! k = Some p -> p = NULL)) ->
  ((counters c' = counters c /\
    (n_counters c' = n_counters c \/ counters c = NULL)) \/
   (counters c = NULL /\ (counters c' = MAP_FAILED \/ b0 < counters c'))) ->
  (fd c' = fd c \/ (fd c = 0 /\ (fd c' = -1 \/ f0 !! fd c' = None))) ->
  (forall a, ph = Some a -> ph' = Some a \/ a = class c' \/ a = labels c') ->
  (forall a n, pm = Some (a, n) ->
     pm' = Some (a, n) \/
     (a = counters c' /\ n = (n_counters c' * sizeof_unsigned_int)%nat)) ->
  (forall d, pf = Some d -> pf' = Some d \/ d = fd c') ->
  owned b0 f0 ph' pm' pf' (put_class i c' s).
Proof.
  intros Hs Hc Ho Hcls Hlab Hcnt Hfd Hph Hpm Hpf.
  pose proof (put_class_entry s i c c' Hc) as Hent.
  pose proof (put_class_slot s i c c' Hs Hc) as Hslot.
  assert (class_entry (put_class i c' s) i = Some c') as Hi
      by (rewrite Hent; now rewrite decide_True).
  assert (forall j cj, j <> i -> class_entry s j = Some cj ->
                       class_entry (put_class i c' s) j = Some cj) as Hj.
  { intros j cj Hne Hcj. rewrite Hent. now rewrite decide_False. }
  assert (0 < b0) as Hb0.
  { destruct (safe_lst s Hs) as (l & Hl & _).
    apply (safe_heap s Hs) in Hl. rewrite (o_lst _ _ _ _ _ _ Ho) in Hl. lia. }
  destruct Ho. split.
  - exact o_lst0.
  - intros l p. rewrite Hslot. destruct l as [j|j k];
      destruct (decide (j = i)) as [->|Hne]; try apply o_slot0.
    + intros [= <-] Hn. destruct Hcls as [Heq|[_ Hlt]]; [|exact Hlt].
      apply (o_slot0 (ClassName i)); [|congruence]. simpl. rewrite Hc.
      congruence.
    + intros Hk Hn. destruct Hlab as [Heq|(_ & _ & Hz)].
      * apply (o_slot0 (Label i k)); [|auto]. simpl. rewrite Hc. congruence.
      * now apply Hz in Hk.
  - intros j cj. rewrite Hent. destruct (decide (j = i)) as [->|Hne];
      [|apply o_labels0].
    intros [= <-] Hn. destruct Hlab as [Heq|(_ & Hlt & _)]; [|exact Hlt].
    rewrite Heq in *. now apply (o_labels0 i c).
  - intros j cj. rewrite Hent. destruct (decide (j = i)) as [->|Hne];
      [|apply o_counters0].
    intros [= <-]. destruct Hcnt as [[Heq _]|[_ [H|H]]]; auto.
    rewrite Heq. now apply (o_counters0 i c).
  - intros j cj. rewrite Hent. destruct (decide (j = i)) as [->|Hne];
      [|apply o_fd0].
    intros [= <-]. destruct Hfd as [Heq|[_ [H|H]]]; auto.
    rewrite Heq. now apply (o_fd0 i c).
  - exact o_fds_host0.
  - intros a b Ha Hlt.
    assert (heap s !! a = Some b) as Ha0.
    { rewrite <- Ha. symmetry. apply put_class_heap. rewrite o_lst0. lia. }
    destruct (o_heap0 a b Ha0 Hlt) as [(j & cj & Hcj & Hl)|[[l Hl]|Hp]].
    + left. destruct (decide (j = i)) as [->|Hne]; [|eauto].
      assert (cj = c) as -> by congruence. exists i, c'. split; [auto|].
      destruct Hlab as [Heq|[Hz _]]; [congruence|].
      rewrite Hl in Hz. unfold NULL in Hz. lia.
    + right; left. exists l. rewrite Hslot.
      destruct l as [j|j k]; destruct (decide (j = i)) as [->|Hne]; auto.
      * simpl in Hl. rewrite Hc in Hl. injection Hl as Hl.
        destruct Hcls as [Heq|[Hz _]]; [congruence|].
        rewrite Hl in Hz. unfold NULL in Hz. lia.
      * simpl in Hl. rewrite Hc in Hl.
        destruct Hlab as [Heq|[Hz _]]; [congruence|].
        rewrite Hz, ptrs_at_null in Hl by auto.
        now rewrite lookup_nil in Hl.
    + destruct (Hph a Hp) as [H|[H|H]]; [auto | |].
      * right; left. exists (ClassName i). rewrite Hslot.
        rewrite decide_True by reflexivity. congruence.
      * left. exists i, c'. auto.
  - intros a m Ha Hlt. change (maps (put_class i c' s)) with (maps s) in Ha.
    destruct (o_maps0 a m Ha Hlt) as [(j & cj & Hcj & Hcn & Hlen)|Hp].
    + left. destruct (decide (j = i)) as [->|Hne]; [|eauto 6].
      assert (cj = c) as -> by congruence. exists i, c'. split; [auto|].
      destruct Hcnt as [[Heq [Hn|Hz]]|[Hz _]];
        try (rewrite Hcn in Hz; unfold NULL in Hz; lia).
      split; congruence.
    + destruct (Hpm a _ Hp) as [H|[H1 H2]]; [auto|]. left. exists i, c'. auto.
  - intros d x Hd Hn0. change (fds (put_class i c' s)) with (fds s) in Hd.
    destruct (o_fds0 d x Hd Hn0) as [H|[(j & cj & Hcj & Hfj)|Hp]]; [auto| |].
    + right; left. destruct (decide (j = i)) as [->|Hne]; [|eauto].
      assert (cj = c) as -> by congruence. exists i, c'. split; [auto|].
      destruct Hfd as [Heq|[Hz _]]; congruence.
    + destruct (Hpf d Hp) as [H|H]; [auto|]. right; left. exists i, c'. auto.
Qed.
End owned.

Section owned_chain.
Variables (b0 : ptr) (f0 : gmap Z file).

(** Storing a fresh string into a label slot that is still null. *)
Lemma put_ptr_owned pm pf s i j c v lp :
  safe s -> class_entry s i = Some c ->
  heap s !! labels c = Some (BPtrs lp) -> lp !! j = Some NULL ->
  is_string s v -> unreferenced s v -> b0 < v ->
  owned b0 f0 (Some v) pm pf s ->
  owned b0 f0 None pm pf (put_ptr (labels c) j v s).
Proof.
  intros Hs Hc Ha Hj Hv Hun Hlt Ho.
  pose proof (put_ptr_entry s j c v lp Hs Ha) as Hent.
  pose proof (put_ptr_slot s i j c v lp Hs Hc Ha Hj) as Hslot.
  assert (0 < b0) as Hb0.
  { destruct (safe_lst s Hs) as (l & Hl & _).
    apply (safe_heap s Hs) in Hl. rewrite (o_lst _ _ _ _ _ _ Ho) in Hl. lia. }
  destruct Ho. split; try setoid_rewrite Hent; auto.
  - intros l p. rewrite Hslot. destruct (decide (l = Label i j)) as [->|Hne].
    + now intros [= <-].
    + apply o_slot0.
  - intros x b Hx Hxl. destruct (decide (x = labels c)) as [->|Hne]; [eauto|].
    assert (heap s !! x = Some b) as Hx0.
    { rewrite <- Hx. symmetry. simpl. now apply lookup_insert_ne. }
    destruct (o_heap0 x b Hx0 Hxl) as [H|[[l Hl]|[= ->]]]; [auto| |].
    + right; left. exists l. rewrite Hslot.
      destruct (decide (l = Label i j)) as [->|Hnl]; [|auto].
      simpl in Hl. rewrite Hc in Hl. unfold ptrs_at in Hl. rewrite Ha in Hl.
      rewrite Hj in Hl. injection Hl as <-. unfold NULL in Hxl. lia.
    + right; left. exists (Label i j). rewrite Hslot.
      now rewrite decide_True.
Qed.

(** [cf_util_get_string] on a label slot that is still null. *)
Lemma get_label_owned e child i j c lp s st s' :
  safe s -> class_entry s i = Some c ->
  heap s !! labels c = Some (BPtrs lp) -> lp !! j = Some NULL ->
  b0 < brk s -> owned b0 f0 None None None s ->
  cf_util_get_string e child (Label i j) s = Ok st s' ->
  owned b0 f0 None None None s'.
Proof.
  intros Hs Hc Ha Hj Hb Ho. unfold cf_util_get_string.
  destruct (values child) as [|[lab| |] [|]] eqn:Hv;
    try (now intros [= <- <-]).
  destruct (alloc_spec e false (BString lab) s Hs)
    as (p & s1 & Halloc & Hs1 & He1 & Hent1 & _ & _ & _ & Hp & _).
  destruct (alloc_owned b0 f0 e false (BString lab) None None s p s1
              Hs Hb Ho Halloc) as [Hon Hop].
  unfold strdup. rewrite (bind_Ok _ _ _ _ _ Halloc).
  assert (heap s1 !! labels c = Some (BPtrs lp)) as Ha1.
  { apply (extends_block s); auto; discriminate. }
  destruct (p =? NULL) eqn:Hpn.
  - apply Z.eqb_eq in Hpn. intros [= <- <-]. auto.
  - apply Z.eqb_neq in Hpn. destruct (Hp Hpn) as (Hps & Hun & _).
    destruct (Hop Hpn) as [Ho1 Hlt].
    assert (load_slot (Label i j) s1 = Ok NULL s1) as Hload.
    { unfold load_slot.
      erewrite bind_Ok; [|rewrite load_class_eq, Hent1, Hc; reflexivity].
      rewrite load_ptr_eq, Ha1, Hj. reflexivity. }
    rewrite (bind_Ok _ _ _ _ _ Hload).
    assert (free NULL s1 = Ok tt s1) as Hfree by reflexivity.
    rewrite (bind_Ok _ _ _ _ _ Hfree).
    assert (store_slot (Label i j) p s1 = Ok tt (put_ptr (labels c) j p s1))
      as Hstore.
    { unfold store_slot.
      erewrite bind_Ok; [|rewrite load_class_eq, Hent1, Hc; reflexivity].
      now apply (store_ptr_eq _ _ _ _ lp NULL). }
    rewrite (bind_Ok _ _ _ _ _ Hstore). intros [= <- <-].
    rewrite <- Hent1 in Hc.
    apply (put_ptr_owned None None s1 i j c p lp); auto. now exists lab.
Qed.

(** The loop of [_openafs_add_stats]. *)
Lemma label_loop_owned e item i c s0 :
  forall k from lp s st s',
    (from + k = children_num item)%nat ->
    safe s -> class_entry s i = Some c ->
    heap s !! labels c = Some (BPtrs lp) ->
    length lp = children_num item ->
    (forall j, (from <= j < children_num item)%nat -> lp !! j = Some NULL) ->
    extends s0 s -> brk s0 <= labels c -> b0 < brk s0 ->
    owned b0 f0 None None None s ->
    for_status (fun j =>
                  match children item !! j with
                  | Some child =>
                      if strcasecmp "Counter" (key child) =? 0
                      then cf_util_get_string e child (Label i j)
                      else mret 0
                  | None => fault
                  end) from k 0 s = Ok st s' ->
    owned b0 f0 None None None s'.
Proof.
  induction k as [|k IH];
    intros from lp s st s' Hfk Hs Hc Ha Hlen Hnull He0 Hle Hb Ho.
  - now intros [= <- <-].
  - assert (from < length (children item))%nat as Hlt
        by (unfold children_num in Hfk; lia).
    destruct (lookup_lt_is_Some_2 _ _ Hlt) as [child Hchild].
    cbn [for_status]. change (0 =? 0) with true. cbv iota.
    assert (b0 < brk s) as Hbs by (pose proof (ext_brk _ _ He0); lia).
    destruct (strcasecmp "Counter" (key child) =? 0) eqn:Hkey.
    + assert (lp !! from = Some NULL) as Hfrom
          by (apply Hnull; unfold children_num; lia).
      destruct (get_label_spec e child i from c lp s s0 Hs Hc Ha Hfrom He0 Hle)
        as (st1 & s1 & Hrun & Hs1 & He1 & Hent1 & _ & _ & _ & Hres & _).
      pose proof (get_label_owned e child i from c lp s st1 s1
                    Hs Hc Ha Hfrom Hbs Ho Hrun) as Ho1.
      erewrite bind_Ok; [|rewrite Hchild, Hkey; exact Hrun].
      destruct Hres as [(-> & p & lab & Hv & Harr & Hp)|(-> & Harr)].
      * apply (IH (S from) (<[from := p]> lp) s1); auto; try lia.
        { now rewrite Hent1. }
        { now rewrite length_insert. }
        { intros j Hj. rewrite list_lookup_insert_ne by lia.
          apply Hnull. lia. }
      * rewrite for_status_nonzero by discriminate. now intros [= <- <-].
    + erewrite bind_Ok; [|rewrite Hchild, Hkey; reflexivity].
      apply (IH (S from) lp s); auto; try lia.
      intros j Hj. apply Hnull. lia.
Qed.
End owned_chain.

Section owned_construction.
Variables (b0 : ptr) (f0 : gmap Z file).

(** [_openafs_add_stats] on an entry that holds nothing but its name. *)
Lemma add_stats_owned e item i s p name st s' :
  safe s -> class_entry s i = Some (set_class p zero_class) ->
  heap s !! p = Some (BString name) -> (strlen name <= 254)%nat ->
  b0 < brk s -> owned b0 f0 None None None s ->
  _openafs_add_stats e item i s = Ok st s' ->
  owned b0 f0 None None None s'.
Proof.
  intros Hs Hc Hp Hlen Hb Ho. unfold _openafs_add_stats.
  set (n := children_num item).
  set (c0 := set_class p zero_class) in *.
  rewrite (bind_Ok _ _ _ _ _ (load_class_Ok _ _ _ Hc)).
  rewrite (bind_Ok _ _ _ _ _ (load_string_eq _ _ _ Hp)).
  assert ((OPENAFS_STR_MAX_LEN <? strlen name + 2)%nat = false) as ->.
  { apply Nat.ltb_ge. unfold OPENAFS_STR_MAX_LEN. lia. }
  rewrite (segment_buffer name Hlen).
  (* shm_open *)
  destruct (shm_open_spec e ("/" +:+ name) s Hs)
    as (d & s1 & Hopen & Hs1 & He1 & Hm1 & _ & Hd).
  destruct (shm_open_owned b0 f0 e _ None None s d s1 Ho Hopen) as [Ho1 Hd1].
  rewrite (bind_Ok _ _ _ _ _ Hopen).
  assert (class_entry s1 i = Some c0) as Hc1
      by (now rewrite (same_memory_entry s s1)).
  (* a_class->fd *)
  destruct (store_class_keep i (set_fd d) s1 c0 Hs1 Hc1)
    as (Hst2 & Hs2 & He2 & Hc2 & _); auto.
  set (c2 := set_fd d c0) in *. set (s2 := put_class i c2 s1) in *.
  rewrite (bind_Ok _ _ _ _ _ Hst2).
  assert (owned b0 f0 None None None s2) as Ho2.
  { apply (put_class_owned b0 f0 _ _ _ _ _ _ s1 i c0 c2 Hs1 Hc1 Ho1); auto.
    - right. split; [reflexivity|]. simpl. tauto.
    - intros d'. simpl. destruct (d <? 0); [discriminate|].
      intros [= ->]. now right. }
  destruct (shm_objects e ("/" +:+ name)) as [ws|] eqn:Hobj.
  2: { subst d. change (-1 <? 0) with true. cbv iota.
       now intros [= <- <-]. }
  destruct Hd as [Hd0 Hfd].
  assert ((d <? 0) = false) as -> by (apply Z.ltb_ge; lia).
  (* a_class->n_counters *)
  destruct (store_class_keep i (set_n_counters n) s2 c2 Hs2 Hc2)
    as (Hst3 & Hs3 & He3 & Hc3 & _); auto.
  set (c3 := set_n_counters n c2) in *. set (s3 := put_class i c3 s2) in *.
  rewrite (bind_Ok _ _ _ _ _ Hst3).
  assert (owned b0 f0 None None None s3) as Ho3.
  { apply (put_class_owned b0 f0 _ _ _ _ _ _ s2 i c2 c3 Hs2 Hc2 Ho2); auto;
      discriminate. }
  assert (b0 < brk s3) as Hb3.
  { pose proof (ext_brk _ _ He1). pose proof (ext_brk _ _ He2).
    pose proof (ext_brk _ _ He3). lia. }
  (* mmap *)
  destruct (mmap_spec e (n * sizeof_unsigned_int) d ("/" +:+ name) s3 Hs3 Hfd)
    as (m & s4 & Hmap & Hs4 & He4 & Hent4 & _ & _ & Hm0 & _).
  pose proof (mmap_owned b0 f0 e _ d None None s3 m s4 Hs3 Hb3 Ho3 Hmap)
    as Ho4.
  rewrite (bind_Ok _ _ _ _ _ Hmap).
  assert (class_entry s4 i = Some c3) as Hc4 by (now rewrite Hent4).
  (* a_class->counters *)
  destruct (store_class_keep i (set_counters m) s4 c3 Hs4 Hc4)
    as (Hst5 & Hs5 & He5 & Hc5 & _); auto.
  set (c5 := set_counters m c3) in *. set (s5 := put_class i c5 s4) in *.
  rewrite (bind_Ok _ _ _ _ _ Hst5).
  assert (owned b0 f0 None None None s5) as Ho5.
  { destruct Ho4 as [[Hmf Ho4]|[Hmlt Ho4]].
    - apply (put_class_owned b0 f0 _ _ _ _ _ _ s4 i c3 c5 Hs4 Hc4 Ho4); auto;
        discriminate.
    - apply (put_class_owned b0 f0 _ _ _ _ _ _ s4 i c3 c5 Hs4 Hc4 Ho4); auto;
        try discriminate.
      intros a n' [= <- <-]. right. split; reflexivity. }
  assert (b0 < brk s5) as Hb5.
  { pose proof (ext_brk _ _ He4). pose proof (ext_brk _ _ He5). lia. }
  assert (extends s s5) as Hes5.
  { apply (extends_trans s s1); [auto|]. apply (extends_trans s1 s2); [auto|].
    apply (extends_trans s2 s3); [auto|]. now apply (extends_trans s3 s4). }
  (* calloc *)
  destruct (alloc_spec e (Nat.eqb n 0) (BPtrs (replicate n NULL)) s5 Hs5)
    as (l & s6 & Halloc & Hs6 & He6 & Hent6 & _ & _ & _ & Hl & _).
  destruct (alloc_owned b0 f0 e _ _ None None s5 l s6 Hs5 Hb5 Ho5 Halloc)
    as [Ho6n Ho6].
  unfold calloc_ptrs. fold n. rewrite (bind_Ok _ _ _ _ _ Halloc).
  assert (class_entry s6 i = Some c5) as Hc6 by (now rewrite Hent6).
  (* a_class->labels *)
  set (c7 := set_labels l c5). set (s7 := put_class i c7 s6).
  assert (store_class i (set_labels l) s6 = Ok tt s7) as Hst7
      by (now apply store_class_eq).
  rewrite (bind_Ok _ _ _ _ _ Hst7).
  assert (safe s7) as Hs7.
  { apply (put_class_safe_labels s6 i c5); auto.
    destruct (decide (l = NULL)) as [?|Hln]; [now left|right].
    destruct (Hl Hln) as (? & ? & ?). now split. }
  assert (owned b0 f0 None None None s7) as Ho7.
  { destruct (decide (l = NULL)) as [Hln|Hln].
    - apply (put_class_owned b0 f0 _ _ _ _ _ _ s6 i c5 c7 Hs6 Hc6 (Ho6n Hln));
        auto; discriminate.
    - destruct (Ho6 Hln) as [Ho6' Hlt]. destruct (Hl Hln) as (Hlp & _ & _).
      apply (put_class_owned b0 f0 _ _ _ _ _ _ s6 i c5 c7 Hs6 Hc6 Ho6');
        auto; try discriminate.
      + right. split; [reflexivity|]. split; [exact Hlt|].
        intros k q. change (labels c7) with l. unfold ptrs_at. rewrite Hlp.
        intros Hk. apply lookup_replicate in Hk. tauto.
      + intros a [= ->]. auto. }
  destruct (put_class_entries s6 i c5 c7 Hc6) as [Hc7 _]. fold s7 in Hc7.
  assert (extends s s7) as Hes7.
  { apply (extends_trans s s5); [auto|]. apply (extends_trans s5 s6); [auto|].
    now apply put_class_extends. }
  assert ((m =? NULL) = false) as -> by (now apply Z.eqb_neq).
  rewrite orb_false_l.
  destruct (l =? NULL) eqn:Hln; [now intros [= <- <-]|].
  apply Z.eqb_neq in Hln. destruct (Hl Hln) as (Hlp & Hlun & Hlbrk).
  assert (heap s7 !! labels c7 = Some (BPtrs (replicate n NULL))) as Harr.
  { apply (put_class_block s6); auto; discriminate. }
  apply (label_loop_owned b0 f0 e item i c7 s n 0%nat (replicate n NULL) s7);
    auto.
  - apply length_replicate.
  - intros j Hj. apply lookup_replicate. split; [reflexivity|].
    fold n in Hj. lia.
  - change (labels c7) with l. rewrite Hlbrk. apply (ext_brk s s5 Hes5).
Qed.

(** [_openafs_process_class] on an entry that is still zeroed. *)
Lemma process_class_owned e item i s st s' :
  safe s -> class_entry s i = Some zero_class ->
  b0 < brk s -> owned b0 f0 None None None s ->
  _openafs_process_class e item i s = Ok st s' ->
  owned b0 f0 None None None s'.
Proof.
  intros Hs Hc Hb Ho. unfold _openafs_process_class.
  destruct (strcasecmp "Class" (key item) =? 0) eqn:Hkey;
    [|now intros [= <- <-]].
  unfold cf_util_get_string.
  destruct (values item) as [|[name| |] [|]] eqn:Hv;
    try (now intros [= <- <-]).
  destruct (alloc_spec e false (BString name) s Hs)
    as (p & s1 & Halloc & Hs1 & He1 & Hent1 & _ & _ & _ & Hp & _).
  destruct (alloc_owned b0 f0 e _ _ None None s p s1 Hs Hb Ho Halloc)
    as [Ho1n Ho1].
  unfold strdup.
  unfold mbind at 1, M_bind. rewrite (bind_Ok _ _ _ _ _ Halloc).
  destruct (p =? NULL) eqn:Hpn.
  { apply Z.eqb_eq in Hpn. intros [= <- <-]. auto. }
  apply Z.eqb_neq in Hpn. destruct (Hp Hpn) as (Hps & Hun & _).
  destruct (Ho1 Hpn) as [Ho1' Hlt].
  assert (class_entry s1 i = Some zero_class) as Hc1 by (now rewrite Hent1).
  assert (load_slot (ClassName i) s1 = Ok NULL s1) as Hload.
  { unfold load_slot. now rewrite (bind_Ok _ _ _ _ _ (load_class_Ok _ _ _ Hc1)). }
  rewrite (bind_Ok _ _ _ _ _ Hload).
  assert (free NULL s1 = Ok tt s1) as Hfree by reflexivity.
  rewrite (bind_Ok _ _ _ _ _ Hfree).
  set (c2 := set_class p zero_class). set (s2 := put_class i c2 s1).
  assert (store_slot (ClassName i) p s1 = Ok tt s2) as Hstore
      by (now apply store_class_eq).
  rewrite (bind_Ok _ _ _ _ _ Hstore).
  unfold mret, M_ret. change (0 =? 0) with true. cbv iota beta.
  assert (safe s2) as Hs2.
  { apply (put_class_safe_name s1 i zero_class); auto. now exists name. }
  assert (owned b0 f0 None None None s2) as Ho2.
  { apply (put_class_owned b0 f0 _ _ _ _ _ _ s1 i zero_class c2 Hs1 Hc1 Ho1');
      auto; try discriminate.
    intros a [= ->]. auto. }
  destruct (put_class_entries s1 i zero_class c2 Hc1) as [Hc2 _].
  fold s2 in Hc2.
  assert (heap s2 !! p = Some (BString name)) as Hp2.
  { apply (put_class_block s1); auto; discriminate. }
  assert (b0 < brk s2) as Hb2 by (pose proof (ext_brk _ _ He1); simpl; lia).
  destruct (254 <? strlen name)%nat eqn:Hlong.
  - apply Nat.ltb_lt in Hlong.
    rewrite (add_stats_long e item i s2 c2 name Hc2 Hp2 Hlong).
    now intros [= <- <-].
  - apply Nat.ltb_ge in Hlong.
    now apply (add_stats_owned e item i s2 p name).
Qed.

(** The loop of [openafs_config]. *)
Lemma config_loop_owned e cfg :
  forall k from s st s',
    (from + k = children_num cfg)%nat ->
    safe s ->
    (forall j, (from <= j < children_num cfg)%nat ->
               class_entry s j = Some zero_class) ->
    b0 < brk s -> owned b0 f0 None None None s ->
    for_status (fun i =>
                  match children cfg !! i with
                  | Some child => _openafs_process_class e child i
                  | None => fault
                  end) from k 0 s = Ok st s' ->
    owned b0 f0 None None None s'.
Proof.
  induction k as [|k IH]; intros from s st s' Hfk Hs Hzero Hb Ho.
  - now intros [= <- <-].
  - assert (from < length (children cfg))%nat as Hlt
        by (unfold children_num in Hfk; lia).
    destruct (lookup_lt_is_Some_2 _ _ Hlt) as [item Hitem].
    cbn [for_status]. change (0 =? 0) with true. cbv iota.
    assert (class_entry s from = Some zero_class) as Hc
        by (apply Hzero; unfold children_num; lia).
    destruct (process_class_spec e item from s Hs Hc)
      as (st1 & s1 & Hrun & Hs1 & He1 & Ho1 & Hst1 & _).
    pose proof (process_class_owned e item from s st1 s1 Hs Hc Hb Ho Hrun)
      as Ho1'.
    erewrite bind_Ok; [|rewrite Hitem; exact Hrun].
    destruct Hst1 as [->| ->].
    + apply (IH (S from) s1); auto; try lia.
      * intros j Hj. rewrite Ho1 by lia. apply Hzero. lia.
      * pose proof (ext_brk _ _ He1). lia.
    + rewrite for_status_nonzero by discriminate. now intros [= <- <-].
Qed.
End owned_construction.

Lemma with_class_lst_owned n s :
  startup s -> owned (brk s) (fds s) None None None (with_class_lst n s).
Proof.
  intros (Hb & Hh & Hm).
  pose proof (with_class_lst_safe n s (conj Hb (conj Hh Hm))) as Hs.
  assert (forall j c, class_entry (with_class_lst n s) j = Some c ->
                      c = zero_class) as Hz.
  { intros j c. rewrite with_class_lst_entry. destruct (decide _); congruence. }
  assert (forall l p, slot_val (with_class_lst n s) l = Some p -> p = NULL)
    as Hsv.
  { intros [j|j k] p; simpl;
      destruct (class_entry (with_class_lst n s) j) as [c|] eqn:Hc;
      try discriminate; apply Hz in Hc; subst c.
    - now intros [= <-].
    - change (labels zero_class) with NULL. rewrite ptrs_at_null by auto.
      now rewrite lookup_nil. }
  split.
  - reflexivity.
  - intros l p Hl Hp. now apply Hsv in Hl.
  - intros j c Hc Hn. apply Hz in Hc. now subst c.
  - intros j c Hc. apply Hz in Hc. subst c. now left.
  - intros j c Hc. apply Hz in Hc. subst c. now left.
  - auto.
  - intros a b Ha Hlt. simpl in Ha. rewrite lookup_insert_ne in Ha by lia.
    apply Hh in Ha. lia.
  - intros a m Ha Hlt. apply Hm in Ha. lia.
  - intros d x Hd _. now left.
Qed.

(** The registry that the loop of [openafs_config] leaves, whatever the
    status, accounts for all that has been acquired. *)
Lemma config_owned e cfg s0 st s :
  startup s0 ->
  for_status (fun i =>
                match children cfg !! i with
                | Some child => _openafs_process_class e child i
                | None => fault
                end) 0 (children_num cfg) 0
             (with_class_lst (children_num cfg) s0) = Ok st s ->
  owned (brk s0) (fds s0) None None None s.
Proof.
  intros Hst Hrun. set (n := children_num cfg) in *.
  apply (config_loop_owned (brk s0) (fds s0) e cfg n 0%nat
           (with_class_lst n s0) st s); auto.
  - now apply with_class_lst_safe.
  - intros j Hj. rewrite with_class_lst_entry. fold n in Hj.
    rewrite decide_True by lia. reflexivity.
  - simpl. lia.
  - now apply with_class_lst_owned.
Qed.

(** Teardown of a registry that accounts for all that was acquired since
    [s0]. *)
Lemma destroy_restores n s0 s s' :
  startup s0 -> safe s -> extends (with_class_lst n s0) s ->
  owned (brk s0) (fds s0) None None None s ->
  openafs_destroy s = Ok 0 s' ->
  (forall a b, heap s0 !! a = Some b -> heap s' !! a = Some b) /\
  (forall a b, heap s' !! a = Some b ->
               heap s0 !! a = Some b \/
               exists i c lp, class_entry s i = Some c /\ labels c = a /\
                              b = BPtrs lp /\ length lp = n_counters c) /\
  maps s' = maps s0 /\
  (forall d, 0 < d -> fds s' !! d = fds s0 !! d) /\
  dispatched s' = dispatched s0.
Proof.
  intros (Hb & Hh & Hm) Hs He Ho Hrun.
  destruct (destroy_effects s Hs)
    as (s1 & Hrun1 & Hheap & [Hmaps Hfds] & _ & _ & _ & Hdisp & _).
  rewrite Hrun in Hrun1. injection Hrun1 as <-.
  pose proof (ext_lst _ _ He) as Hlst. simpl in Hlst.
  assert (forall a, a < brk s0 -> heap s !! a = heap s0 !! a) as Hlow.
  { intros a Ha. rewrite (ext_heap _ _ He); simpl; [|lia|lia].
    now rewrite lookup_insert_ne by lia. }
  assert (forall a, a <= brk s0 -> maps s !! a = maps s0 !! a) as Hmlow.
  { intros a Ha. rewrite (ext_maps _ _ He); simpl; [reflexivity|lia]. }
  assert (forall j c, class_entry s j = Some c ->
                      (j < openafs_class_lst_len s)%nat) as Hlt.
  { intros j c Hc. destruct (safe_lst s Hs) as (l & Hl & <-).
    unfold class_entry in Hc. rewrite Hl in Hc.
    now apply lookup_lt_Some in Hc. }
  split; [|split; [|split; [|split]]].
  - intros a b Ha. pose proof (Hh a b Ha) as Hr. apply Hheap.
    split; [now rewrite Hlow by lia|]. split; [lia|].
    intros l Hl. assert (a <> NULL) as Hn by (unfold NULL; lia).
    pose proof (o_slot _ _ _ _ _ _ Ho l a Hl Hn). lia.
  - intros a b Ha. apply Hheap in Ha as (Ha & Hne & Hns).
    destruct (Z.lt_trichotomy a (brk s0)) as [Hl|[Heq|Hg]].
    + left. now rewrite <- Hlow.
    + congruence.
    + right. destruct (o_heap _ _ _ _ _ _ Ho a b Ha Hg)
        as [(i & c & Hc & Hlab)|[[l Hl]|H]];
        [|now destruct (Hns l) | discriminate].
      assert (labels c <> NULL) as Hn by (unfold NULL; lia).
      destruct (safe_labels s Hs i c Hc Hn) as (lp & Hlp & Hlen).
      exists i, c, lp. rewrite Hlab in Hlp. split; [auto|]. split; [auto|].
      split; [congruence | auto].
  - apply map_eq. intros a. apply option_eq. intros m. rewrite Hmaps. split.
    + intros [Ha Hn]. destruct (Z_le_gt_dec a (brk s0)) as [Hle|Hg].
      * now rewrite <- Hmlow.
      * exfalso. apply Hn.
        destruct (o_maps _ _ _ _ _ _ Ho a m Ha ltac:(lia))
          as [(i & c & Hc & Hcn & Hlen)|H]; [|discriminate].
        exists i, c. eauto using Hlt.
    + intros Ha. pose proof (Hm a m Ha) as Hr.
      split; [now rewrite Hmlow by lia|].
      intros (j & c & _ & Hc & Hcn & _).
      destruct (o_counters _ _ _ _ _ _ Ho j c Hc) as [H|[H|H]];
        unfold NULL, MAP_FAILED in *; lia.
  - intros d Hd. apply option_eq. intros x. rewrite Hfds. split.
    + intros [Hx Hn].
      destruct (o_fds _ _ _ _ _ _ Ho d x Hx ltac:(lia))
        as [H|[(i & c & Hc & Hfc)|H]]; [auto | | discriminate].
      exfalso. apply Hn. exists i, c. eauto using Hlt.
    + intros Hx. split; [now apply (o_fds_host _ _ _ _ _ _ Ho)|].
      intros (j & c & _ & Hc & Hfc).
      destruct (o_fd _ _ _ _ _ _ Ho j c Hc) as [H|[H|H]]; try lia.
      rewrite Hfc in H. congruence.
  - rewrite Hdisp. apply (ext_disp _ _ He).
Qed.

(** ** X16 (the registry holds all that construction acquired).
    After [openafs_config] has returned 0, every allocated block is one the
    process had before, the class list, the label array of an entry, or a
    string that a [class] member or an element of a label array points to;
    every mapping is one the process had before or the view of an entry, of
    [n_counters * 4] bytes; every open descriptor other than 0 is one the
    process had before or the [fd] of an entry; and the descriptors the
    process had are still open. *)
Theorem construction_holds_all_it_acquired e cfg s0 s :
  startup s0 ->
  openafs_config e cfg s0 = Ok 0 s ->
  (forall a b, heap s !! a = Some b ->
     heap s0 !! a = Some b \/ a = openafs_class_lst s \/
     (exists i c, class_entry s i = Some c /\ labels c = a) \/
     (exists l, slot_val s l = Some a)) /\
  (forall a m, maps s !! a = Some m ->
     maps s0 !! a = Some m \/
     exists i c, class_entry s i = Some c /\ counters c = a /\
                 m.2 = (n_counters c * sizeof_unsigned_int)%nat) /\
  (forall d x, fds s !! d = Some x -> d <> 0 ->
     fds s0 !! d = Some x \/
     exists i c, class_entry s i = Some c /\ fd c = d) /\
  (forall d x, fds s0 !! d = Some x -> fds s !! d = Some x).
Proof.
  intros Hst Hcfg. pose proof (config_run e cfg s0 Hst) as Hrun.
  cbv zeta in Hrun. destruct (_ || _).
  { rewrite Hcfg in Hrun. discriminate. }
  destruct Hrun
    as (st & s2 & Hloop & Hs2 & He & _ & [[_ Hrun]|(_ & s3 & _ & Hrun)]);
    rewrite Hcfg in Hrun; [|discriminate].
  injection Hrun as <-.
  pose proof (config_owned e cfg s0 st s Hst Hloop) as Ho.
  pose proof (ext_lst _ _ He) as Hlst. simpl in Hlst.
  split; [|split; [|split]].
  - intros a b Ha. destruct (Z.lt_trichotomy a (brk s0)) as [Hl|[Heq|Hg]].
    + left. rewrite (ext_heap _ _ He) in Ha; simpl; [|lia|lia].
      simpl in Ha. now rewrite lookup_insert_ne in Ha by lia.
    + right; left. congruence.
    + right; right.
      destruct (o_heap _ _ _ _ _ _ Ho a b Ha Hg) as [H|[H|H]];
        [auto | auto | discriminate].
  - intros a m Ha. destruct (Z_le_gt_dec a (brk s0)) as [Hle|Hg].
    + left. rewrite (ext_maps _ _ He) in Ha; simpl; [exact Ha|lia].
    + right. destruct (o_maps _ _ _ _ _ _ Ho a m Ha ltac:(lia)) as [H|H];
        [auto | discriminate].
  - intros d x Hd Hn0.
    destruct (o_fds _ _ _ _ _ _ Ho d x Hd Hn0) as [H|[H|H]];
      [auto | auto | discriminate].
  - apply (o_fds_host _ _ _ _ _ _ Ho).
Qed.

Lemma construction_holds_all_it_acquired_witness :
  exists s,
    openafs_config afs_env afs_config initial_state = Ok 0 s /\
    size (heap s) = 5%nat /\
    forall a b, heap s !! a = Some b ->
      heap initial_state !! a = Some b \/ a = openafs_class_lst s \/
      (exists i c, class_entry s i = Some c /\ labels c = a) \/
      (exists l, slot_val s l = Some a).
Proof.
  eexists.
  assert (openafs_config afs_env afs_config initial_state = Ok 0 _) as Hcfg
      by (vm_compute; reflexivity).
  split; [exact Hcfg|]. split; [vm_compute; reflexivity|].
  exact (proj1 (construction_holds_all_it_acquired
                  afs_env afs_config initial_state _ startup_initial Hcfg)).
Defined.

(** ** X17 (what a failed configuration leaves behind).
    When [openafs_config] returns -1, every block the process had before
    the call is still allocated with its contents, and whatever else is
    allocated is an array of label pointers; the mappings are those the
    process had before; and a descriptor other than 0 is open exactly if it
    was before. Nothing has been sent to the sink. *)
Theorem failed_configuration_rolls_back e cfg s0 s :
  startup s0 ->
  openafs_config e cfg s0 = Ok (-1) s ->
  (forall a b, heap s0 !! a = Some b -> heap s !! a = Some b) /\
  (forall a b, heap s !! a = Some b ->
               heap s0 !! a = Some b \/ exists lp, b = BPtrs lp) /\
  maps s = maps s0 /\
  (forall d, 0 < d -> fds s !! d = fds s0 !! d) /\
  dispatched s = dispatched s0.
Proof.
  intros Hst Hcfg. pose proof (config_run e cfg s0 Hst) as Hrun.
  cbv zeta in Hrun. destruct (_ || _).
  { rewrite Hcfg in Hrun. injection Hrun as ->. simpl. auto 10. }
  destruct Hrun
    as (st & s2 & Hloop & Hs2 & He & _ & [[_ Hrun]|(_ & s3 & Hd & Hrun)]);
    rewrite Hcfg in Hrun; [discriminate|].
  injection Hrun as ->.
  pose proof (config_owned e cfg s0 st s2 Hst Hloop) as Ho.
  destruct (destroy_restores _ s0 s2 s3 Hst Hs2 He Ho Hd)
    as (H1 & H2 & H3 & H4 & H5).
  split; [exact H1|]. split; [|auto].
  intros a b Ha. destruct (H2 a b Ha) as [H|(i & c & lp & _ & _ & -> & _)];
    eauto.
Qed.

Lemma failed_configuration_rolls_back_witness :
  exists s,
    openafs_config afs_env afs_gone_config initial_state = Ok (-1) s /\
    maps s = ∅ /\ fds s !! 3 = None.
Proof.
  eexists.
  assert (openafs_config afs_env afs_gone_config initial_state = Ok (-1) _)
    as Hcfg by (vm_compute; reflexivity).
  destruct (failed_configuration_rolls_back
              afs_env afs_gone_config initial_state _ startup_initial Hcfg)
    as (_ & _ & Hm & Hf & _).
  split; [exact Hcfg|]. split; [exact Hm|]. rewrite Hf by lia.
  vm_compute. reflexivity.
Defined.

(** ** X18 (teardown undoes construction, label arrays apart).
    [openafs_destroy] after an accepted configuration returns 0 and leaves
    the process with the blocks it had before [openafs_config] and the
    label arrays of the entries, one per class block, with the mappings it
    had before, and with the descriptors other than 0 that it had
    before. *)
Theorem teardown_undoes_construction e cfg s0 s :
  startup s0 ->
  openafs_config e cfg s0 = Ok 0 s ->
  exists s',
    openafs_destroy s = Ok 0 s' /\
    (forall a b, heap s0 !! a = Some b -> heap s' !! a = Some b) /\
    (forall a b, heap s' !! a = Some b ->
                 heap s0 !! a = Some b \/
                 exists i c lp, class_entry s i = Some c /\ labels c = a /\
                                b = BPtrs lp /\ length lp = n_counters c) /\
    maps s' = maps s0 /\
    (forall d, 0 < d -> fds s' !! d = fds s0 !! d) /\
    dispatched s' = dispatched s0.
Proof.
  intros Hst Hcfg. pose proof (config_run e cfg s0 Hst) as Hrun.
  cbv zeta in Hrun. destruct (_ || _).
  { rewrite Hcfg in Hrun. discriminate. }
  destruct Hrun
    as (st & s2 & Hloop & Hs2 & He & _ & [[_ Hrun]|(_ & s3 & _ & Hrun)]);
    rewrite Hcfg in Hrun; [|discriminate].
  injection Hrun as <-.
  pose proof (config_owned e cfg s0 st s Hst Hloop) as Ho.
  destruct (destroy_spec s Hs2) as (s' & Hd). exists s'. split; [exact Hd|].
  exact (destroy_restores _ s0 s s' Hst Hs2 He Ho Hd).
Qed.

Lemma teardown_undoes_construction_witness :
  exists s s',
    openafs_config afs_env afs_config initial_state = Ok 0 s /\
    openafs_destroy s = Ok 0 s' /\
    maps s' = ∅ /\ fds s' !! 3 = None /\ fds s' !! 2 = Some StdStream.
Proof.
  eexists.
  assert (openafs_config afs_env afs_config initial_state = Ok 0 _) as Hcfg
      by (vm_compute; reflexivity).
  destruct (teardown_undoes_construction
              afs_env afs_config initial_state _ startup_initial Hcfg)
    as (s' & Hd & _ & _ & Hm & Hf & _).
  exists s'. split; [exact Hcfg|]. split; [exact Hd|]. split; [exact Hm|].
  rewrite !Hf by lia. split; vm_compute; reflexivity.
Defined.

(** ** When a sampling pass is defined *)

Lemma collect_defined {A} (f : nat -> option A) k :
  forall from l, collect f from k = Some l ->
                 forall i, (from <= i < from + k)%nat -> is_Some (f i).
Proof.
  induction k as [|k IH]; intros from l; simpl; [lia|].
  destruct (f from) as [x|] eqn:Hx; [|discriminate].
  destruct (collect f (S from) k) as [l'|] eqn:Hl; [|discriminate].
  intros _ i Hi. destruct (decide (i = from)) as [->|Hne]; [eauto|].
  apply (IH (S from) l' Hl). lia.
Qed.

Lemma collect_total {A} (f : nat -> option A) k :
  forall from, (forall i, (from <= i < from + k)%nat -> is_Some (f i)) ->
               is_Some (collect f from k).
Proof.
  induction k as [|k IH]; intros from Hf; simpl; [eauto|].
  destruct (Hf from) as [x ->]; [lia|].
  destruct (IH (S from)) as [l ->]; [intros i Hi; apply Hf; lia | eauto].
Qed.

Lemma word_at_Some e words i :
  is_Some (word_at e words i) <->
  (i < length words)%nat \/ in_pages e (length words) i = true.
Proof.
  unfold word_at. destruct (words !! i) as [w|] eqn:Hw.
  - apply lookup_lt_Some in Hw. split; eauto.
  - apply lookup_ge_None in Hw. destruct (in_pages e (length words) i).
    + split; eauto.
    + split; [intros [? ?]; discriminate | intros [?|?]; [lia|discriminate]].
Qed.

Lemma sample_at_inv e s c i v :
  sample_at e s c i = Some v ->
  exists name lp p label obj len words w,
    heap s !! class c = Some (BString name) /\
    heap s !! labels c = Some (BPtrs lp) /\
    lp !! i = Some p /\ heap s !! p = Some (BString label) /\
    maps s !! counters c = Some (obj, len) /\
    shm_objects e obj = Some words /\ word_at e words i = Some w.
Proof.
  unfold sample_at. intros H.
  repeat match type of H with
         | match ?x with _ => _ end = Some _ =>
             let E := fresh "E" in destruct x eqn:E; try discriminate
         end.
  eauto 20.
Qed.

(** The class blocks whose construction left nothing for a pass to trip
    over but the size of the object: every child is a counter and, unless
    there is none, the view was mapped in [e] and the object still exists
    when the pass runs in [e']. *)
Definition mapped_counters (e e' : env) (item : oconfig_item_t) : bool :=
  if strcasecmp "Class" (key item) =? 0
  then match values item with
       | [OCONFIG_TYPE_STRING name] =>
           let n := children_num item in
           forallb (fun child => strcasecmp "Counter" (key child) =? 0)
                   (children item) &&
           (Nat.eqb n 0 ||
            (negb (mmap_refused e ("/" +:+ name) (n * sizeof_unsigned_int)) &&
             bool_decide (is_Some (shm_objects e' ("/" +:+ name)))))
       | _ => false
       end
  else true.

(** Every slot of a class is in a page of its object. *)
Definition slots_in_pages (e' : env) (item : oconfig_item_t) : Prop :=
  forall name words i,
    (strcasecmp "Class" (key item) =? 0) = true ->
    values item = [OCONFIG_TYPE_STRING name] ->
    shm_objects e' ("/" +:+ name) = Some words ->
    (i < children_num item)%nat ->
    (i < length words)%nat \/ in_pages e' (length words) i = true.

(** A class entry all of whose slots a pass can read. *)
Lemma built_sampled e e' s item c l :
  safe s -> built e s item c ->
  collect (sample_at e' s c) 0 (n_counters c) = Some l ->
  slots_in_pages e' item.
Proof.
  intros Hs Hb Hl name words i Hkey Hv Hobj Hi. unfold built in Hb.
  rewrite Hkey in Hb.
  destruct Hb as (name' & Hv' & _ & _ & _ & Hn & Hcnt & _).
  rewrite Hv in Hv'. injection Hv' as <-.
  destruct (collect_defined _ _ _ _ Hl i) as [v Hsv]; [lia|].
  apply sample_at_inv in Hsv
    as (? & ? & ? & ? & obj & len & words' & w & _ & _ & _ & _ & Hmap
        & Hobj' & Hw).
  unfold counters_built in Hcnt.
  destruct (Nat.eqb _ 0 || mmap_refused e _ _).
  { rewrite Hcnt in Hmap. apply (safe_maps s Hs) in Hmap.
    unfold MAP_FAILED in Hmap. lia. }
  rewrite Hcnt in Hmap. injection Hmap as <- <-.
  rewrite Hobj in Hobj'. injection Hobj' as <-.
  apply (word_at_Some e'). eauto.
Qed.

(** A class entry whose slots are all in the pages of its object. *)
Lemma built_readable e e' s item c :
  safe s -> built e s item c ->
  mapped_counters e e' item = true -> slots_in_pages e' item ->
  is_Some (collect (sample_at e' s c) 0 (n_counters c)).
Proof.
  intros Hs Hb Hm Hp. unfold built in Hb. unfold mapped_counters in Hm.
  unfold slots_in_pages in Hp.
  destruct (strcasecmp "Class" (key item) =? 0) eqn:Hkey;
    [|subst c; simpl; eauto].
  destruct Hb as (name & Hv & _ & _ & Hname & Hn & Hcnt & lp & Hlp & Hll & Hall).
  rewrite Hv in Hm. apply andb_prop in Hm as [Hcs Hmp].
  apply collect_total. intros i Hi. rewrite Hn in Hi.
  assert (Nat.eqb (children_num item) 0 = false) as Hz
      by (apply Nat.eqb_neq; lia).
  rewrite Hz in Hmp. cbn [orb] in Hmp. apply andb_prop in Hmp as [Hnr Hex].
  apply negb_true_iff in Hnr. apply bool_decide_eq_true in Hex as [words Hobj].
  assert (Nat.eqb (children_num item * sizeof_unsigned_int) 0 = false) as Hz4
      by (apply Nat.eqb_neq; unfold sizeof_unsigned_int; lia).
  unfold counters_built in Hcnt. rewrite Hn, Hz4, Hnr in Hcnt.
  cbn [orb] in Hcnt.
  assert (i < length (children item))%nat as Hic
      by (unfold children_num in Hi; lia).
  destruct (lookup_lt_is_Some_2 _ _ Hic) as [child Hchild].
  pose proof (Hall i child Hchild) as Hlb. unfold label_built in Hlb.
  rewrite forallb_forall in Hcs.
  rewrite (Hcs child) in Hlb
    by (apply list_elem_of_In, list_elem_of_lookup; eauto).
  destruct Hlb as (p & lab & Hp' & Hlab & _).
  destruct (proj2 (word_at_Some e' words i)) as [w Hw].
  { apply (Hp name words i); auto; lia. }
  unfold sample_at. rewrite Hname, Hlp, Hp', Hlab, Hcnt, Hobj, Hw.
  assert ((sizeof_unsigned_int * S i <=?
           children_num item * sizeof_unsigned_int)%nat = true) as ->
      by (apply Nat.leb_le; unfold sizeof_unsigned_int; lia).
  eauto.
Qed.

(** ** X19 (which slots a sampling pass can read).
    Over the registry of an accepted configuration whose class blocks hold
    children keyed "Counter" only, whose views were mapped and whose
    objects still exist, a pass of [openafs_read] returns if and only if
    the word of every slot lies in a page of the class's object as it is
    when the pass runs: a slot beyond the words of the object but in its
    last page is read as what the system filled the page with, and the
    pass goes on; a slot in a later page of the mapping stops the
    process. *)
Theorem pass_returns_iff_slots_lie_in_pages e e' cfg s0 s :
  startup s0 ->
  openafs_config e cfg s0 = Ok 0 s ->
  forallb (mapped_counters e e') (children cfg) = true ->
  (exists st s', openafs_read e' s = Ok st s') <->
  (forall item, In item (children cfg) -> slots_in_pages e' item).
Proof.
  intros Hst Hcfg Hmapped.
  destruct (config_spec e cfg s0 Hst) as (st & s1 & Hrun & _ & Hok & _).
  rewrite Hcfg in Hrun. injection Hrun as <- <-.
  destruct (Hok eq_refl) as (Hs & Hn & _ & Hbuilt). split.
  - intros (st & s' & Hread) item Hin. rewrite read_pure in Hread.
    unfold pass_emits in Hread.
    destruct (collect (class_emits e' s) 0 (openafs_class_lst_len s))
      as [ls|] eqn:Hls; [|discriminate].
    apply list_elem_of_In, list_elem_of_lookup in Hin as [j Hj].
    destruct (Hbuilt j item Hj) as (c & Hc & Hb).
    destruct (collect_defined _ _ _ _ Hls j) as [l Hl].
    { apply lookup_lt_Some in Hj. unfold children_num in Hn. lia. }
    unfold class_emits in Hl. rewrite Hc in Hl.
    exact (built_sampled e e' s item c l Hs Hb Hl).
  - intros Hpages. rewrite read_pure. unfold pass_emits.
    destruct (collect_total (class_emits e' s) (openafs_class_lst_len s) 0)
      as [ls ->]; [|eauto].
    intros j Hj.
    assert (j < length (children cfg))%nat as Hjc
        by (unfold children_num in Hn; lia).
    destruct (lookup_lt_is_Some_2 _ _ Hjc) as [item Hitem].
    destruct (Hbuilt j item Hitem) as (c & Hc & Hb).
    assert (In item (children cfg)) as Hin
        by (apply list_elem_of_In, list_elem_of_lookup; eauto).
    unfold class_emits. rewrite Hc.
    apply (built_readable e e' s item c Hs Hb); [|auto].
    rewrite forallb_forall in Hmapped. auto.
Qed.

(** Three counters declared for "/afs", which holds two words. *)
Definition afs_spare_config : oconfig_item_t :=
  Plugin_block [Class_block "afs" [Counter_line "hits"; Counter_line "misses";
                                   Counter_line "spare"]].

Lemma pass_returns_iff_slots_lie_in_pages_witness :
  exists s s',
    openafs_config afs_env afs_spare_config initial_state = Ok 0 s /\
    openafs_read afs_env s = Ok 0 s' /\
    dispatched s' = [mk_vl "openafs" "afs_hits" [42];
                     mk_vl "openafs" "afs_misses" [7];
                     mk_vl "openafs" "afs_spare" [0]].
Proof.
  eexists.
  assert (openafs_config afs_env afs_spare_config initial_state = Ok 0 _)
    as Hcfg by (vm_compute; reflexivity).
  destruct (proj2 (pass_returns_iff_slots_lie_in_pages
                     afs_env afs_env afs_spare_config initial_state _
                     startup_initial Hcfg ltac:(vm_compute; reflexivity)))
    as (st & s' & Hread).
  { intros item [<-|[]] name words i _ [= <-] [= <-] Hi.
    destruct i as [|[|[|i]]]; [left; simpl; lia | left; simpl; lia | | ].
    - right. vm_compute. reflexivity.
    - change (children_num _) with 3%nat in Hi. lia. }
  exists s'.
  match type of Hcfg with
  | _ = Ok 0 ?s =>
      assert (openafs_read afs_env s = Ok 0 _) as Hread'
        by (vm_compute; reflexivity)
  end.
  rewrite Hread' in Hread. injection Hread as <- <-.
  split; [exact Hcfg|]. split; [exact Hread'|]. vm_compute. reflexivity.
Defined.

(** ** The segments that are opened *)

(** The name under which the object of a top-level item is opened, if the
    item is a class block. *)
Definition segment_of (item : oconfig_item_t) : option string :=
  if strcasecmp "Class" (key item) =? 0
  then match values item with
       | [OCONFIG_TYPE_STRING name] => Some ("/" +:+ name)
       | _ => None
       end
  else None.

(** A class block whose name cannot be copied is given up at once. *)
Lemma process_class_no_memory e item i s name :
  (strcasecmp "Class" (key item) =? 0) = true ->
  values item = [OCONFIG_TYPE_STRING name] ->
  alloc_fails e (allocs s) = true ->
  _openafs_process_class e item i s = Ok (-1) (set_allocs (S (allocs s)) s).
Proof.
  intros Hkey Hv Hf. unfold _openafs_process_class, cf_util_get_string.
  rewrite Hkey, Hv. unfold strdup, alloc.
  unfold mbind at 1, M_bind. unfold mbind at 1, M_bind.
  rewrite Hf. reflexivity.
Qed.

Lemma config_loop_log e cfg :
  forall k from s s',
    (from + k = children_num cfg)%nat ->
    safe s ->
    (forall j, (from <= j < children_num cfg)%nat ->
               class_entry s j = Some zero_class) ->
    for_status (fun i =>
                  match children cfg !! i with
                  | Some child => _openafs_process_class e child i
                  | None => fault
                  end) from k 0 s = Ok 0 s' ->
    shm_log s' = (shm_log s ++ omap segment_of (drop from (children cfg)))%list.
Proof.
  induction k as [|k IH]; intros from s s' Hfk Hs Hzero.
  - intros [= <-]. rewrite drop_ge by (unfold children_num in Hfk; lia).
    simpl. now rewrite app_nil_r.
  - assert (from < length (children cfg))%nat as Hlt
        by (unfold children_num in Hfk; lia).
    destruct (lookup_lt_is_Some_2 _ _ Hlt) as [item Hitem].
    rewrite (drop_S _ _ _ Hitem). cbn [for_status].
    change (0 =? 0) with true. cbv iota.
    assert (class_entry s from = Some zero_class) as Hc
        by (apply Hzero; unfold children_num; lia).
    destruct (process_class_spec e item from s Hs Hc)
      as (st1 & s1 & Hrun & Hs1 & He1 & Ho1 & Hst1 & Hb1 & _ & Hlog).
    erewrite bind_Ok; [|rewrite Hitem; exact Hrun].
    destruct Hst1 as [->| ->];
      [|rewrite for_status_nonzero by discriminate; discriminate].
    intros Hloop.
    rewrite (IH (S from) s1 s'); auto; try lia.
    2: { intros j Hj. rewrite Ho1 by lia. apply Hzero. lia. }
    destruct (Hb1 eq_refl) as (c & _ & Hb). unfold built in Hb.
    cbn [omap list_omap]. unfold segment_of at 2.
    destruct (strcasecmp "Class" (key item) =? 0) eqn:Hkey.
    + destruct Hb as (name & Hv & Hlen & _). rewrite Hv.
      specialize (Hlog name eq_refl Hv).
      assert ((254 <? strlen name)%nat = false) as Hshort
          by (apply Nat.ltb_ge; lia).
      rewrite Hshort in Hlog. rewrite Hlog.
      * now rewrite <- app_assoc.
      * destruct (alloc_fails e (allocs s)) eqn:Hf; [|reflexivity].
        rewrite (process_class_no_memory e item from s name Hkey Hv Hf) in Hrun.
        discriminate.
    + assert (_openafs_process_class e item from s = Ok 0 s) as Hskip
          by (unfold _openafs_process_class; now rewrite Hkey).
      rewrite Hskip in Hrun. now injection Hrun as <-.
Qed.

(** ** X20 (the segments that are opened).
    An accepted configuration has called [shm_open] once for every
    top-level class block, in the order of the blocks, with "/" followed by
    the class name, and for nothing else. *)
Theorem segments_are_opened_in_order e cfg s0 s :
  startup s0 ->
  openafs_config e cfg s0 = Ok 0 s ->
  shm_log s = (shm_log s0 ++ omap segment_of (children cfg))%list.
Proof.
  intros Hst Hcfg. pose proof (config_run e cfg s0 Hst) as Hrun.
  cbv zeta in Hrun. destruct (_ || _).
  { rewrite Hcfg in Hrun. discriminate. }
  destruct Hrun
    as (st & s2 & Hloop & _ & _ & _ & [[-> Hrun]|(_ & s3 & _ & Hrun)]);
    rewrite Hcfg in Hrun; [|discriminate].
  injection Hrun as <-.
  rewrite (config_loop_log e cfg (children_num cfg) 0%nat
             (with_class_lst (children_num cfg) s0) s eq_refl
             (with_class_lst_safe _ s0 Hst)); [reflexivity| |exact Hloop].
  intros j Hj. rewrite with_class_lst_entry.
  rewrite decide_True by lia. reflexivity.
Qed.

Lemma segments_are_opened_in_order_witness :
  exists s,
    openafs_config afs_env afs_after_foreign_config initial_state = Ok 0 s /\
    shm_log s = ["/afs"].
Proof.
  eexists.
  assert (openafs_config afs_env afs_after_foreign_config initial_state
          = Ok 0 _) as Hcfg by (vm_compute; reflexivity).
  split; [exact Hcfg|].
  rewrite (segments_are_opened_in_order
             afs_env afs_after_foreign_config initial_state _
             startup_initial Hcfg).
  vm_compute. reflexivity.
Defined.
